(** * The secure grading subsystem: output normalizer, checkers, verdict
    service and grading runner.

    A shallow embedding of [hud_controller/checkers.py],
    [hud_controller/grading_server.py] and
    [hud_controller/oi_grading_runner.py].

    Python [str] values are lists of characters.  Characters are the code
    points below 256 ([ascii]); on that range [is_space] is exactly the set
    that [str.strip], [str.rstrip] and [str.split()] treat as whitespace,
    and the decimal digits are exactly ['0'..'9'].  Floats are IEEE 754
    binary64 values ([PrimFloat]), as Python's are.  What the program gets
    from its surroundings (files, processes, HTTP replies) is an explicit
    argument of the functions that use it. *)

From Stdlib Require Import ZArith Bool Ascii String List Lia Arith.
From Stdlib Require Import Sorting.Permutation Sorting.Sorted.
From Stdlib Require Import Floats.PrimFloat.
From Stdlib Require Floats.SpecFloat Floats.FloatOps Floats.FloatAxioms.
From Stdlib Require Reals Lra.
Import ListNotations.

Set Implicit Arguments.
Set Warnings "-inexact-float,-register-all".

(** ** Python strings *)

Module PyStr.

Definition pystr := list ascii.

(** A literal. *)
Definition py (s : string) : pystr := list_ascii_of_string s.
Arguments py : simpl never.

Definition LF : ascii := ascii_of_nat 10.
Definition CR : ascii := ascii_of_nat 13.

Definition ascii_eqb (a b : ascii) : bool := Ascii.eqb a b.

Definition pystr_eq_dec : forall a b : pystr, {a = b} + {a <> b} :=
  list_eq_dec ascii_dec.

Definition pystr_eqb (a b : pystr) : bool :=
  if pystr_eq_dec a b then true else false.

(** [str.isspace] on one character: TAB..CR, FS..US, space, NEL, NBSP. *)
Definition is_space (c : ascii) : bool :=
  let n := nat_of_ascii c in
  ((9 <=? n) && (n <=? 13)) || ((28 <=? n) && (n <=? 32))
  || (n =? 133) || (n =? 160).

Definition is_empty (l : pystr) : bool :=
  match l with [] => true | _ => false end.

(** Remove the longest suffix whose elements satisfy [p]: the effect of
    [while l and p(l[-1]): l.pop()], and of [rstrip] on characters. *)
Fixpoint drop_end {A} (p : A -> bool) (l : list A) : list A :=
  match l with
  | [] => []
  | x :: t =>
      match drop_end p t with
      | [] => if p x then [] else [x]
      | r => x :: r
      end
  end.

Fixpoint drop_while {A} (p : A -> bool) (l : list A) : list A :=
  match l with
  | [] => []
  | x :: t => if p x then drop_while p t else l
  end.

Definition rstrip (s : pystr) : pystr := drop_end is_space s.
Definition lstrip (s : pystr) : pystr := drop_while is_space s.
Definition strip (s : pystr) : pystr := lstrip (rstrip s).

(** [s.split('\n')]: always at least one piece. *)
Fixpoint split_nl (s : pystr) : list pystr :=
  match s with
  | [] => [[]]
  | c :: t =>
      if ascii_eqb c LF then [] :: split_nl t
      else match split_nl t with
           | l :: ls => (c :: l) :: ls
           | [] => [[c]]
           end
  end.

(** ["\n".join(lines)]. *)
Fixpoint join_nl (ls : list pystr) : pystr :=
  match ls with
  | [] => []
  | [l] => l
  | l :: rest => l ++ LF :: join_nl rest
  end.

(** [s.replace("\r\n", "\n")]: left to right, non-overlapping. *)
Fixpoint replace_crlf (s : pystr) : pystr :=
  match s with
  | [] => []
  | c1 :: t =>
      match t with
      | c2 :: r =>
          if ascii_eqb c1 CR && ascii_eqb c2 LF
          then LF :: replace_crlf r
          else c1 :: replace_crlf t
      | [] => [c1]
      end
  end.

(** [s.split()]: maximal runs of non-whitespace characters. *)
Fixpoint split_ws_aux (cur : pystr) (s : pystr) : list pystr :=
  match s with
  | [] => match cur with [] => [] | _ => [rev cur] end
  | c :: t =>
      if is_space c
      then match cur with
           | [] => split_ws_aux [] t
           | _ => rev cur :: split_ws_aux [] t
           end
      else split_ws_aux (c :: cur) t
  end.

Definition split_ws (s : pystr) : list pystr := split_ws_aux [] s.

End PyStr.
Import PyStr.

(** ** Python values, exceptions and control flow *)

Module Py.

(** The exceptions the modelled code can raise.  The first four are
    [ValueError]s, then an [IndexError], an [AttributeError], a
    [requests.RequestException] (connection error, timeout, undecodable
    body), and any other [Exception] carrying its text. *)
Inductive exn : Type :=
| InvalidLiteral (s : pystr)
| TooManyDigits
| NotEnoughValues (expected got : nat)
| TooManyValues (expected : nat)
| ListIndexOutOfRange
| NoAttribute (tyname attr : pystr)
| RequestError (text : pystr)
| OtherError (text : pystr).

Definition is_ValueError (e : exn) : bool :=
  match e with
  | InvalidLiteral _ | TooManyDigits | NotEnoughValues _ _ | TooManyValues _ => true
  | _ => false
  end.

Definition is_IndexError (e : exn) : bool :=
  match e with ListIndexOutOfRange => true | _ => false end.

Definition is_RequestException (e : exn) : bool :=
  match e with RequestError _ => true | _ => false end.

(** A decoded JSON value. *)
Inductive json : Type :=
| JNull
| JBool (b : bool)
| JInt (z : Z)
| JFloat (f : float)
| JStr (s : pystr)
| JArr (items : list json)
| JObj (fields : list (pystr * json)).

(** Truth value of a decoded JSON value in [if v:] and [not v]. *)
Definition truthy (v : json) : bool :=
  match v with
  | JNull => false
  | JBool b => b
  | JInt z => negb (z =? 0)%Z
  | JFloat f => negb (f =? 0)%float
  | JStr s => negb (is_empty s)
  | JArr items => match items with [] => false | _ => true end
  | JObj fields => match fields with [] => false | _ => true end
  end.

(** The name [type(v).__name__] of a decoded JSON value. *)
Definition type_name (v : json) : pystr :=
  match v with
  | JNull => py "NoneType"
  | JBool _ => py "bool"
  | JInt _ => py "int"
  | JFloat _ => py "float"
  | JStr _ => py "str"
  | JArr _ => py "list"
  | JObj _ => py "dict"
  end.

(** An f-string: literal pieces and interpolated values, left unrendered.
    A message that is a value taken from a JSON reply is the single
    fragment [ValArg v]. *)
Inductive fragment : Type :=
| Lit (s : pystr)
| IntArg (z : Z)
| FloatArg (f : float)
| StrArg (s : pystr)
| ExnArg (e : exn)
| ValArg (v : json).

Definition message := list fragment.

(** A value or a raised exception. *)
Inductive result (A : Type) : Type :=
| Ok (a : A)
| Raise (e : exn).
Arguments Ok {A} a.
Arguments Raise {A} e.

Definition rbind {A B} (c : result A) (k : A -> result B) : result B :=
  match c with Ok a => k a | Raise e => Raise e end.

(** A statement inside a checker: fall through with a value, [return] a
    verdict, or raise. *)
Inductive ctl (A : Type) : Type :=
| Next (a : A)
| Return (r : bool * message)
| Throw (e : exn).
Arguments Next {A} a.
Arguments Return {A} r.
Arguments Throw {A} e.

Definition cbind {A B} (c : ctl A) (k : A -> ctl B) : ctl B :=
  match c with
  | Next a => k a
  | Return r => Return r
  | Throw e => Throw e
  end.

Definition lift {A} (c : result A) : ctl A :=
  match c with Ok a => Next a | Raise e => Throw e end.

(** [try: c  except <handled> : h]. *)
Definition try_except {A} (handled : exn -> bool) (c : ctl A)
    (h : exn -> ctl A) : ctl A :=
  match c with
  | Throw e => if handled e then h e else Throw e
  | other => other
  end.

(** A function body whose every path ends in [return]; no modelled body
    falls off its end. *)
Definition run_body (c : ctl unit) : result (bool * message) :=
  match c with
  | Return r => Ok r
  | Throw e => Raise e
  | Next tt => Raise (OtherError (py "no return value"))
  end.

(** The value passed as [actual] is whatever the request carried.
    [actual.strip()] is an [AttributeError] unless it is a [str]. *)
Definition pyval : Type := json.

Definition attr_strip (v : pyval) : result pystr :=
  match v with
  | JStr s => Ok (strip s)
  | other => Raise (NoAttribute (type_name other) (py "strip"))
  end.

(** [d.get(key, default)] on a dictionary kept as an association list. *)
Fixpoint dict_get {V} (d : list (pystr * V)) (key : pystr) (default : V) : V :=
  match d with
  | [] => default
  | (k, v) :: rest => if pystr_eqb k key then v else dict_get rest key default
  end.

(** [data.get(key, default)] where [data] is any decoded JSON value. *)
Definition json_get (data : json) (key : pystr) (default : json) : result json :=
  match data with
  | JObj fields => Ok (dict_get fields key default)
  | other => Raise (NoAttribute (type_name other) (py "get"))
  end.

(** [l[i]] with Python's negative indices. *)
Definition norm_index (len i : Z) : result Z :=
  let j := if (i <? 0)%Z then (i + len)%Z else i in
  if ((0 <=? j) && (j <? len))%Z then Ok j else Raise ListIndexOutOfRange.

Definition py_index {A} (l : list A) (i : Z) : result A :=
  rbind (norm_index (Z.of_nat (length l)) i) (fun j =>
  match nth_error l (Z.to_nat j) with
  | Some x => Ok x
  | None => Raise ListIndexOutOfRange
  end).

(** *** [int(s)] for a [str] argument, base 10 *)

Definition digit_val (c : ascii) : option Z :=
  let n := nat_of_ascii c in
  if (48 <=? n) && (n <=? 57) then Some (Z.of_nat (n - 48)) else None.

(** Whitespace skipped by [int()]: as [is_space] without FS..US. *)
Definition int_space (c : ascii) : bool :=
  let n := nat_of_ascii c in
  ((9 <=? n) && (n <=? 13)) || (n =? 32) || (n =? 133) || (n =? 160).

Definition int_max_str_digits : nat := 4300.

(** Digits, with single underscores allowed between two digits.
    [prev] tells whether the previous character was a digit; [count] is the
    number of digits read. *)
Fixpoint int_digits (acc : Z) (count : nat) (prev : bool) (s : pystr)
    : option (Z * nat) :=
  match s with
  | [] => if prev then Some (acc, count) else None
  | c :: t =>
      match digit_val c with
      | Some d => int_digits (10 * acc + d)%Z (S count) true t
      | None =>
          if ascii_eqb c "_"%char && prev
          then int_digits acc count false t
          else None
      end
  end.

Definition int_unsigned (whole body : pystr) : result Z :=
  match int_digits 0%Z 0 false body with
  | Some (z, count) =>
      if int_max_str_digits <? count then Raise TooManyDigits else Ok z
  | None => Raise (InvalidLiteral whole)
  end.

Definition py_int (s : pystr) : result Z :=
  let t := drop_while int_space (drop_end int_space s) in
  match t with
  | c :: body =>
      if ascii_eqb c "-"%char
      then rbind (int_unsigned s body) (fun z => Ok (- z)%Z)
      else if ascii_eqb c "+"%char then int_unsigned s body
      else int_unsigned s t
  | [] => Raise (InvalidLiteral s)
  end.

(** [a, b = map(int, tokens)]: the iterator is consumed one element at a
    time, so a bad token is reported before a wrong count is. *)
Definition unpack2_int (tokens : list pystr) : result (Z * Z) :=
  match tokens with
  | [] => Raise (NotEnoughValues 2 0)
  | [a] => rbind (py_int a) (fun _ => Raise (NotEnoughValues 2 1))
  | [a; b] => rbind (py_int a) (fun x => rbind (py_int b) (fun y => Ok (x, y)))
  | a :: b :: c :: _ =>
      rbind (py_int a) (fun _ => rbind (py_int b) (fun _ =>
      rbind (py_int c) (fun _ => Raise (TooManyValues 2))))
  end.

Definition unpack3_int (tokens : list pystr) : result (Z * Z * Z) :=
  match tokens with
  | [] => Raise (NotEnoughValues 3 0)
  | [a] => rbind (py_int a) (fun _ => Raise (NotEnoughValues 3 1))
  | [a; b] =>
      rbind (py_int a) (fun _ => rbind (py_int b) (fun _ =>
      Raise (NotEnoughValues 3 2)))
  | [a; b; c] =>
      rbind (py_int a) (fun x => rbind (py_int b) (fun y =>
      rbind (py_int c) (fun z => Ok (x, y, z))))
  | a :: b :: c :: d :: _ =>
      rbind (py_int a) (fun _ => rbind (py_int b) (fun _ =>
      rbind (py_int c) (fun _ => rbind (py_int d) (fun _ =>
      Raise (TooManyValues 3)))))
  end.

(** [for i in range(start, start + n)], threading a state. *)
Fixpoint for_range {S} (n : nat) (i : Z) (body : Z -> S -> ctl S) (s : S)
    : ctl S :=
  match n with
  | O => Next s
  | S n' => cbind (body i s) (fun s' => for_range n' (i + 1)%Z body s')
  end.

(** *** Floats *)

(** An [int] as a [float]; exact below 2^53 in absolute value. *)
Fixpoint pos_to_float (p : positive) : float :=
  match p with
  | xH => 1%float
  | xO q => (2 * pos_to_float q)%float
  | xI q => (2 * pos_to_float q + 1)%float
  end.

Definition Z_to_float (z : Z) : float :=
  match z with
  | Z0 => 0%float
  | Zpos p => pos_to_float p
  | Zneg p => (- pos_to_float p)%float
  end.

Definition is_inf (x : float) : bool := (abs x =? infinity)%float.

(** [math.isclose(a, b, rel_tol=..., abs_tol=...)]. *)
Definition isclose (a b rel_tol abs_tol : float) : bool :=
  if (a =? b)%float then true
  else if is_inf a || is_inf b then false
  else
    let diff := abs (b - a) in
    (diff <=? abs (rel_tol * b))%float
    || (diff <=? abs (rel_tol * a))%float
    || (diff <=? abs_tol)%float.

End Py.
Import Py.

Declare Scope ctl_scope.
Delimit Scope ctl_scope with ctl.
Notation "x <- c ;; k" := (cbind c (fun x => k))
  (at level 61, c at next level, right associativity) : ctl_scope.
Notation "' p <- c ;; k" := (cbind c (fun p => k))
  (at level 61, p pattern, c at next level, right associativity) : ctl_scope.
Notation "c ;;; k" := (cbind c (fun _ => k))
  (at level 61, right associativity) : ctl_scope.

(** ** Checkers ([hud_controller/checkers.py]) *)

Local Open Scope Z_scope.
Local Open Scope ctl_scope.

Definition CheckerFunc : Type :=
  pystr -> pystr -> pystr -> pyval -> result (bool * message).

(** [except Exception as e: return False, f"Checker error: {str(e)}"]
    around a whole checker body. *)
Definition checker_error_guard (body : ctl unit) : result (bool * message) :=
  match run_body body with
  | Ok r => Ok r
  | Raise e => Ok (false, [Lit (py "Checker error: "); ExnArg e])
  end.

(** [if cond: return r]. *)
Definition return_if (cond : bool) (r : bool * message) : ctl unit :=
  if cond then Return r else Next tt.

(** *** The counting array of the PASTELE checker *)

Module Pastele.

(** The 256 x 256 x 256 nested list [count], kept sparsely: the value of
    every cell, addressed by in-range indices. *)
Definition cells : Type := Z -> Z -> Z -> Z.

Definition cells_zero : cells := fun _ _ _ => 0.

Definition cells_set (count : cells) (r g b v : Z) : cells :=
  fun r' g' b' =>
    if (r' =? r) && (g' =? g) && (b' =? b) then v else count r' g' b'.

(** [count[r][g][b]], as a read. *)
Definition count_get (count : cells) (r g b : Z) : result Z :=
  rbind (norm_index 256 r) (fun r' =>
  rbind (norm_index 256 g) (fun g' =>
  rbind (norm_index 256 b) (fun b' => Ok (count r' g' b')))).

(** [count[r][g][b] += d]. *)
Definition count_add (count : cells) (r g b d : Z) : result cells :=
  rbind (norm_index 256 r) (fun r' =>
  rbind (norm_index 256 g) (fun g' =>
  rbind (norm_index 256 b) (fun b' =>
  Ok (cells_set count r' g' b' (count r' g' b' + d))))).

(** The variables updated by the loop over the claimed crayons. *)
Record state : Type := mkState {
  count : cells;
  min_r : Z; min_g : Z; min_b : Z;
  max_r : Z; max_g : Z; max_b : Z
}.

Definition init_state (c : cells) : state :=
  mkState c 256 256 256 (-1) (-1) (-1).

(** The loop reading the [n] input crayons. *)
Definition load_crayon (input_lines : list pystr) (i : Z) (c : cells)
    : ctl cells :=
  line <- lift (py_index input_lines i) ;;
  ' (r, g, b) <- lift (unpack3_int (split_ws line)) ;;
  lift (count_add c r g b 1).

(** The body of the loop over the claimed crayons. *)
Definition use_crayon (actual_lines : list pystr) (i : Z) (st : state)
    : ctl state :=
  line <- lift (py_index actual_lines i) ;;
  match split_ws (strip line) with
  | [p0; p1; p2] =>
      r <- lift (py_int p0) ;;
      g <- lift (py_int p1) ;;
      b <- lift (py_int p2) ;;
      if negb ((0 <=? r) && (r <? 256) && (0 <=? g) && (g <? 256)
               && (0 <=? b) && (b <? 256))
      then Return (false, [Lit (py "Crayon ("); IntArg r; Lit (py ", ");
                           IntArg g; Lit (py ", "); IntArg b;
                           Lit (py ") out of range")])
      else
        avail <- lift (count_get (count st) r g b) ;;
        if avail <=? 0
        then Return (false, [Lit (py "Crayon ("); IntArg r; Lit (py ", ");
                             IntArg g; Lit (py ", "); IntArg b;
                             Lit (py ") not available (not in input or already used)")])
        else
          c' <- lift (count_add (count st) r g b (-1)) ;;
          Next (mkState c'
                  (Z.min (min_r st) r) (Z.min (min_g st) g) (Z.min (min_b st) b)
                  (Z.max (max_r st) r) (Z.max (max_g st) g) (Z.max (max_b st) b))
  | _ => Return (false, [Lit (py "Invalid crayon format on line "); IntArg (i + 1)])
  end.

Definition body (input_data expected : pystr) (actual : pyval) : ctl unit :=
  let input_lines := split_nl (strip input_data) in
  let expected_lines := split_nl (strip expected) in
  actual_s <- lift (attr_strip actual) ;;
  let actual_lines := split_nl actual_s in
  line0 <- lift (py_index input_lines 0) ;;
  ' (n, k) <- lift (unpack2_int (split_ws line0)) ;;
  c <- for_range (Z.to_nat n) 1 (load_crayon input_lines) cells_zero ;;
  e0 <- lift (py_index expected_lines 0) ;;
  expected_colorfulness <- lift (py_int (strip e0)) ;;
  return_if (Z.of_nat (length actual_lines) <? 1)
    (false, [Lit (py "No output")]) ;;;
  a0 <- lift (py_index actual_lines 0) ;;
  actual_colorfulness <-
    try_except is_ValueError (lift (py_int (strip a0)))
      (fun _ => Return (false, [Lit (py "Invalid colorfulness: "); StrArg a0])) ;;
  return_if (negb (actual_colorfulness =? expected_colorfulness))
    (false, [Lit (py "Colorfulness mismatch: expected ");
             IntArg expected_colorfulness; Lit (py ", got ");
             IntArg actual_colorfulness]) ;;;
  return_if (Z.of_nat (length actual_lines) <? k + 1)
    (false, [Lit (py "Expected "); IntArg k; Lit (py " crayons, got ");
             IntArg (Z.of_nat (length actual_lines) - 1)]) ;;;
  st <- for_range (Z.to_nat k) 1 (use_crayon actual_lines) (init_state c) ;;
  let computed_colorfulness :=
    Z.max (Z.max (max_r st - min_r st) (max_g st - min_g st))
          (max_b st - min_b st) in
  return_if (negb (computed_colorfulness =? actual_colorfulness))
    (false, [Lit (py "Computed colorfulness is "); IntArg computed_colorfulness;
             Lit (py ", but claimed "); IntArg actual_colorfulness]) ;;;
  Return (true, [Lit (py "OK")]).

End Pastele.

Definition checker_pastele : CheckerFunc :=
  fun problem_id input_data expected actual =>
    checker_error_guard (Pastele.body input_data expected actual).

(** *** The REZ checker *)

Module Rez.

Definition cut : Type := (Z * Z * Z * Z)%type.

Definition on_boundary (x y : Z) : bool :=
  Z.max (Z.abs x) (Z.abs y) =? 5000.

(** The [float] 1e-10 as an exact rational: 0x1.b7cdfd9d7bdbbp-34. *)
Definition denom_tol_num : Z := 7737125245533627.
Definition denom_tol_log2_den : Z := 86.

(** [abs(denom) < 1e-10] for an [int] [denom]: Python compares an [int]
    with a [float] exactly. *)
Definition near_zero (denom : Z) : bool :=
  Z.abs denom * 2 ^ denom_tol_log2_den <? denom_tol_num.

(** [line_intersection]: the crossing point of the two supporting lines,
    when it lies strictly inside the cake. *)
Definition line_intersection (cut1 cut2 : cut) : option (float * float) :=
  let '(x1, y1, x2, y2) := cut1 in
  let '(x3, y3, x4, y4) := cut2 in
  let denom := (x1 - x2) * (y3 - y4) - (y1 - y2) * (x3 - x4) in
  if near_zero denom then None
  else
    let t := (Z_to_float ((x1 - x3) * (y3 - y4) - (y1 - y3) * (x3 - x4))
              / Z_to_float denom)%float in
    let px := (Z_to_float x1 + t * Z_to_float (x2 - x1))%float in
    let py := (Z_to_float y1 + t * Z_to_float (y2 - y1))%float in
    if ((-5000 <? px) && (px <? 5000) && (-5000 <? py) && (py <? 5000))%float
    then Some (px, py)
    else None.

Definition crosses (c1 c2 : cut) : bool :=
  match line_intersection c1 c2 with Some _ => true | None => false end.

(** The double loop over [i < j]. *)
Fixpoint count_intersections (cuts : list cut) : Z :=
  match cuts with
  | [] => 0
  | c :: rest =>
      Z.of_nat (length (filter (crosses c) rest)) + count_intersections rest
  end.

Definition is_Value_or_IndexError (e : exn) : bool :=
  is_ValueError e || is_IndexError e.

(** The body of the loop parsing the cuts. *)
Definition parse_cut (actual_lines : list pystr) (i : Z) (cuts : list cut)
    : ctl (list cut) :=
  try_except is_Value_or_IndexError
    (line <- lift (py_index actual_lines i) ;;
     match split_ws (strip line) with
     | [p0; p1; p2; p3] =>
         x1 <- lift (py_int p0) ;;
         y1 <- lift (py_int p1) ;;
         x2 <- lift (py_int p2) ;;
         y2 <- lift (py_int p3) ;;
         Next (cuts ++ [(x1, y1, x2, y2)])
     | _ => Return (false, [Lit (py "Invalid cut format on line "); IntArg (i + 1)])
     end)
    (fun _ => Return (false, [Lit (py "Invalid cut on line "); IntArg (i + 1)])).

(** The loop validating the end points, [i] counting from 0. *)
Fixpoint check_boundary (i : Z) (cuts : list cut) : ctl unit :=
  match cuts with
  | [] => Next tt
  | (x1, y1, x2, y2) :: rest =>
      if negb (on_boundary x1 y1)
      then Return (false, [Lit (py "Cut "); IntArg (i + 1); Lit (py " endpoint (");
                           IntArg x1; Lit (py ", "); IntArg y1;
                           Lit (py ") not on boundary")])
      else if negb (on_boundary x2 y2)
      then Return (false, [Lit (py "Cut "); IntArg (i + 1); Lit (py " endpoint (");
                           IntArg x2; Lit (py ", "); IntArg y2;
                           Lit (py ") not on boundary")])
      else check_boundary (i + 1) rest
  end.

Definition body (input_data expected : pystr) (actual : pyval) : ctl unit :=
  k <- lift (py_int (strip input_data)) ;;
  let expected_lines := split_nl (strip expected) in
  actual_s <- lift (attr_strip actual) ;;
  let actual_lines := split_nl actual_s in
  e0 <- lift (py_index expected_lines 0) ;;
  expected_n <- lift (py_int (strip e0)) ;;
  return_if (Z.of_nat (length actual_lines) <? 1)
    (false, [Lit (py "No output")]) ;;;
  a0 <- lift (py_index actual_lines 0) ;;
  actual_n <-
    try_except is_ValueError (lift (py_int (strip a0)))
      (fun _ => Return (false, [Lit (py "Invalid N: "); StrArg a0])) ;;
  return_if (negb (actual_n =? expected_n))
    (false, [Lit (py "N mismatch: expected "); IntArg expected_n;
             Lit (py ", got "); IntArg actual_n]) ;;;
  return_if (Z.of_nat (length actual_lines) <? actual_n + 1)
    (false, [Lit (py "Expected "); IntArg actual_n; Lit (py " cuts, got ");
             IntArg (Z.of_nat (length actual_lines) - 1)]) ;;;
  cuts <- for_range (Z.to_nat actual_n) 1 (parse_cut actual_lines) [] ;;
  check_boundary 0 cuts ;;;
  let intersections := count_intersections cuts in
  let pieces := 1 + actual_n + intersections in
  return_if (pieces <? k)
    (false, [Lit (py "Cuts create only "); IntArg pieces;
             Lit (py " pieces, need at least "); IntArg k]) ;;;
  Return (true, [Lit (py "OK")]).

End Rez.

Definition checker_rez : CheckerFunc :=
  fun problem_id input_data expected actual =>
    checker_error_guard (Rez.body input_data expected actual).

(** *** The KOLEKCIJA checker *)

Module Kolekcija.

Definition interval : Type := (Z * Z)%type.

(** Tuple comparison [x <= y]: lexicographic. *)
Definition tuple_leb (x y : interval) : bool :=
  (fst x <? fst y) || ((fst x =? fst y) && (snd x <=? snd y)).

Fixpoint insert_sorted (x : interval) (l : list interval) : list interval :=
  match l with
  | [] => [x]
  | y :: t => if tuple_leb x y then x :: l else y :: insert_sorted x t
  end.

(** [sorted(intervals)]: the order on pairs of integers is total and
    antisymmetric, so the sorted list does not depend on the algorithm. *)
Definition sorted (l : list interval) : list interval :=
  fold_right insert_sorted [] l.

(** One iteration of the merging loop; the state is
    [(merged, curr_start, curr_end)]. *)
Definition merge_step (st : list interval * Z * Z) (iv : interval)
    : list interval * Z * Z :=
  let '(merged, curr_start, curr_end) := st in
  let '(start, end_) := iv in
  if start <=? curr_end + 1
  then (merged, curr_start, Z.max curr_end end_)
  else (merged ++ [(curr_start, curr_end)], start, end_).

Definition sum_lengths (merged : list interval) : Z :=
  fold_left (fun acc iv => acc + (snd iv - fst iv + 1)) merged 0.

Definition _count_distinct_in_intervals (intervals : list interval) : Z :=
  match intervals with
  | [] => 0
  | _ =>
      match sorted intervals with
      | [] => 0
      | (curr_start, curr_end) :: rest =>
          let '(merged, curr_start, curr_end) :=
            fold_left merge_step rest ([], curr_start, curr_end) in
          sum_lengths (merged ++ [(curr_start, curr_end)])
      end
  end.

Definition is_Value_or_IndexError (e : exn) : bool :=
  is_ValueError e || is_IndexError e.

Definition read_song (input_lines : list pystr) (i : Z) (songs : list Z)
    : ctl (list Z) :=
  line <- lift (py_index input_lines i) ;;
  s <- lift (py_int (strip line)) ;;
  Next (songs ++ [s]).

Definition parse_interval (actual_lines : list pystr) (i : Z)
    (intervals : list interval) : ctl (list interval) :=
  try_except is_Value_or_IndexError
    (line <- lift (py_index actual_lines i) ;;
     match split_ws (strip line) with
     | [p0; p1] =>
         a <- lift (py_int p0) ;;
         b <- lift (py_int p1) ;;
         Next (intervals ++ [(a, b)])
     | _ => Return (false, [Lit (py "Invalid interval format on line ");
                            IntArg (i + 1)])
     end)
    (fun _ => Return (false, [Lit (py "Invalid interval on line "); IntArg (i + 1)])).

(** The loop over [enumerate(zip(songs, intervals))]. *)
Fixpoint validate (n k : Z) (i : Z) (songs : list Z) (intervals : list interval)
    : ctl unit :=
  match songs, intervals with
  | song :: songs', (a, b) :: intervals' =>
      if negb (b - a + 1 =? k)
      then Return (false, [Lit (py "Interval "); IntArg (i + 1);
                           Lit (py " has length "); IntArg (b - a + 1);
                           Lit (py ", expected "); IntArg k])
      else if (a <? 1) || (n <? b)
      then Return (false, [Lit (py "Interval "); IntArg (i + 1); Lit (py " [");
                           IntArg a; Lit (py ", "); IntArg b;
                           Lit (py "] out of bounds [1, "); IntArg n; Lit (py "]")])
      else if negb ((a <=? song) && (song <=? b))
      then Return (false, [Lit (py "Song "); IntArg song;
                           Lit (py " not in interval ["); IntArg a; Lit (py ", ");
                           IntArg b; Lit (py "]")])
      else validate n k (i + 1) songs' intervals'
  | _, _ => Next tt
  end.

Definition body (input_data expected : pystr) (actual : pyval) : ctl unit :=
  let input_lines := split_nl (strip input_data) in
  let expected_lines := split_nl (strip expected) in
  actual_s <- lift (attr_strip actual) ;;
  let actual_lines := split_nl actual_s in
  line0 <- lift (py_index input_lines 0) ;;
  let first_line := split_ws line0 in
  t0 <- lift (py_index first_line 0) ;;
  n <- lift (py_int t0) ;;
  t1 <- lift (py_index first_line 1) ;;
  k <- lift (py_int t1) ;;
  line1 <- lift (py_index input_lines 1) ;;
  m <- lift (py_int (strip line1)) ;;
  songs <- for_range (Z.to_nat m) 2 (read_song input_lines) [] ;;
  e0 <- lift (py_index expected_lines 0) ;;
  expected_accesses <- lift (py_int (strip e0)) ;;
  return_if (Z.of_nat (length actual_lines) <? 1)
    (false, [Lit (py "No output")]) ;;;
  a0 <- lift (py_index actual_lines 0) ;;
  actual_accesses <-
    try_except is_ValueError (lift (py_int (strip a0)))
      (fun _ => Return (false, [Lit (py "Invalid disk accesses: "); StrArg a0])) ;;
  return_if (negb (actual_accesses =? expected_accesses))
    (false, [Lit (py "Disk accesses mismatch: expected ");
             IntArg expected_accesses; Lit (py ", got "); IntArg actual_accesses]) ;;;
  return_if (Z.of_nat (length actual_lines) <? m + 1)
    (false, [Lit (py "Expected "); IntArg m; Lit (py " intervals, got ");
             IntArg (Z.of_nat (length actual_lines) - 1)]) ;;;
  intervals <- for_range (Z.to_nat m) 1 (parse_interval actual_lines) [] ;;
  validate n k 0 songs intervals ;;;
  let distinct_count := _count_distinct_in_intervals intervals in
  return_if (negb (distinct_count =? actual_accesses))
    (false, [Lit (py "Actual disk accesses should be "); IntArg distinct_count;
             Lit (py ", claimed "); IntArg actual_accesses]) ;;;
  Return (true, [Lit (py "OK")]).

End Kolekcija.

Definition checker_kolekcija : CheckerFunc :=
  fun problem_id input_data expected actual =>
    checker_error_guard (Kolekcija.body input_data expected actual).

(** *** The default checker and the registry *)

Section DefaultChecker.

(** [float(t)] for a token [t]; [None] stands for [ValueError]. *)
Variable py_float : pystr -> option float.

Fixpoint parse_float_tokens (tokens : list pystr) : option (list float) :=
  match tokens with
  | [] => Some []
  | t :: rest =>
      match py_float t with
      | Some f =>
          match parse_float_tokens rest with
          | Some fs => Some (f :: fs)
          | None => None
          end
      | None => None
      end
  end.

Definition _parse_floats (s : pystr) : option (list float) :=
  parse_float_tokens (split_ws s).

Definition _floats_equal (a b : float) : bool :=
  isclose a b 1e-6%float 1e-9%float.

(** The loop over [enumerate(zip(exp_floats, act_floats))]. *)
Fixpoint compare_tokens (i j : Z) (exp_floats act_floats : list float)
    : ctl unit :=
  match exp_floats, act_floats with
  | e :: es, a :: acts =>
      if negb (_floats_equal e a)
      then Return (false, [Lit (py "Line "); IntArg (i + 1); Lit (py ", token ");
                           IntArg (j + 1); Lit (py ": expected "); FloatArg e;
                           Lit (py ", got "); FloatArg a])
      else compare_tokens i (j + 1) es acts
  | _, _ => Next tt
  end.

Definition compare_text (i : Z) (exp_line act_line : pystr) : ctl unit :=
  return_if (negb (pystr_eqb exp_line act_line))
    (false, [Lit (py "Line "); IntArg (i + 1); Lit (py ": expected '");
             StrArg exp_line; Lit (py "', got '"); StrArg act_line;
             Lit (py "'")]).

Definition compare_line (i : Z) (exp_line act_line : pystr) : ctl unit :=
  let exp_line := strip exp_line in
  let act_line := strip act_line in
  match _parse_floats exp_line, _parse_floats act_line with
  | Some exp_floats, Some act_floats =>
      if (length exp_floats =? length act_floats)%nat
      then compare_tokens i 0 exp_floats act_floats
      else compare_text i exp_line act_line
  | _, _ => compare_text i exp_line act_line
  end.

(** The loop over [enumerate(zip(expected_lines, actual_lines))]. *)
Fixpoint compare_lines (i : Z) (expected_lines actual_lines : list pystr)
    : ctl unit :=
  match expected_lines, actual_lines with
  | exp_line :: es, act_line :: acts =>
      compare_line i exp_line act_line ;;; compare_lines (i + 1) es acts
  | _, _ => Next tt
  end.

Definition default_checker : CheckerFunc :=
  fun problem_id input_data expected actual =>
    let expected_lines := split_nl (strip expected) in
    rbind (attr_strip actual) (fun actual_s =>
    let actual_lines := split_nl actual_s in
    if negb (length expected_lines =? length actual_lines)%nat
    then Ok (false, [Lit (py "Line count mismatch: expected ");
                     IntArg (Z.of_nat (length expected_lines));
                     Lit (py ", got "); IntArg (Z.of_nat (length actual_lines))])
    else run_body (compare_lines 0 expected_lines actual_lines ;;;
                   Return (true, [Lit (py "OK")]))).

Definition CHECKER_REGISTRY : list (pystr * CheckerFunc) :=
  [ (py "pastele", checker_pastele);
    (py "rez", checker_rez);
    (py "kolekcija", checker_kolekcija) ].

Definition get_checker (problem_id : pystr) : CheckerFunc :=
  dict_get CHECKER_REGISTRY problem_id default_checker.

End DefaultChecker.

(** ** Verdict service ([hud_controller/grading_server.py]) *)

Module GradingServer.

(** [normalize_output]: CRLF to LF, every line right-trimmed, trailing
    empty lines removed. *)
Definition normalize_output (output : pystr) : pystr :=
  let lines := split_nl (replace_crlf output) in
  let lines := map rstrip lines in
  let lines := drop_end is_empty lines in
  join_nl lines.

(** A file of the protected tree as one request sees it. *)
Inductive file : Type :=
| Missing
| Readable (content : pystr)
| Unreadable (e : exn).

Definition exists_ (f : file) : bool :=
  match f with Missing => false | _ => true end.

Definition read_text (f : file) : result pystr :=
  match f with
  | Readable content => Ok content
  | Unreadable e => Raise e
  | Missing => Raise (OtherError (py "No such file or directory"))
  end.

(** The protected tree: [INPUTS_DIR / problem_id / f"{test_id}.txt"] and
    [OUTPUTS_DIR / problem_id / f"{test_id}.txt"], addressed by the values
    the request carries. *)
Record files : Type := mkFiles {
  input_file : pystr -> json -> file;
  output_file : pystr -> json -> file
}.

(** The JSON reply and its HTTP status. *)
Record response : Type := mkResponse {
  status_code : Z;
  verdict : pystr;
  passed : bool;
  message : message
}.

Definition wa (code : Z) (m : Py.message) : response :=
  mkResponse code (py "WA") false m.

Section Grade.

Variable get_checker : pystr -> CheckerFunc.
Variable fs : files.

(** The part of [grade] after the request fields have been read. *)
Definition grade_test (problem_id : pystr) (test_id actual_output : json)
    : response :=
  let input_file := input_file fs problem_id test_id in
  let output_file := output_file fs problem_id test_id in
  if negb (exists_ input_file)
  then wa 404 [Lit (py "Test case '"); ValArg test_id;
               Lit (py "' not found for problem '"); StrArg problem_id;
               Lit (py "'")]
  else if negb (exists_ output_file)
  then wa 404 [Lit (py "Expected output not found for test '"); ValArg test_id;
               Lit (py "'")]
  else
    match rbind (read_text input_file) (fun i =>
          rbind (read_text output_file) (fun o => Ok (i, o))) with
    | Raise _ => wa 500 [Lit (py "Internal error reading test data")]
    | Ok (input_data, expected_output) =>
        let checker := get_checker problem_id in
        match checker problem_id input_data expected_output actual_output with
        | Raise e => wa 200 [Lit (py "Checker error: "); ExnArg e]
        | Ok (passed, message) =>
            let verdict := if passed then py "AC" else py "WA" in
            mkResponse 200 verdict passed message
        end
    end.

(** [grade]; [body] is what [request.get_json()] gives: a decoded value, or
    an exception for a body that is not JSON. *)
Definition grade (body : result json) : response :=
  let internal := wa 500 [Lit (py "Internal server error")] in
  match body with
  | Raise _ => internal
  | Ok data =>
      if negb (truthy data)
      then wa 400 [Lit (py "No JSON body provided")]
      else
        match json_get data (py "problem_id") JNull,
              json_get data (py "test_id") JNull,
              json_get data (py "actual_output") (JStr []) with
        | Ok problem_id, Ok test_id, Ok actual_output =>
            if negb (truthy problem_id)
            then wa 400 [Lit (py "Missing problem_id")]
            else if negb (truthy test_id)
            then wa 400 [Lit (py "Missing test_id")]
            else
              match problem_id with
              | JStr pid => grade_test pid test_id actual_output
              | _ => internal  (* [INPUTS_DIR / problem_id] is a TypeError *)
              end
        | _, _, _ => internal
        end
  end.

End Grade.

End GradingServer.

(** ** Grading runner ([hud_controller/oi_grading_runner.py]) *)

Module TestResult.
Record t : Type := mk {
  test_id : pystr;
  passed : bool;
  status : pystr;
  time_ms : float;
  stdout : pystr;
  stderr : message;
  message : message
}.
End TestResult.

Module GradingResult.
Record t : Type := mk {
  score : float;
  passed : Z;
  total : Z;
  language : pystr;
  test_results : list TestResult.t;
  compilation_error : option pystr
}.
End GradingResult.

Module Runner.

(** [OIGradingRunner._normalize_output]: the same text as
    [normalize_output] of the verdict service. *)
Definition _normalize_output (output : pystr) : pystr :=
  let lines := split_nl (replace_crlf output) in
  let lines := map rstrip lines in
  let lines := drop_end is_empty lines in
  join_nl lines.

(** What [subprocess.run] did with the candidate program: it completed, the
    time limit expired, or starting it (or opening the input) raised. *)
Inductive proc_outcome : Type :=
| Completed (returncode : Z) (out err : pystr) (elapsed_ms : float)
| TimeoutExpired
| SpawnFailed (e : exn).

(** What [requests.post] did: it raised, or a reply came back with a status
    code, a content-type header and a body that [response.json()] decodes
    or fails on. *)
Inductive http_reply : Type :=
| PostRaised (e : exn)
| Reply (status_code : Z) (content_type : option pystr) (json_body : result json).

(** What [requests.get] on [/list_tests] did.  A 200 reply is a JSON object
    whose ["tests"] entry, when present, is a list of strings. *)
Inductive list_reply : Type :=
| ListRaised
| ListReply (status_code : Z) (tests : option (list pystr)).

(** What the compiler run did. *)
Inductive compile_outcome : Type :=
| CompileExit (returncode : Z) (err : pystr)
| CompileTimeout
| CompileRaised (text : pystr).

(** The surroundings of one test case. *)
Record test_env : Type := mkTestEnv {
  input_exists : bool;
  run : list pystr -> proc_outcome;
  post_grade : pystr -> http_reply
}.

(** The surroundings of one grading pass; [tests] is indexed by the
    position of the test case in the pass. *)
Record world : Type := mkWorld {
  cpp_exists : bool;
  py_exists : bool;
  compiler : compile_outcome;
  list_tests : list_reply;
  local_tests : list pystr;
  tests : nat -> pystr -> test_env
}.

Definition path_join (dir name : pystr) : pystr := dir ++ py "/" ++ name.

Section Runner.

Variable problem_id : pystr.
Variable time_limit_seconds : Z.
Variable workdir : pystr.
Variable problems_dir : pystr.

Definition input_dir : pystr :=
  path_join (path_join problems_dir problem_id) (py "input").

Definition _detect_solution (w : world) : option pystr * pystr :=
  let cpp_path := path_join workdir (problem_id ++ py ".cpp") in
  let py_path := path_join workdir (problem_id ++ py ".py") in
  if cpp_exists w then (Some cpp_path, py "cpp")
  else if py_exists w then (Some py_path, py "python")
  else (None, []).

Definition _compile_cpp (w : world) : bool * pystr :=
  match compiler w with
  | CompileExit returncode err =>
      if negb (returncode =? 0) then (false, err) else (true, [])
  | CompileTimeout => (false, py "Compilation timed out (>60s)")
  | CompileRaised text => (false, text)
  end.

Definition _get_test_cases_from_api (w : world) : list pystr :=
  match list_tests w with
  | ListReply status_code tests =>
      if status_code =? 200
      then match tests with Some l => l | None => [] end
      else []
  | ListRaised => []
  end.

(** The directory scan, sorted; taken as observed. *)
Definition _get_test_cases_local (w : world) : list pystr := local_tests w.

Definition _get_test_cases (w : world) : list pystr :=
  let test_cases := _get_test_cases_from_api w in
  match test_cases with
  | _ :: _ => test_cases
  | [] => _get_test_cases_local w
  end.

Definition json_find (data : json) (key : pystr) : result (option json) :=
  match data with
  | JObj fields =>
      Ok (dict_get (map (fun kv => (fst kv, Some (snd kv))) fields) key None)
  | other => Raise (NoAttribute (type_name other) (py "get"))
  end.

Definition _grade_via_api (reply : http_reply) : result (json * message) :=
  let attempt : result (json * message) :=
    match reply with
    | PostRaised e => Raise e
    | Reply status_code content_type json_body =>
        if status_code =? 200
        then
          rbind json_body (fun data =>
          rbind (json_get data (py "passed") (JBool false)) (fun p =>
          rbind (json_get data (py "message") (JStr [])) (fun m =>
          Ok (p, [ValArg m]))))
        else
          let data :=
            match content_type with
            | Some ct =>
                if pystr_eqb ct (py "application/json") then json_body
                else Ok (JObj [])
            | None => Ok (JObj [])
            end in
          rbind data (fun data =>
          rbind (json_find data (py "message")) (fun m =>
          match m with
          | Some v => Ok (JBool false, [ValArg v])
          | None => Ok (JBool false, [Lit (py "API error: "); IntArg status_code])
          end))
    end in
  match attempt with
  | Raise e =>
      if is_RequestException e
      then Ok (JBool false, [Lit (py "Grading server error: "); ExnArg e])
      else Raise e
  | ok => ok
  end.

Definition _run_test_case (env : test_env) (test_id executable language : pystr)
    : TestResult.t :=
  let input_file := path_join input_dir (test_id ++ py ".txt") in
  if negb (input_exists env)
  then TestResult.mk test_id false (py "RE") 0 []
         [Lit (py "Input file not found: "); StrArg input_file]
         [Lit (py "Input file not found")]
  else
    let cmd :=
      if pystr_eqb language (py "cpp") then [executable]
      else [py "python3"; executable] in
    let on_exception (e : exn) :=
      TestResult.mk test_id false (py "RE") 0 [] [ExnArg e] [ExnArg e] in
    match run env cmd with
    | TimeoutExpired =>
        TestResult.mk test_id false (py "TLE")
          (Z_to_float (time_limit_seconds * 1000)) []
          [Lit (py "Time limit exceeded ("); IntArg time_limit_seconds;
           Lit (py "s)")]
          [Lit (py "Time limit exceeded")]
    | SpawnFailed e => on_exception e
    | Completed returncode out err time_ms =>
        if negb (returncode =? 0)
        then TestResult.mk test_id false (py "RE") time_ms out [StrArg err]
               [Lit (py "Runtime error (exit code "); IntArg returncode;
                Lit (py ")")]
        else
          let actual_output := _normalize_output out in
          match _grade_via_api (post_grade env actual_output) with
          | Raise e => on_exception e
          | Ok (passed, message) =>
              if truthy passed
              then TestResult.mk test_id true (py "AC") time_ms out
                     [StrArg err] message
              else TestResult.mk test_id false (py "WA") time_ms out
                     [StrArg err] message
          end
    end.

(** The loop over the test cases: [(test_results, passed)] after it. *)
Fixpoint run_tests (w : world) (executable language : pystr) (pos : nat)
    (test_cases : list pystr) (test_results : list TestResult.t) (passed : Z)
    : list TestResult.t * Z :=
  match test_cases with
  | [] => (test_results, passed)
  | test_id :: rest =>
      let result := _run_test_case (tests w pos test_id) test_id executable language in
      run_tests w executable language (S pos) rest (test_results ++ [result])
        (if TestResult.passed result then passed + 1 else passed)
  end.

(** [run_grading] from [# Get test cases] on. *)
Definition grade_test_cases (w : world) (executable language : pystr)
    : GradingResult.t :=
  let test_cases := _get_test_cases w in
  match test_cases with
  | [] =>
      GradingResult.mk 0 0 0 language []
        (Some (py "No test cases found for problem " ++ problem_id))
  | _ =>
      let '(test_results, passed) :=
        run_tests w executable language 0 test_cases [] 0 in
      let total := Z.of_nat (length test_cases) in
      let score :=
        if 0 <? total then (Z_to_float passed / Z_to_float total)%float
        else 0%float in
      GradingResult.mk score passed total language test_results None
  end.

Definition run_grading (w : world) : GradingResult.t :=
  match _detect_solution w with
  | (None, _) =>
      GradingResult.mk 0 0 0 (py "unknown") []
        (Some (py "No solution file found. Expected " ++ problem_id
               ++ py ".cpp or " ++ problem_id ++ py ".py in " ++ workdir))
  | (Some solution_path, language) =>
      if pystr_eqb language (py "cpp")
      then
        let '(success, error) := _compile_cpp w in
        if negb success
        then GradingResult.mk 0 0 0 language [] (Some error)
        else grade_test_cases w (path_join workdir problem_id) language
      else grade_test_cases w solution_path language
  end.

End Runner.

End Runner.

(** ** Listing the test cases

    [list_tests] of the verdict service and [_get_test_cases_local] of the
    runner scan a directory with the same text: keep the stems of the
    entries whose suffix is ".txt", then sort them. *)

Module TestListing.

(** A directory entry as [pathlib] shows it: [f.suffix] and [f.stem]. *)
Record entry : Type := mkEntry { suffix : pystr; stem : pystr }.

(** A directory: missing, or the entries in the order [iterdir] gives. *)
Inductive directory : Type :=
| NoDirectory
| Directory (entries : list entry).

(** [str.isdigit] on the code points below 256: the decimal digits and the
    superscripts two, three and one (178, 179, 185), which [int] refuses. *)
Definition is_digit_char (c : ascii) : bool :=
  let n := nat_of_ascii c in
  (((48 <=? n) && (n <=? 57)) || (n =? 178) || (n =? 179) || (n =? 185))%nat.

Definition isdigit (s : pystr) : bool :=
  negb (is_empty s) && forallb is_digit_char s.

(** [a < b] on [str]: lexicographic on the code points. *)
Fixpoint str_ltb (a b : pystr) : bool :=
  match a, b with
  | _, [] => false
  | [], _ :: _ => true
  | x :: a', y :: b' =>
      ((nat_of_ascii x <? nat_of_ascii y)
       || ((nat_of_ascii x =? nat_of_ascii y) && str_ltb a' b'))%nat
  end.

(** The sort keys [(0, int(x))] and [(1, x)]. *)
Inductive sort_key : Type :=
| NumKey (z : Z)
| TextKey (s : pystr).

(** [a < b] on the keys, as tuples compare. *)
Definition key_ltb (a b : sort_key) : bool :=
  match a, b with
  | NumKey x, NumKey y => (x <? y)%Z
  | NumKey _, TextKey _ => true
  | TextKey _, NumKey _ => false
  | TextKey s, TextKey t => str_ltb s t
  end.

(** [lambda x: (0, int(x)) if x.isdigit() else (1, x)]. *)
Definition sort_key_of (x : pystr) : result sort_key :=
  if isdigit x then rbind (py_int x) (fun z => Ok (NumKey z))
  else Ok (TextKey x).

(** [list.sort] is stable and uses [<] only; a stable sort has one result,
    here computed by insertion. *)
Fixpoint insert_by {A} (ltb : A -> A -> bool) (x : A) (l : list A) : list A :=
  match l with
  | [] => [x]
  | y :: t => if ltb y x then y :: insert_by ltb x t else x :: l
  end.

Definition sort_by {A} (ltb : A -> A -> bool) (l : list A) : list A :=
  fold_right (insert_by ltb) [] l.

(** The keys of all the elements, computed before any element is moved. *)
Fixpoint keyed (tests : list pystr) : result (list (sort_key * pystr)) :=
  match tests with
  | [] => Ok []
  | x :: rest =>
      rbind (sort_key_of x) (fun k =>
      rbind (keyed rest) (fun ks => Ok ((k, x) :: ks)))
  end.

(** [try: tests.sort(key=...)  except ValueError: tests.sort()]. *)
Definition sort_tests (tests : list pystr) : result (list pystr) :=
  match keyed tests with
  | Ok ks => Ok (map snd (sort_by (fun a b => key_ltb (fst a) (fst b)) ks))
  | Raise e =>
      if is_ValueError e then Ok (sort_by str_ltb tests) else Raise e
  end.

(** The loop over [iterdir()]. *)
Definition txt_stems (entries : list entry) : list pystr :=
  map stem (filter (fun f => pystr_eqb (suffix f) (py ".txt")) entries).

(** [list_tests]: the status and the JSON body of the reply. *)
Definition list_tests (input_dir : directory) (problem_id : pystr)
    : result (Z * json) :=
  match input_dir with
  | NoDirectory =>
      Ok (404%Z, JObj [(py "error",
                        JStr (py "Problem '" ++ problem_id ++ py "' not found"))])
  | Directory entries =>
      rbind (sort_tests (txt_stems entries)) (fun tests =>
      Ok (200%Z, JObj [ (py "problem_id", JStr problem_id);
                        (py "tests", JArr (map JStr tests));
                        (py "count", JInt (Z.of_nat (length tests))) ]))
  end.

(** [_get_test_cases_local], from the directory it scans. *)
Definition _get_test_cases_local (input_dir : directory) : result (list pystr) :=
  match input_dir with
  | NoDirectory => Ok []
  | Directory entries => sort_tests (txt_stems entries)
  end.

End TestListing.

(** ** Vocabulary of the statements *)

(** A string with no trailing whitespace. *)
Definition rstripped (l : pystr) : Prop := rstrip l = l.

Definition no_nl (l : pystr) : Prop := Forall (fun c => c <> LF) l.

(** The lines kept by the normalizer. *)
Definition kept_lines (s : pystr) : list pystr :=
  drop_end is_empty (map rstrip (split_nl (replace_crlf s))).


(** The grading request failed: [requests.post] raised (connection error,
    timeout), or the reply does not have status 200. *)
Definition request_failed (reply : Runner.http_reply) : Prop :=
  match reply with
  | Runner.PostRaised _ => True
  | Runner.Reply status_code _ _ => status_code <> 200
  end.

(** The grading pass ends before any test case is run: no solution file,
    a failed compilation of a C++ solution, or no test case found. *)
Definition solution_missing (w : Runner.world) : bool :=
  negb (Runner.cpp_exists w) && negb (Runner.py_exists w).

Definition compile_failed (w : Runner.world) : bool :=
  Runner.cpp_exists w && negb (fst (Runner._compile_cpp w)).

Definition no_test_cases (w : Runner.world) : bool :=
  match Runner._get_test_cases w with [] => true | _ => false end.

Definition ends_early (w : Runner.world) : bool :=
  solution_missing w || compile_failed w || no_test_cases w.

(** Number of passed results. *)
Definition count_passed (rs : list TestResult.t) : Z :=
  Z.of_nat (length (filter TestResult.passed rs)).

(** [p] holds of every pair of corresponding elements of two lists of the
    same length. *)
Fixpoint all2 {A B} (p : A -> B -> bool) (l1 : list A) (l2 : list B) : bool :=
  match l1, l2 with
  | [], [] => true
  | x :: t, y :: u => p x y && all2 p t u
  | _, _ => false
  end.

(** The tolerance of [math.isclose] with [rel_tol=1e-6] and [abs_tol=1e-9],
    written out for an expected value [e] and an actual value [a]: equal, or
    both finite and [|a-e|] at most [1e-6*|a|], [1e-6*|e|] or [1e-9]. *)
Definition within_tolerance (e a : float) : bool :=
  (e =? a)%float
  || (negb (is_inf e) && negb (is_inf a)
      && ((abs (a - e) <=? abs (1e-6 * a))%float
          || (abs (a - e) <=? abs (1e-6 * e))%float
          || (abs (a - e) <=? 1e-9)%float)).

(** The tolerance as the specification states it, for an actual value [a]
    and an expected value [b]: [|a-b| <= max(1e-9, 1e-6*|b|)]. *)
Definition float_max (x y : float) : float := if (x <? y)%float then y else x.

Definition stated_tolerance (a b : float) : bool :=
  (abs (a - b) <=? float_max 1e-9 (1e-6 * abs b))%float.

(** A checker's verdict flag; a raised exception is no acceptance. *)
Definition accepts (r : result (bool * message)) : bool :=
  match r with Ok (b, _) => b | Raise _ => false end.

(** A computation that never returns an accepting verdict. *)
Definition rejecting {A} (c : ctl A) : Prop :=
  forall m, c <> Return (true, m).

(** [int(s)] as a partial function. *)
Definition int_of (s : pystr) : option Z :=
  match py_int s with Ok z => Some z | Raise _ => None end.

(** The [count] lines from position [start] on all exist and are read by
    [parse]: the values read. *)
Fixpoint read_block {A} (parse : pystr -> option A) (lines : list pystr)
    (start count : nat) : option (list A) :=
  match count with
  | O => Some []
  | S c =>
      match nth_error lines start with
      | Some line =>
          match parse line, read_block parse lines (S start) c with
          | Some x, Some xs => Some (x :: xs)
          | _, _ => None
          end
      | None => None
      end
  end.

(** The integers of the closed range [a..b]. *)
Definition zrange (a b : Z) : list Z :=
  map (fun i => a + Z.of_nat i) (seq 0 (Z.to_nat (b - a + 1))).

(** Number of distinct elements of a list of integers. *)
Definition card (l : list Z) : Z := Z.of_nat (length (nodup Z.eq_dec l)).

(** Number of distinct integers covered by the union of the windows. *)
Definition distinct_covered (windows : list (Z * Z)) : Z :=
  card (flat_map (fun w => zrange (fst w) (snd w)) windows).

(** The scalar on the first line of a text. *)
Definition parse_scalar (text : pystr) : option Z :=
  match split_nl (strip text) with
  | line0 :: _ => int_of (strip line0)
  | [] => None
  end.

Module KolekcijaSpec.

(** The input: first line "N K ..." , second line M, then M song lines. *)
Definition parse_input (input_data : pystr) : option (Z * Z * list Z) :=
  let lines := split_nl (strip input_data) in
  match lines with
  | line0 :: line1 :: _ =>
      match split_ws line0 with
      | t0 :: t1 :: _ =>
          match int_of t0, int_of t1, int_of (strip line1) with
          | Some n, Some k, Some m =>
              match read_block (fun l => int_of (strip l)) lines 2 (Z.to_nat m) with
              | Some songs => Some (n, k, songs)
              | None => None
              end
          | _, _, _ => None
          end
      | _ => None
      end
  | _ => None
  end.

(** A line "A B". *)
Definition parse_window (line : pystr) : option (Z * Z) :=
  match split_ws (strip line) with
  | [p0; p1] =>
      match int_of p0, int_of p1 with
      | Some a, Some b => Some (a, b)
      | _, _ => None
      end
  | _ => None
  end.

(** The claimed windows: the [count] lines after the first. *)
Definition parse_windows (count : nat) (actual : pystr) : option (list (Z * Z)) :=
  read_block parse_window (split_nl (strip actual)) 1 count.

(** A window is valid for a song: width [k], inside [1..n], and holding
    the song. *)
Definition valid_window (n k song : Z) (w : Z * Z) : Prop :=
  snd w - fst w + 1 = k /\ 1 <= fst w /\ snd w <= n
  /\ fst w <= song <= snd w.

End KolekcijaSpec.

(** The integers covered by a list of windows, with repetitions. *)
Definition cover (windows : list (Z * Z)) : list Z :=
  flat_map (fun w => zrange (fst w) (snd w)) windows.

Module RezSpec.

(** A line "x1 y1 x2 y2". *)
Definition parse_cut (line : pystr) : option Rez.cut :=
  match split_ws (strip line) with
  | [p0; p1; p2; p3] =>
      match int_of p0, int_of p1, int_of p2, int_of p3 with
      | Some x1, Some y1, Some x2, Some y2 => Some (x1, y1, x2, y2)
      | _, _, _, _ => None
      end
  | _ => None
  end.

(** The claimed cuts: the [count] lines after the first. *)
Definition parse_cuts (count : nat) (actual : pystr) : option (list Rez.cut) :=
  read_block parse_cut (split_nl (strip actual)) 1 count.

(** A point of the boundary of the square [-5000, 5000]^2. *)
Definition on_square_boundary (x y : Z) : Prop :=
  (Z.abs x = 5000 /\ Z.abs y <= 5000) \/ (Z.abs y = 5000 /\ Z.abs x <= 5000).

Definition cut_on_boundary (c : Rez.cut) : Prop :=
  let '(x1, y1, x2, y2) := c in
  on_square_boundary x1 y1 /\ on_square_boundary x2 y2.

End RezSpec.

Module PasteleSpec.

Definition crayon : Type := (Z * Z * Z)%type.

Definition crayon_eq_dec (a b : crayon) : {a = b} + {a <> b}.
Proof. repeat decide equality. Defined.

Definition red (c : crayon) : Z := fst (fst c).
Definition green (c : crayon) : Z := snd (fst c).
Definition blue (c : crayon) : Z := snd c.

(** Exactly three integer tokens. *)
Definition parse_tokens (tokens : list pystr) : option crayon :=
  match tokens with
  | [p0; p1; p2] =>
      match int_of p0, int_of p1, int_of p2 with
      | Some r, Some g, Some b => Some (r, g, b)
      | _, _, _ => None
      end
  | _ => None
  end.

(** The input: first line "N K", then N crayon lines: K and the crayons. *)
Definition parse_input (input_data : pystr) : option (Z * list crayon) :=
  let lines := split_nl (strip input_data) in
  match lines with
  | line0 :: _ =>
      match split_ws line0 with
      | [t0; t1] =>
          match int_of t0, int_of t1 with
          | Some n, Some k =>
              match read_block (fun l => parse_tokens (split_ws l)) lines 1
                      (Z.to_nat n) with
              | Some crayons => Some (k, crayons)
              | None => None
              end
          | _, _ => None
          end
      | _ => None
      end
  | [] => None
  end.

(** The claimed crayons: the K lines after the first. *)
Definition parse_claim (k : Z) (actual : pystr) : option (list crayon) :=
  read_block (fun l => parse_tokens (split_ws (strip l)))
    (split_nl (strip actual)) 1 (Z.to_nat k).

(** Every component in [0, 255]. *)
Definition in_domain (c : crayon) : Prop :=
  0 <= red c <= 255 /\ 0 <= green c <= 255 /\ 0 <= blue c <= 255.

(** Largest minus smallest value of a list. *)
Definition extent (l : list Z) : Z :=
  match l with
  | [] => 0
  | x :: t => fold_right Z.max x t - fold_right Z.min x t
  end.

(** The maximum per-channel extent of a set of crayons. *)
Definition colorfulness (cs : list crayon) : Z :=
  Z.max (Z.max (extent (map red cs)) (extent (map green cs)))
        (extent (map blue cs)).

(** [claimed] is drawn from the multiset [available]: no crayon is used
    more often than it is available. *)
Definition drawn_from (claimed available : list crayon) : Prop :=
  forall c, (count_occ crayon_eq_dec claimed c
             <= count_occ crayon_eq_dec available c)%nat.

End PasteleSpec.

(** A line made of whitespace only. *)
Definition blank (l : pystr) : bool := forallb is_space l.

(** A list of lines standing for a text: never empty. *)
Definition nonempty_or (ls : list pystr) : list pystr :=
  match ls with [] => [[]] | _ => ls end.

Definition head_lstrip (ls : list pystr) : list pystr :=
  match ls with [] => [[]] | l :: rest => lstrip l :: rest end.

(** The right-trimmed lines of a text, without the trailing empty ones. *)
Definition trimmed_lines (s : pystr) : list pystr :=
  drop_end is_empty (map rstrip (split_nl s)).

(** The stripped lines of a stripped text, as every checker reads them. *)
Definition stripped_lines (s : pystr) : list pystr :=
  map strip (split_nl (strip s)).

(** The protected tree with every stored expected output normalized. *)
Definition normalized_files (fs : GradingServer.files) : GradingServer.files :=
  GradingServer.mkFiles (GradingServer.input_file fs)
    (fun problem_id test_id =>
       match GradingServer.output_file fs problem_id test_id with
       | GradingServer.Readable content =>
           GradingServer.Readable (GradingServer.normalize_output content)
       | other => other
       end).

(** The reply [grade] builds from what the checker did. *)
Definition checker_reply (r : result (bool * message)) : GradingServer.response :=
  match r with
  | Raise e =>
      GradingServer.mkResponse 200 (py "WA") false
        [Lit (py "Checker error: "); ExnArg e]
  | Ok (passed, message) =>
      GradingServer.mkResponse 200 (if passed then py "AC" else py "WA")
        passed message
  end.

(** ** Concrete situations used by the worked examples *)

Module Examples.

(** A candidate that prints 42 and exits normally, while no connection to
    the verdict service can be made. *)
Definition unreachable_env : Runner.test_env :=
  Runner.mkTestEnv true
    (fun _ => Runner.Completed 0 (py "42") [] 1.5)
    (fun _ => Runner.PostRaised (RequestError (py "Connection refused"))).

(** A C++ solution whose compiler run exits with status 1 and prints
    nothing on its standard error. *)
Definition silent_compiler_world : Runner.world :=
  Runner.mkWorld true false (Runner.CompileExit 1 [])
    (Runner.ListReply 200 (Some [py "1"])) [] (fun _ _ => unreachable_env).

(** A Python solution and two test cases, with the verdict service down. *)
Definition two_tests_world : Runner.world :=
  Runner.mkWorld false true (Runner.CompileExit 0 [])
    (Runner.ListReply 200 (Some [py "1"; py "2"])) [] (fun _ _ => unreachable_env).

(** [float(t)] on plain decimal literals [[sign] digits [. digits]] of at
    most 15 digits, where the nearest double is the correctly rounded
    quotient of two exactly represented integers.  Any other token is
    refused here, although [float] accepts more (exponents, inf, nan,
    underscores, longer literals): this parser serves the worked examples
    only. *)
Fixpoint digits_value (acc : Z) (s : pystr) : option Z :=
  match s with
  | [] => Some acc
  | c :: t =>
      match digit_val c with
      | Some d => digits_value (10 * acc + d) t
      | None => None
      end
  end.

Fixpoint split_at_dot (s : pystr) : pystr * pystr :=
  match s with
  | [] => ([], [])
  | c :: t =>
      if ascii_eqb c "."%char then ([], t)
      else let '(a, b) := split_at_dot t in (c :: a, b)
  end.

Definition unsigned_decimal (s : pystr) : option float :=
  let '(int_part, frac_part) := split_at_dot s in
  let digits := int_part ++ frac_part in
  match digits with
  | [] => None
  | _ =>
      if (15 <? length digits)%nat then None
      else
        match digits_value 0 digits with
        | Some m =>
            Some (Z_to_float m / Z_to_float (10 ^ Z.of_nat (length frac_part)))%float
        | None => None
        end
  end.

Definition float_of_decimal (s : pystr) : option float :=
  match s with
  | c :: body =>
      if ascii_eqb c "-"%char
      then option_map PrimFloat.opp (unsigned_decimal body)
      else if ascii_eqb c "+"%char then unsigned_decimal body
      else unsigned_decimal s
  | [] => None
  end.

(** The protected tree with one test, [sum/1]: input "1 2", expected "3". *)
Definition sum_files : GradingServer.files :=
  GradingServer.mkFiles
    (fun pid tid =>
       if pystr_eqb pid (py "sum") then
         match tid with
         | JStr t => if pystr_eqb t (py "1") then GradingServer.Readable (py "1 2")
                     else GradingServer.Missing
         | _ => GradingServer.Missing
         end
       else GradingServer.Missing)
    (fun pid tid =>
       if pystr_eqb pid (py "sum") then
         match tid with
         | JStr t => if pystr_eqb t (py "1") then GradingServer.Readable (py "3")
                     else GradingServer.Missing
         | _ => GradingServer.Missing
         end
       else GradingServer.Missing).

(** The same tree with the expected output stored as a text file usually
    is, ending in a line break: "3\n". *)
Definition sum_files_with_newline : GradingServer.files :=
  GradingServer.mkFiles (GradingServer.input_file sum_files)
    (fun pid tid =>
       match GradingServer.output_file sum_files pid tid with
       | GradingServer.Readable content => GradingServer.Readable (content ++ [LF])
       | other => other
       end).

(** A grade request for [sum/1] carrying [actual_output]. *)
Definition sum_request (actual_output : json) : json :=
  JObj [ (py "problem_id", JStr (py "sum"));
         (py "test_id", JStr (py "1"));
         (py "actual_output", actual_output) ].

Local Open Scope string_scope.

(** The examples of the checkers: the texts, line by line. *)
Definition text (lines : list string) : pystr := join_nl (map py lines).

Definition kolekcija_input : pystr := text ["10 3"; "3"; "5"; "6"; "7"].
Definition kolekcija_expected : pystr := text ["5"].
Definition kolekcija_good : pystr := text ["5"; "4 6"; "5 7"; "6 8"].
Definition kolekcija_wrong_width : pystr := text ["5"; "4 7"; "5 7"; "6 8"].

Definition rez_input : pystr := text ["4"].
Definition rez_expected : pystr :=
  text ["2"; "-5000 0 5000 0"; "0 -5000 0 5000"].
Definition rez_good : pystr :=
  text ["2"; "-5000 -5000 5000 5000"; "-5000 5000 5000 -5000"].
Definition rez_off_boundary : pystr :=
  text ["2"; "-5000 0 4999 0"; "0 -5000 0 5000"].

Definition pastele_input : pystr :=
  text ["4 2"; "0 0 0"; "10 10 10"; "100 100 100"; "200 200 200"].
Definition pastele_expected : pystr := text ["10"; "0 0 0"; "10 10 10"].
Definition pastele_good : pystr := text ["10"; "10 10 10"; "0 0 0"].
Definition pastele_absent : pystr := text ["10"; "0 0 0"; "10 10 9"].
Definition pastele_reused : pystr := text ["0"; "0 0 0"; "0 0 0"].

End Examples.

(** ** Further vocabulary *)

(** A clean text: no line has trailing whitespace (so no CR stands before a
    line break), and the text does not end with an empty line. *)
Definition clean (s : pystr) : Prop :=
  Forall rstripped (split_nl s) /\ (s = [] \/ last (split_nl s) [] <> []).

(** The determinant of the direction vectors of two cuts; zero exactly
    when the cuts are parallel (or one of them is a single point). *)
Definition determinant (c1 c2 : Rez.cut) : Z :=
  let '(x1, y1, x2, y2) := c1 in
  let '(x3, y3, x4, y4) := c2 in
  (x1 - x2) * (y3 - y4) - (y1 - y2) * (x3 - x4).

(** The sum of the lengths [b - a + 1] of a list of windows. *)
Definition total_length (windows : list (Z * Z)) : Z :=
  fold_right (fun w acc => (snd w - fst w + 1) + acc) 0 windows.

(** A problem id with a checker of its own in the registry. *)
Definition registered (problem_id : pystr) : Prop :=
  problem_id = py "pastele" \/ problem_id = py "rez"
  \/ problem_id = py "kolekcija".

Definition is_str (v : pyval) : bool :=
  match v with JStr _ => true | _ => false end.

Section LineMatching.

Variable py_float : pystr -> option float.

(** An expected and an actual line match: numerically, token by token,
    when both parse as the same number of floats; as stripped texts
    otherwise. *)
Definition line_matches (exp_line act_line : pystr) : bool :=
  let e := strip exp_line in
  let a := strip act_line in
  match _parse_floats py_float e, _parse_floats py_float a with
  | Some es, Some acts =>
      if (length es =? length acts)%nat then all2 within_tolerance es acts
      else pystr_eqb e a
  | _, _ => pystr_eqb e a
  end.

(** No token of the text parses as a NaN (a float that differs from
    itself). *)
Definition nan_free (s : pystr) : bool :=
  forallb (fun line =>
             match _parse_floats py_float (strip line) with
             | Some fs => forallb (fun f => (f =? f)%float) fs
             | None => true
             end)
          (split_nl (strip s)).

End LineMatching.

(** The three shapes of a rejection message of the default checker. *)
Definition line_count_message (expected_count actual_count : nat) : message :=
  [Lit (py "Line count mismatch: expected "); IntArg (Z.of_nat expected_count);
   Lit (py ", got "); IntArg (Z.of_nat actual_count)].

Definition text_mismatch_message (i : nat) (exp_line act_line : pystr) : message :=
  [Lit (py "Line "); IntArg (Z.of_nat i + 1); Lit (py ": expected '");
   StrArg exp_line; Lit (py "', got '"); StrArg act_line; Lit (py "'")].

Definition token_mismatch_message (i j : nat) (e a : float) : message :=
  [Lit (py "Line "); IntArg (Z.of_nat i + 1); Lit (py ", token ");
   IntArg (Z.of_nat j + 1); Lit (py ": expected "); FloatArg e;
   Lit (py ", got "); FloatArg a].

(** [c2] goes at least as far as [c1]: where [c1] falls through with a
    value or returns an acceptance, [c2] does the same. *)
Definition carries {A} (c1 c2 : ctl A) : Prop :=
  match c1 with
  | Next a => c2 = Next a
  | Return (true, m) => c2 = Return (true, m)
  | _ => True
  end.

(** Every line of [ls] is in [ls'] at the same position, up to the
    whitespace around it. *)
Definition reads_same (ls ls' : list pystr) : Prop :=
  forall i x, nth_error ls i = Some x ->
              exists x', nth_error ls' i = Some x' /\ strip x = strip x'.

(** [int] reads every test id that [str.isdigit] takes for a number. *)
Definition ids_readable (tests : list pystr) : bool :=
  forallb (fun x => negb (TestListing.isdigit x)
                    || match int_of x with Some _ => true | None => false end)
          tests.

(** The order of the listing on numeric ids, and on the other ids. *)
Definition numeric_le (x y : pystr) : Prop :=
  exists a b, int_of x = Some a /\ int_of y = Some b /\ a <= b.

Definition text_le (x y : pystr) : Prop := TestListing.str_ltb y x = false.

(** The order of the sort keys, and of the ids paired with their keys. *)
Definition key_le (a b : TestListing.sort_key) : Prop :=
  TestListing.key_ltb b a = false.

Definition keyed_le (p q : TestListing.sort_key * pystr) : Prop :=
  key_le (fst p) (fst q).

Definition is_num_key (p : TestListing.sort_key * pystr) : bool :=
  match fst p with TestListing.NumKey _ => true | TestListing.TextKey _ => false end.

(** No two different ids of the list are numbers of the same value (as
    "1" and "01" are). *)
Definition numbers_distinct (tests : list pystr) : Prop :=
  forall x y z,
    In x tests -> In y tests ->
    TestListing.isdigit x = true -> TestListing.isdigit y = true ->
    int_of x = Some z -> int_of y = Some z -> x = y.

(** The command line [_run_test_case] runs. *)
Definition command (executable language : pystr) : list pystr :=
  if pystr_eqb language (py "cpp") then [executable]
  else [py "python3"; executable].

(** The executable [run_grading] runs: the compiled binary, or the script. *)
Definition executable_of (problem_id workdir : pystr) (w : Runner.world) : pystr :=
  if Runner.cpp_exists w then Runner.path_join workdir problem_id
  else Runner.path_join workdir (problem_id ++ py ".py").

Definition language_of (w : Runner.world) : pystr :=
  if Runner.cpp_exists w then py "cpp" else py "python".

(** One result per test case, each from its own run. *)
Fixpoint results_from (problem_id : pystr) (time_limit_seconds : Z)
    (problems_dir : pystr) (w : Runner.world) (executable language : pystr)
    (pos : nat) (test_cases : list pystr) : list TestResult.t :=
  match test_cases with
  | [] => []
  | test_id :: rest =>
      Runner._run_test_case problem_id time_limit_seconds problems_dir
        (Runner.tests w pos test_id) test_id executable language
      :: results_from problem_id time_limit_seconds problems_dir w executable
           language (S pos) rest
  end.

(** The same surroundings with another answer to "is there a Python
    solution", or with another outcome of the compiler run. *)
Definition with_py_exists (w : Runner.world) (b : bool) : Runner.world :=
  Runner.mkWorld (Runner.cpp_exists w) b (Runner.compiler w)
    (Runner.list_tests w) (Runner.local_tests w) (Runner.tests w).

Definition with_compiler (w : Runner.world) (c : Runner.compile_outcome)
    : Runner.world :=
  Runner.mkWorld (Runner.cpp_exists w) (Runner.py_exists w) c
    (Runner.list_tests w) (Runner.local_tests w) (Runner.tests w).

Section Wire.

(** The text of a message, as [jsonify] sends it. *)
Variable render : message -> pystr.

(** The JSON body of the request [_grade_via_api] posts. *)
Definition grade_request (problem_id test_id actual_output : pystr) : json :=
  JObj [ (py "problem_id", JStr problem_id);
         (py "test_id", JStr test_id);
         (py "actual_output", JStr actual_output) ].

(** The reply of [grade] as the runner receives it: the status, the JSON
    content type, and the three entries of the body. *)
Definition reply_of (r : GradingServer.response) : Runner.http_reply :=
  Runner.Reply (GradingServer.status_code r) (Some (py "application/json"))
    (Ok (JObj [ (py "verdict", JStr (GradingServer.verdict r));
                (py "passed", JBool (GradingServer.passed r));
                (py "message", JStr (render (GradingServer.message r))) ])).

(** The grade requests of a test are answered by the verdict service. *)
Definition served_by (get_checker : pystr -> CheckerFunc)
    (fs : GradingServer.files) (problem_id test_id : pystr)
    (env : Runner.test_env) : Prop :=
  forall out,
    Runner.post_grade env out
    = reply_of (GradingServer.grade get_checker fs
                  (Ok (grade_request problem_id test_id out))).

End Wire.

(** ** Further situations used by the worked examples *)

Module MoreExamples.

(** A rendering of messages good enough for an example: the literal and
    string pieces, in order. *)
Fixpoint literal_text (m : message) : pystr :=
  match m with
  | [] => []
  | Lit s :: rest => s ++ literal_text rest
  | StrArg s :: rest => s ++ literal_text rest
  | _ :: rest => literal_text rest
  end.

(** The test [sum/1] (input "1 2", expected output stored as "3\n"), a
    candidate that prints [printed] and exits normally, and the verdict
    service answering the grade requests. *)
Definition served_sum_env (printed : pystr) : Runner.test_env :=
  Runner.mkTestEnv true
    (fun _ => Runner.Completed 0 printed [] 1.5)
    (fun posted =>
       reply_of literal_text
         (GradingServer.grade (get_checker Examples.float_of_decimal)
            Examples.sum_files_with_newline
            (Ok (grade_request (py "sum") (py "1") posted)))).

End MoreExamples.
(** ** Facts about the string primitives *)

Section DropEnd.
Context {A : Type} (p : A -> bool).

(** One iteration of the [pop] loop, seen from the end of the list. *)
Lemma drop_end_snoc (l : list A) (x : A) :
  drop_end p (l ++ [x]) = if p x then drop_end p l else l ++ [x].
Proof.
  induction l as [|y t IH]; simpl.
  - destruct (p x); reflexivity.
  - rewrite IH. destruct (p x) eqn:Hx.
    + reflexivity.
    + destruct t; reflexivity.
Qed.

Lemma drop_end_nil_iff (l : list A) :
  drop_end p l = [] <-> forallb p l = true.
Proof.
  induction l as [|x t IH]; simpl.
  - tauto.
  - destruct (drop_end p t) eqn:E.
    + destruct (p x); simpl.
      * split; intros _; [apply IH|]; reflexivity.
      * split; discriminate.
    + split; [discriminate|].
      rewrite andb_true_iff. intros [_ H]. apply IH in H. discriminate.
Qed.

Lemma drop_end_cons_neq (x : A) (t : list A) :
  drop_end p t <> [] -> drop_end p (x :: t) = x :: drop_end p t.
Proof.
  simpl. destruct (drop_end p t); [congruence | reflexivity].
Qed.

Lemma drop_end_idem (l : list A) :
  drop_end p (drop_end p l) = drop_end p l.
Proof.
  induction l as [|x t IH]; simpl; [reflexivity|].
  destruct (drop_end p t) as [|y r] eqn:E.
  - destruct (p x) eqn:Hx; simpl; [reflexivity|]. rewrite Hx. reflexivity.
  - rewrite drop_end_cons_neq; rewrite IH; congruence.
Qed.

Lemma drop_end_Forall (Q : A -> Prop) (l : list A) :
  Forall Q l -> Forall Q (drop_end p l).
Proof.
  induction 1 as [|x t Hx Ht IH]; simpl; [constructor|].
  destruct (drop_end p t).
  - destruct (p x); constructor; auto.
  - constructor; assumption.
Qed.
End DropEnd.

Lemma rstrip_idem (l : pystr) : rstrip (rstrip l) = rstrip l.
Proof. apply drop_end_idem. Qed.

Lemma is_space_CR : is_space CR = true.
Proof. reflexivity. Qed.

Lemma is_space_LF : is_space LF = true.
Proof. reflexivity. Qed.

Lemma ascii_eqb_eq (a b : ascii) : ascii_eqb a b = true <-> a = b.
Proof. apply Ascii.eqb_eq. Qed.

Lemma split_nl_nonempty (s : pystr) : split_nl s <> [].
Proof.
  destruct s as [|c t]; simpl; [discriminate|].
  destruct (ascii_eqb c LF); [discriminate|].
  destruct (split_nl t); discriminate.
Qed.

Lemma split_nl_no_nl (s : pystr) : Forall no_nl (split_nl s).
Proof.
  induction s as [|c t IH]; simpl.
  - repeat constructor.
  - destruct (ascii_eqb c LF) eqn:E.
    + constructor; [constructor | assumption].
    + assert (c <> LF) by (intros ->; rewrite Ascii.eqb_refl in E; discriminate).
      destruct (split_nl t) as [|l ls].
      * repeat constructor; assumption.
      * inversion IH; subst. constructor; [constructor|]; assumption.
  Qed.

Lemma rstrip_no_nl (l : pystr) : no_nl l -> no_nl (rstrip l).
Proof. apply drop_end_Forall. Qed.

Lemma split_nl_line (l : pystr) (rest : pystr) :
  no_nl l -> split_nl (l ++ LF :: rest) = l :: split_nl rest.
Proof.
  induction 1 as [|c t Hc Ht IH]; simpl.
  - reflexivity.
  - destruct (ascii_eqb c LF) eqn:E.
    + apply ascii_eqb_eq in E. contradiction.
    + rewrite IH. reflexivity.
Qed.

Lemma split_nl_single (l : pystr) : no_nl l -> split_nl l = [l].
Proof.
  induction 1 as [|c t Hc Ht IH]; simpl.
  - reflexivity.
  - destruct (ascii_eqb c LF) eqn:E.
    + apply ascii_eqb_eq in E. contradiction.
    + rewrite IH. reflexivity.
Qed.

(** Splitting undoes joining on a non-empty list of newline-free lines. *)
Lemma split_join (ls : list pystr) :
  ls <> [] -> Forall no_nl ls -> split_nl (join_nl ls) = ls.
Proof.
  induction ls as [|l rest IH]; [congruence|].
  intros _ H. inversion H as [|? ? Hl Hrest]; subst.
  destruct rest as [|l' rest'].
  - simpl. apply split_nl_single; assumption.
  - change (join_nl (l :: l' :: rest')) with (l ++ LF :: join_nl (l' :: rest')).
    rewrite split_nl_line by assumption.
    rewrite IH; [reflexivity | discriminate | assumption].
Qed.

(** Joining undoes splitting. *)
Lemma join_split (s : pystr) : join_nl (split_nl s) = s.
Proof.
  induction s as [|c t IH]; simpl; [reflexivity|].
  destruct (ascii_eqb c LF) eqn:E.
  - apply ascii_eqb_eq in E. subst c.
    pose proof (split_nl_nonempty t) as Hne.
    destruct (split_nl t) as [|l ls]; [congruence|].
    change (join_nl ([] :: l :: ls)) with ([] ++ LF :: join_nl (l :: ls)).
    rewrite IH. reflexivity.
  - pose proof (split_nl_nonempty t) as Hne.
    destruct (split_nl t) as [|l ls]; [congruence|].
    destruct ls as [|l' ls'].
    + simpl in *. congruence.
    + change (join_nl ((c :: l) :: l' :: ls')) with
        (c :: (l ++ LF :: join_nl (l' :: ls'))).
      change (join_nl (l :: l' :: ls')) with (l ++ LF :: join_nl (l' :: ls')) in IH.
      rewrite IH. reflexivity.
Qed.

(** No carriage return is left in front of a line break once the line has
    been right-trimmed. *)
Lemma replace_crlf_line (l rest : pystr) :
  no_nl l -> rstripped l ->
  replace_crlf (l ++ LF :: rest) = l ++ replace_crlf (LF :: rest).
Proof.
  intros Hnl. revert rest.
  induction Hnl as [|c t Hc Ht IH]; intros rest Hr.
  - reflexivity.
  - destruct t as [|c' t'].
    + (* the last character of the line: not whitespace, hence not CR *)
      assert (Hsp : is_space c = false).
      { unfold rstripped, rstrip in Hr. simpl in Hr.
        destruct (is_space c); [discriminate | reflexivity]. }
      assert (E : ascii_eqb c CR = false).
      { destruct (ascii_eqb c CR) eqn:E; [|reflexivity].
        apply ascii_eqb_eq in E. subst c. discriminate. }
      cbn [app replace_crlf]. rewrite E. reflexivity.
    + assert (Hr' : rstripped (c' :: t')).
      { unfold rstripped, rstrip in *.
        change (drop_end is_space (c :: c' :: t')) with
          (match drop_end is_space (c' :: t') with
           | [] => if is_space c then [] else [c]
           | r => c :: r end) in Hr.
        destruct (drop_end is_space (c' :: t')) eqn:E.
        - destruct (is_space c); discriminate.
        - congruence. }
      assert (E : ascii_eqb c' LF = false).
      { inversion Ht; subst.
        destruct (ascii_eqb c' LF) eqn:E; [|reflexivity].
        apply ascii_eqb_eq in E. contradiction. }
      specialize (IH rest Hr').
      change ((c :: c' :: t') ++ LF :: rest) with (c :: c' :: (t' ++ LF :: rest)).
      change (replace_crlf (c :: c' :: (t' ++ LF :: rest))) with
        (if ascii_eqb c CR && ascii_eqb c' LF
         then LF :: replace_crlf (t' ++ LF :: rest)
         else c :: replace_crlf (c' :: (t' ++ LF :: rest))).
      rewrite E, andb_false_r.
      change (c' :: t' ++ LF :: rest) with ((c' :: t') ++ LF :: rest).
      rewrite IH. reflexivity.
Qed.

Lemma replace_crlf_LF (rest : pystr) :
  replace_crlf (LF :: rest) = LF :: replace_crlf rest.
Proof. destruct rest; reflexivity. Qed.

Lemma replace_crlf_no_nl (l : pystr) : no_nl l -> replace_crlf l = l.
Proof.
  induction 1 as [|c t Hc Ht IH]; [reflexivity|].
  destruct t as [|c' t']; [reflexivity|].
  change (replace_crlf (c :: c' :: t')) with
    (if ascii_eqb c CR && ascii_eqb c' LF
     then LF :: replace_crlf t' else c :: replace_crlf (c' :: t')).
  assert (E : ascii_eqb c' LF = false).
  { inversion Ht; subst.
    destruct (ascii_eqb c' LF) eqn:E; [|reflexivity].
    apply ascii_eqb_eq in E. contradiction. }
  rewrite E, andb_false_r, IH. reflexivity.
Qed.

Lemma replace_crlf_join (ls : list pystr) :
  Forall no_nl ls -> Forall rstripped ls ->
  replace_crlf (join_nl ls) = join_nl ls.
Proof.
  induction ls as [|l rest IH]; intros Hn Hr; [reflexivity|].
  inversion Hn; inversion Hr; subst.
  destruct rest as [|l' rest'].
  - simpl. apply replace_crlf_no_nl; assumption.
  - change (join_nl (l :: l' :: rest')) with (l ++ LF :: join_nl (l' :: rest')).
    rewrite replace_crlf_line, replace_crlf_LF by assumption.
    rewrite IH by assumption. reflexivity.
Qed.

Lemma kept_lines_no_nl (s : pystr) : Forall no_nl (kept_lines s).
Proof.
  unfold kept_lines. apply drop_end_Forall.
  apply Forall_map. eapply Forall_impl; [|apply split_nl_no_nl].
  intros l. apply rstrip_no_nl.
Qed.

Lemma kept_lines_rstripped (s : pystr) : Forall rstripped (kept_lines s).
Proof.
  unfold kept_lines. apply drop_end_Forall.
  apply Forall_map. apply Forall_forall. intros l _. apply rstrip_idem.
Qed.

Lemma map_id_Forall {A} (f : A -> A) (l : list A) :
  Forall (fun x => f x = x) l -> map f l = l.
Proof. induction 1; simpl; congruence. Qed.

Lemma normalize_fixpoint (ls : list pystr) :
  Forall no_nl ls -> Forall rstripped ls -> drop_end is_empty ls = ls ->
  drop_end is_empty (map rstrip (split_nl (replace_crlf (join_nl ls)))) = ls.
Proof.
  intros Hn Hr Hd. rewrite replace_crlf_join by assumption.
  destruct ls as [|l rest].
  - reflexivity.
  - rewrite split_join by (assumption || discriminate).
    rewrite (map_id_Forall rstrip) by assumption. assumption.
Qed.

(** C5: the normalizer is idempotent, in the verdict service and in the
    runner: normalizing a normalized output changes nothing. *)
Theorem normalize_output_idempotent (s : pystr) :
  GradingServer.normalize_output
    (GradingServer.normalize_output s)
  = GradingServer.normalize_output s
  /\ Runner._normalize_output (Runner._normalize_output s)
     = Runner._normalize_output s.
Proof.
  assert (H : join_nl (kept_lines (join_nl (kept_lines s))) = join_nl (kept_lines s)).
  { unfold kept_lines at 1. rewrite normalize_fixpoint; auto.
    - apply kept_lines_no_nl.
    - apply kept_lines_rstripped.
    - apply drop_end_idem. }
  split; exact H.
Qed.

(** ** Stripping a text and its lines *)

Lemma rstrip_nil_iff (l : pystr) : rstrip l = [] <-> blank l = true.
Proof. apply drop_end_nil_iff. Qed.

Lemma rstrip_cons (c : ascii) (l : pystr) :
  rstrip (c :: l)
  = match rstrip l with
    | [] => if is_space c then [] else [c]
    | r => c :: r
    end.
Proof. reflexivity. Qed.

Lemma lstrip_idem (l : pystr) : lstrip (lstrip l) = lstrip l.
Proof.
  unfold lstrip. induction l as [|c t IH]; simpl; [reflexivity|].
  destruct (is_space c) eqn:E; [assumption|]. simpl. rewrite E. reflexivity.
Qed.

Lemma lstrip_rstrip_comm (l : pystr) : rstrip (lstrip l) = lstrip (rstrip l).
Proof.
  induction l as [|c t IH]; [reflexivity|].
  rewrite rstrip_cons. unfold lstrip at 1. cbn [drop_while].
  destruct (is_space c) eqn:E.
  - fold (lstrip t). rewrite IH.
    destruct (rstrip t) as [|x r]; [reflexivity|].
    unfold lstrip. cbn [drop_while]. rewrite E. reflexivity.
  - rewrite rstrip_cons.
    destruct (rstrip t) as [|x r]; unfold lstrip; cbn [drop_while];
      rewrite E; reflexivity.
Qed.

Lemma strip_lstrip (l : pystr) : strip (lstrip l) = strip l.
Proof. unfold strip. rewrite lstrip_rstrip_comm. apply lstrip_idem. Qed.

Lemma strip_rstrip (l : pystr) : strip (rstrip l) = strip l.
Proof. unfold strip. rewrite rstrip_idem. reflexivity. Qed.

Lemma blank_rstrip (l : pystr) : blank l = is_empty (rstrip l).
Proof.
  destruct (blank l) eqn:E.
  - apply rstrip_nil_iff in E. rewrite E. reflexivity.
  - destruct (rstrip l) eqn:Er; [|reflexivity].
    apply rstrip_nil_iff in Er. congruence.
Qed.

Lemma blank_cons (c : ascii) (l : pystr) :
  blank (c :: l) = is_space c && blank l.
Proof. reflexivity. Qed.

Lemma forallb_blank_split (s : pystr) :
  forallb blank (split_nl s) = blank s.
Proof.
  induction s as [|c t IH]; [reflexivity|].
  rewrite blank_cons. cbn [split_nl]. destruct (ascii_eqb c LF) eqn:E.
  - apply ascii_eqb_eq in E. subst c.
    cbn [forallb]. rewrite IH, is_space_LF. reflexivity.
  - pose proof (split_nl_nonempty t) as Hne.
    destruct (split_nl t) as [|l ls]; [congruence|].
    cbn [forallb] in *. rewrite <- IH, blank_cons, andb_assoc. reflexivity.
Qed.

Lemma forallb_empty_rstrip (ls : list pystr) :
  forallb is_empty (map rstrip ls) = forallb blank ls.
Proof.
  induction ls as [|l ls IH]; [reflexivity|].
  cbn [map forallb]. rewrite IH, blank_rstrip. reflexivity.
Qed.

(** The right-trimmed lines are all empty exactly when the text is blank. *)
Lemma trimmed_lines_nil_iff (s : pystr) :
  trimmed_lines s = [] <-> rstrip s = [].
Proof.
  unfold trimmed_lines.
  rewrite drop_end_nil_iff, forallb_empty_rstrip, forallb_blank_split.
  symmetry. apply rstrip_nil_iff.
Qed.

Lemma drop_end_cons_nonnil {A} (p : A -> bool) (x : A) (t : list A) :
  drop_end p (x :: t) <> [] -> drop_end p (x :: t) = x :: drop_end p t.
Proof.
  simpl. destruct (drop_end p t); [|reflexivity].
  destruct (p x); [congruence | reflexivity].
Qed.

Lemma trimmed_lines_cons_LF (t : pystr) :
  trimmed_lines (LF :: t) = drop_end is_empty ([] :: map rstrip (split_nl t)).
Proof. reflexivity. Qed.

Lemma split_nl_cons_other (c : ascii) (t : pystr) :
  ascii_eqb c LF = false ->
  exists l ls, split_nl t = l :: ls /\ split_nl (c :: t) = (c :: l) :: ls.
Proof.
  intros E. pose proof (split_nl_nonempty t) as Hne.
  cbn [split_nl]. rewrite E.
  destruct (split_nl t) as [|l ls]; [congruence|].
  exists l, ls. split; reflexivity.
Qed.

Lemma nonempty_or_id (ls : list pystr) : ls <> [] -> nonempty_or ls = ls.
Proof. destruct ls; [congruence | reflexivity]. Qed.

(** The lines of a right-trimmed text, each right-trimmed, are the
    right-trimmed lines of the text without the trailing empty ones. *)
Lemma rstrip_lines (s : pystr) :
  map rstrip (split_nl (rstrip s)) = nonempty_or (trimmed_lines s).
Proof.
  induction s as [|c t IH]; [reflexivity|].
  pose proof (trimmed_lines_nil_iff (c :: t)) as Hnil.
  pose proof (trimmed_lines_nil_iff t) as Hnil_t.
  rewrite rstrip_cons in *.
  destruct (rstrip t) as [|x r] eqn:Er.
  - (* the rest is blank *)
    destruct (is_space c) eqn:Ec.
    + rewrite (proj2 Hnil eq_refl). reflexivity.
    + assert (E : ascii_eqb c LF = false).
      { destruct (ascii_eqb c LF) eqn:E; [|reflexivity].
        apply ascii_eqb_eq in E. subst c. rewrite is_space_LF in Ec.
        discriminate. }
      destruct (split_nl_cons_other c t E) as (l & ls & Hs & Hcs).
      assert (Ht : trimmed_lines t = []) by (apply Hnil_t; reflexivity).
      unfold trimmed_lines in *. rewrite Hcs. rewrite Hs in Ht.
      cbn [map] in *.
      assert (Hls : drop_end is_empty (map rstrip ls) = []).
      { simpl in Ht. destruct (drop_end is_empty (map rstrip ls));
          [reflexivity | discriminate]. }
      assert (Hl : rstrip l = []).
      { simpl in Ht. rewrite Hls in Ht.
        destruct (rstrip l); [reflexivity | discriminate]. }
      rewrite rstrip_cons, Hl, Ec. cbn [drop_end]. rewrite Hls.
      cbn [is_empty nonempty_or split_nl]. rewrite E. cbn [map].
      rewrite rstrip_cons. cbn [rstrip drop_end]. rewrite Ec. reflexivity.
  - (* the rest is not blank *)
    assert (Ht : trimmed_lines t <> []).
    { intros H. apply Hnil_t in H. discriminate. }
    assert (Hct : trimmed_lines (c :: t) <> []).
    { intros H. apply Hnil in H. discriminate. }
    rewrite (nonempty_or_id Ht) in IH. rewrite (nonempty_or_id Hct).
    destruct (ascii_eqb c LF) eqn:E.
    + apply ascii_eqb_eq in E. subst c.
      change (split_nl (LF :: x :: r)) with ([] :: split_nl (x :: r)).
      cbn [map]. rewrite IH. rewrite trimmed_lines_cons_LF.
      rewrite drop_end_cons_neq by exact Ht. reflexivity.
    + destruct (split_nl_cons_other c t E) as (l & ls & Hs & Hcs).
      destruct (split_nl_cons_other c (x :: r) E) as (l' & ls' & Hs' & Hcs').
      rewrite Hcs'. rewrite Hs' in IH.
      unfold trimmed_lines in *. rewrite Hcs in *. rewrite Hs in *.
      cbn [map] in *.
      rewrite (drop_end_cons_nonnil _ _ _ Ht) in IH.
      rewrite (drop_end_cons_nonnil _ _ _ Hct).
      injection IH as Hl Hls.
      rewrite Hls. f_equal. rewrite !rstrip_cons, Hl. reflexivity.
Qed.

(** The lines of a left-trimmed text: the leading blank lines go, and the
    first line left is left-trimmed. *)
Lemma lstrip_lines (u : pystr) :
  split_nl (lstrip u) = head_lstrip (drop_while blank (split_nl u)).
Proof.
  induction u as [|c t IH]; [reflexivity|].
  unfold lstrip at 1. cbn [drop_while]. fold (lstrip t).
  destruct (is_space c) eqn:Ec.
  - rewrite IH. destruct (ascii_eqb c LF) eqn:E.
    + apply ascii_eqb_eq in E. subst c.
      change (split_nl (LF :: t)) with ([] :: split_nl t). reflexivity.
    + destruct (split_nl_cons_other c t E) as (l & ls & Hs & Hcs).
      rewrite Hcs, Hs. cbn [drop_while]. rewrite blank_cons, Ec. cbn [andb].
      destruct (blank l); [reflexivity|].
      cbn [head_lstrip]. unfold lstrip. cbn [drop_while]. rewrite Ec.
      reflexivity.
  - assert (E : ascii_eqb c LF = false).
    { destruct (ascii_eqb c LF) eqn:E; [|reflexivity].
      apply ascii_eqb_eq in E. subst c. rewrite is_space_LF in Ec.
      discriminate. }
    destruct (split_nl_cons_other c t E) as (l & ls & Hs & Hcs).
    rewrite Hcs. cbn [drop_while]. rewrite blank_cons, Ec.
    cbn [andb head_lstrip]. unfold lstrip. cbn [drop_while]. rewrite Ec.
    reflexivity.
Qed.

Lemma strip_head_lstrip (ls : list pystr) :
  map strip (head_lstrip (drop_while blank ls))
  = nonempty_or (map lstrip (drop_while is_empty (map rstrip ls))).
Proof.
  induction ls as [|l ls IH]; [reflexivity|].
  cbn [map drop_while]. rewrite blank_rstrip.
  destruct (rstrip l) as [|x r] eqn:El; cbn [is_empty].
  - exact IH.
  - cbn [head_lstrip map nonempty_or]. rewrite strip_lstrip.
    unfold strip at 1. rewrite El. f_equal.
    rewrite map_map. reflexivity.
Qed.

(** What the checkers read of a text is a function of its right-trimmed
    lines without the trailing empty ones. *)
Lemma stripped_lines_of_trimmed (s : pystr) :
  stripped_lines s
  = nonempty_or (map lstrip (drop_while is_empty
                               (nonempty_or (trimmed_lines s)))).
Proof.
  unfold stripped_lines, strip at 2.
  rewrite lstrip_lines, strip_head_lstrip, rstrip_lines. reflexivity.
Qed.

(** Replacing CRLF by LF does not change the right-trimmed lines. *)
Lemma rstrip_lines_replace_crlf (s : pystr) :
  map rstrip (split_nl (replace_crlf s)) = map rstrip (split_nl s).
Proof.
  assert (H : forall n s, (length s <= n)%nat ->
            map rstrip (split_nl (replace_crlf s)) = map rstrip (split_nl s)).
  { clear s. induction n as [|n IH]; intros s L.
    - destruct s; [reflexivity | simpl in L; lia].
    - destruct s as [|c1 t]; [reflexivity|].
      destruct t as [|c2 r]; [reflexivity|].
      change (replace_crlf (c1 :: c2 :: r))
        with (if ascii_eqb c1 CR && ascii_eqb c2 LF
              then LF :: replace_crlf r
              else c1 :: replace_crlf (c2 :: r)).
      simpl in L.
      destruct (ascii_eqb c1 CR && ascii_eqb c2 LF) eqn:E.
      + apply andb_true_iff in E. destruct E as [E1 E2].
        apply ascii_eqb_eq in E1, E2. subst c1 c2.
        change (split_nl (LF :: replace_crlf r))
          with ([] :: split_nl (replace_crlf r)).
        change (split_nl (CR :: LF :: r)) with ([CR] :: split_nl r).
        cbn [map]. rewrite IH by lia. reflexivity.
      + assert (IHt := IH (c2 :: r) ltac:(simpl; lia)).
        destruct (ascii_eqb c1 LF) eqn:E1.
        * apply ascii_eqb_eq in E1. subst c1.
          change (split_nl (LF :: replace_crlf (c2 :: r)))
            with ([] :: split_nl (replace_crlf (c2 :: r))).
          change (split_nl (LF :: c2 :: r)) with ([] :: split_nl (c2 :: r)).
          cbn [map]. rewrite IHt. reflexivity.
        * destruct (split_nl_cons_other c1 (c2 :: r) E1) as (l & ls & Hs & Hcs).
          destruct (split_nl_cons_other c1 (replace_crlf (c2 :: r)) E1)
            as (l' & ls' & Hs' & Hcs').
          rewrite Hcs, Hcs'. rewrite Hs, Hs' in IHt. cbn [map] in *.
          injection IHt as Hl Hls. rewrite Hls, !rstrip_cons, Hl. reflexivity. }
  apply (H (length s)). lia.
Qed.

Lemma kept_lines_trimmed (s : pystr) : kept_lines s = trimmed_lines s.
Proof.
  unfold kept_lines, trimmed_lines. rewrite rstrip_lines_replace_crlf.
  reflexivity.
Qed.

(** Normalizing a text does not change its right-trimmed lines. *)
Lemma trimmed_lines_normalize (s : pystr) :
  trimmed_lines (GradingServer.normalize_output s) = trimmed_lines s.
Proof.
  unfold GradingServer.normalize_output.
  fold (kept_lines s).
  pose proof (kept_lines_no_nl s) as Hn.
  pose proof (kept_lines_rstripped s) as Hr.
  assert (Hd : drop_end is_empty (kept_lines s) = kept_lines s)
    by apply drop_end_idem.
  rewrite <- (kept_lines_trimmed s).
  destruct (kept_lines s) as [|l ls] eqn:Ek; [reflexivity|].
  unfold trimmed_lines. rewrite split_join by (assumption || discriminate).
  rewrite (map_id_Forall rstrip) by assumption. assumption.
Qed.

(** The checkers read the same lines in a stored expected output and in
    its normalization. *)
Lemma stripped_lines_normalize (s : pystr) :
  stripped_lines (GradingServer.normalize_output s) = stripped_lines s.
Proof.
  rewrite !stripped_lines_of_trimmed, trimmed_lines_normalize. reflexivity.
Qed.

(** ** Control flow of the checkers *)

Lemma cbind_accept {A B} (c : ctl A) (k : A -> ctl B) (m : message) :
  rejecting c ->
  cbind c k = Return (true, m) ->
  exists a, c = Next a /\ k a = Return (true, m).
Proof.
  intros Hr H. destruct c as [a | r | e]; simpl in H.
  - exists a. split; [reflexivity | assumption].
  - exfalso. apply (Hr m). congruence.
  - discriminate.
Qed.

Lemma rejecting_lift {A} (r : result A) : rejecting (lift r).
Proof. intros m. destruct r; discriminate. Qed.

Lemma lift_Next {A} (r : result A) (a : A) : lift r = Next a <-> r = Ok a.
Proof. destruct r; simpl; split; congruence. Qed.

Lemma rejecting_return_if (cond : bool) (m : message) :
  rejecting (return_if cond (false, m)).
Proof. intros m'. destruct cond; discriminate. Qed.

Lemma return_if_Next (cond : bool) (r : bool * message) (u : unit) :
  return_if cond r = Next u <-> cond = false.
Proof. destruct cond, u; simpl; split; congruence. Qed.

Lemma rejecting_try_int {A} (r : result A) (handled : exn -> bool) (m : message) :
  rejecting (try_except handled (lift r) (fun _ => Return (false, m))).
Proof.
  intros m'. destruct r as [a | e]; simpl; [discriminate|].
  destruct (handled e); discriminate.
Qed.

Lemma try_int_Next {A} (r : result A) (handled : exn -> bool) (m : message) (a : A) :
  try_except handled (lift r) (fun _ => Return (false, m)) = Next a <-> r = Ok a.
Proof.
  destruct r as [a' | e]; simpl.
  - split; congruence.
  - destruct (handled e); split; discriminate.
Qed.

Lemma rejecting_cbind {A B} (c : ctl A) (k : A -> ctl B) :
  rejecting c -> (forall a, rejecting (k a)) -> rejecting (cbind c k).
Proof.
  intros Hc Hk m. destruct c as [a | r | e]; simpl.
  - apply Hk.
  - intros H. apply (Hc m). injection H as ->. reflexivity.
  - discriminate.
Qed.

Lemma rejecting_for_range {S} (body : Z -> S -> ctl S) :
  (forall i s, rejecting (body i s)) ->
  forall n i s, rejecting (for_range n i body s).
Proof.
  intros Hb. induction n as [|n IH]; intros i s; simpl.
  - discriminate.
  - apply rejecting_cbind; [apply Hb | intros a; apply IH].
Qed.

Lemma py_index_nat {A} (l : list A) (i : nat) :
  py_index l (Z.of_nat i)
  = match nth_error l i with
    | Some x => Ok x
    | None => Raise ListIndexOutOfRange
    end.
Proof.
  unfold py_index, norm_index.
  destruct (Z.of_nat i <? 0) eqn:E; [apply Z.ltb_lt in E; lia|].
  assert (E0 : (0 <=? Z.of_nat i) = true) by (apply Z.leb_le; lia).
  rewrite E0. simpl.
  destruct (Z.of_nat i <? Z.of_nat (length l)) eqn:E1; simpl.
  - rewrite Nat2Z.id. reflexivity.
  - apply Z.ltb_ge in E1.
    destruct (nth_error l i) eqn:En; [|reflexivity].
    assert (i < length l)%nat by (apply nth_error_Some; congruence). lia.
Qed.

(** A loop that reads one value per line and appends it to a list reads
    a block of lines. *)
Lemma for_range_read_block {A} (parse : pystr -> option A)
    (lines : list pystr) (body : Z -> list A -> ctl (list A)) :
  (forall (i : nat) acc res,
     body (Z.of_nat i) acc = Next res <->
     exists line x, nth_error lines i = Some line /\ parse line = Some x
                    /\ res = acc ++ [x]) ->
  forall (n i : nat) acc res,
    for_range n (Z.of_nat i) body acc = Next res <->
    exists xs, read_block parse lines i n = Some xs /\ res = acc ++ xs.
Proof.
  intros Hb. induction n as [|n IH]; intros i acc res.
  - simpl. split.
    + intros H. injection H as <-. exists []. rewrite app_nil_r. auto.
    + intros [xs [H ->]]. injection H as <-. rewrite app_nil_r. reflexivity.
  - cbn [for_range read_block].
    replace (Z.of_nat i + 1) with (Z.of_nat (S i)) by lia.
    split.
    + intros H. destruct (body (Z.of_nat i) acc) as [acc' | r | e] eqn:E;
        cbn [cbind] in H; try discriminate.
      apply Hb in E. destruct E as (line & x & Hl & Hp & ->).
      apply IH in H. destruct H as (xs & Hr & ->).
      exists (x :: xs). rewrite Hl, Hp, Hr. rewrite <- app_assoc. auto.
    + intros (xs & H & ->).
      destruct (nth_error lines i) as [line|] eqn:Hl; [|discriminate].
      destruct (parse line) as [x|] eqn:Hp; [|discriminate].
      destruct (read_block parse lines (S i) n) as [xs'|] eqn:Hr; [|discriminate].
      injection H as <-.
      assert (E : body (Z.of_nat i) acc = Next (acc ++ [x])).
      { apply Hb. exists line, x. auto. }
      rewrite E. cbn [cbind]. apply IH. exists xs'. rewrite <- app_assoc. auto.
Qed.

Lemma read_block_length {A} (parse : pystr -> option A) (lines : list pystr) :
  forall (count start : nat) xs,
    read_block parse lines start count = Some xs -> length xs = count.
Proof.
  induction count as [|c IH]; intros start xs H; simpl in H.
  - injection H as <-. reflexivity.
  - destruct (nth_error lines start); [|discriminate].
    destruct (parse p); [|discriminate].
    destruct (read_block parse lines (S start) c) eqn:E; [|discriminate].
    injection H as <-. simpl. f_equal. eapply IH; eassumption.
Qed.

Lemma read_block_bound {A} (parse : pystr -> option A) (lines : list pystr) :
  forall (count start : nat) xs,
    read_block parse lines start count = Some xs ->
    (count = 0 \/ start + count <= length lines)%nat.
Proof.
  induction count as [|c IH]; intros start xs H; simpl in H.
  - left. reflexivity.
  - right. destruct (nth_error lines start) eqn:En; [|discriminate].
    destruct (parse p); [|discriminate].
    destruct (read_block parse lines (S start) c) eqn:E; [|discriminate].
    assert (start < length lines)%nat by (apply nth_error_Some; congruence).
    destruct (IH _ _ E); lia.
Qed.

Lemma int_of_Some (s : pystr) (z : Z) : int_of s = Some z <-> py_int s = Ok z.
Proof. unfold int_of. destruct (py_int s); split; congruence. Qed.

Lemma accepts_guard (body : ctl unit) :
  accepts (checker_error_guard body) = true <->
  exists m, body = Return (true, m).
Proof.
  unfold checker_error_guard, run_body.
  destruct body as [[] | [b m] | e]; simpl.
  - split; [discriminate | intros [m H]; discriminate].
  - split.
    + intros ->. exists m. reflexivity.
    + intros [m' H]. congruence.
  - split; [discriminate | intros [m H]; discriminate].
Qed.

Lemma py_index_0 {A} (l : list A) :
  py_index l 0 = match l with x :: _ => Ok x | [] => Raise ListIndexOutOfRange end.
Proof. change 0 with (Z.of_nat 0). rewrite py_index_nat. destruct l; reflexivity. Qed.

Lemma py_index_1 {A} (l : list A) :
  py_index l 1
  = match l with _ :: x :: _ => Ok x | _ => Raise ListIndexOutOfRange end.
Proof.
  change 1 with (Z.of_nat 1). rewrite py_index_nat.
  destruct l as [|? [|? ?]]; reflexivity.
Qed.

Create HintDb ctl.
#[export] Hint Resolve rejecting_lift rejecting_return_if rejecting_try_int
  rejecting_cbind : ctl.

(** Peel one statement off an accepting run. *)
Ltac accept_step H a E :=
  apply cbind_accept in H;
  [ destruct H as (a & E & H) | solve [auto with ctl] ].

Lemma cbind_Next {A B} (c : ctl A) (k : A -> ctl B) (a : A) :
  c = Next a -> cbind c k = k a.
Proof. intros ->. reflexivity. Qed.

Lemma lift_Ok {A} (r : result A) (a : A) : r = Ok a -> lift r = Next a.
Proof. intros ->. reflexivity. Qed.

Lemma cbind_ext {A B} (c : ctl A) (k k' : A -> ctl B) :
  (forall a, k a = k' a) -> cbind c k = cbind c k'.
Proof. intros H. destruct c; simpl; [apply H | reflexivity | reflexivity]. Qed.

(** Step over the statements two runs have in common. *)
Ltac skip_common :=
  repeat (apply cbind_ext; intros ?;
          try match goal with p : (_ * _)%type |- _ => destruct p end).

(** ** The default checker *)

Section DefaultCheckerFacts.

Variable py_float : pystr -> option float.

Lemma _floats_equal_within_tolerance (e a : float) :
  _floats_equal e a = within_tolerance e a.
Proof.
  unfold _floats_equal, isclose, within_tolerance.
  destruct (e =? a)%float; [reflexivity|].
  destruct (is_inf e); [reflexivity|].
  destruct (is_inf a); reflexivity.
Qed.

Lemma compare_tokens_spec (es acts : list float) :
  forall i j, length es = length acts ->
  (all2 within_tolerance es acts = true /\ compare_tokens i j es acts = Next tt)
  \/ (all2 within_tolerance es acts = false
      /\ exists msg, compare_tokens i j es acts = Return (false, msg)).
Proof.
  revert acts. induction es as [|e es IH]; intros [|a acts] i j L;
    try discriminate; simpl.
  - left. split; reflexivity.
  - rewrite _floats_equal_within_tolerance.
    destruct (within_tolerance e a); simpl.
    + apply IH. simpl in L. congruence.
    + right. split; [reflexivity|]. eexists. reflexivity.
Qed.

Lemma compare_lines_spec (exps acts : list pystr) :
  forall (efs afs : list (list float)) (i : Z),
  map (fun l => _parse_floats py_float (strip l)) exps = map Some efs ->
  map (fun l => _parse_floats py_float (strip l)) acts = map Some afs ->
  Forall2 (fun es fs => length es = length fs) efs afs ->
  (all2 (all2 within_tolerance) efs afs = true
   /\ compare_lines py_float i exps acts = Next tt)
  \/ (all2 (all2 within_tolerance) efs afs = false
      /\ exists msg, compare_lines py_float i exps acts = Return (false, msg)).
Proof.
  revert acts.
  induction exps as [|x exps IH]; intros acts efs afs i He Ha HF.
  - destruct efs; [|discriminate]. inversion HF; subst.
    destruct acts; [|discriminate]. left. split; reflexivity.
  - destruct efs as [|ef efs]; [discriminate|].
    inversion HF as [|? af ? afs' Hlen HF']; subst.
    destruct acts as [|y acts]; [discriminate|].
    simpl in He, Ha. injection He as Hx He. injection Ha as Hy Ha.
    cbn [compare_lines all2]. unfold compare_line. rewrite Hx, Hy.
    rewrite (proj2 (Nat.eqb_eq _ _) Hlen).
    destruct (@compare_tokens_spec ef af i 0 Hlen) as [[Hall Hc] | [Hall [msg Hc]]];
      rewrite Hall, Hc; simpl.
    + apply IH; assumption.
    + right. split; [reflexivity|]. exists msg. reflexivity.
Qed.

Lemma default_checker_numeric (pid inp expected actual : pystr)
    (efs afs : list (list float)) :
  map (fun l => _parse_floats py_float (strip l)) (split_nl (strip expected))
    = map Some efs ->
  map (fun l => _parse_floats py_float (strip l)) (split_nl (strip actual))
    = map Some afs ->
  Forall2 (fun es fs => length es = length fs) efs afs ->
  exists msg,
    default_checker py_float pid inp expected (JStr actual)
    = Ok (all2 (all2 within_tolerance) efs afs, msg).
Proof.
  intros He Ha HF. unfold default_checker. cbn [attr_strip rbind].
  assert (L : length (split_nl (strip expected)) = length (split_nl (strip actual))).
  { apply (f_equal (@length _)) in He. apply (f_equal (@length _)) in Ha.
    rewrite !length_map in He, Ha. rewrite He, Ha.
    clear -HF. induction HF; simpl; congruence. }
  rewrite (proj2 (Nat.eqb_eq _ _) L). cbn [negb].
  destruct (@compare_lines_spec _ _ efs afs 0 He Ha HF)
    as [[Hall Hc] | [Hall [msg Hc]]]; rewrite Hall, Hc; simpl;
    eexists; reflexivity.
Qed.

End DefaultCheckerFacts.

Lemma compare_line_numeric (py_float : pystr -> option float) (i : Z)
    (exp_line act_line : pystr) (es acts : list float) :
  _parse_floats py_float (strip exp_line) = Some es ->
  _parse_floats py_float (strip act_line) = Some acts ->
  length es = length acts ->
  (all2 within_tolerance es acts = true
   /\ compare_line py_float i exp_line act_line = Next tt)
  \/ (all2 within_tolerance es acts = false
      /\ exists msg, compare_line py_float i exp_line act_line
                     = Return (false, msg)).
Proof.
  intros He Ha L. unfold compare_line. rewrite He, Ha.
  rewrite (proj2 (Nat.eqb_eq _ _) L).
  apply compare_tokens_spec. assumption.
Qed.

(** C4 (as amended): in the default checker, a pair of corresponding lines
    that both parse fully as whitespace-separated floats of equal count
    passes exactly when every pair of tokens is within the tolerance of
    [math.isclose]: an expected [e] and an actual [a] pass exactly when they
    are equal, or both are finite and [|a-e|] is at most [1e-6*|a|],
    [1e-6*|e|] or [1e-9].  When all the lines are such, the verdict is that
    test over all of them.  In particular expected "1.0\n2.0" passes with
    actual "1.0000001\n2.0", and fails with actual "1.1\n2.0", citing
    line 1. *)
Theorem default_checker_float_tolerance :
  (forall (py_float : pystr -> option float) (i : Z)
          (exp_line act_line : pystr) (es acts : list float),
     _parse_floats py_float (strip exp_line) = Some es ->
     _parse_floats py_float (strip act_line) = Some acts ->
     length es = length acts ->
     (compare_line py_float i exp_line act_line = Next tt
      <-> all2 within_tolerance es acts = true)
     /\ (forall e a, _floats_equal e a = within_tolerance e a))
  /\ (forall (py_float : pystr -> option float)
             (pid inp expected actual : pystr)
             (efs afs : list (list float)),
        map (fun l => _parse_floats py_float (strip l))
            (split_nl (strip expected)) = map Some efs ->
        map (fun l => _parse_floats py_float (strip l))
            (split_nl (strip actual)) = map Some afs ->
        Forall2 (fun es fs => length es = length fs) efs afs ->
        exists msg,
          default_checker py_float pid inp expected (JStr actual)
          = Ok (all2 (all2 within_tolerance) efs afs, msg))
  /\ default_checker Examples.float_of_decimal (py "sum") (py "1 2")
       (join_nl [py "1.0"; py "2.0"]) (JStr (join_nl [py "1.0000001"; py "2.0"]))
     = Ok (true, [Lit (py "OK")])
  /\ default_checker Examples.float_of_decimal (py "sum") (py "1 2")
       (join_nl [py "1.0"; py "2.0"]) (JStr (join_nl [py "1.1"; py "2.0"]))
     = Ok (false, [Lit (py "Line "); IntArg 1; Lit (py ", token "); IntArg 1;
                   Lit (py ": expected "); FloatArg 1.0; Lit (py ", got ");
                   FloatArg 1.1]).
Proof.
  split; [|split; [|split]].
  - intros py_float i exp_line act_line es acts He Ha L.
    split; [|apply _floats_equal_within_tolerance].
    destruct (compare_line_numeric py_float i exp_line act_line He Ha L)
      as [[Hall Hc] | [Hall [msg Hc]]]; rewrite Hall, Hc.
    + split; reflexivity.
    + split; discriminate.
  - intros. apply default_checker_numeric; assumption.
  - vm_compute. reflexivity.
  - vm_compute. reflexivity.
Qed.

Lemma default_checker_float_tolerance_witness :
  exists msg,
    default_checker Examples.float_of_decimal (py "sum") (py "1 2")
      (join_nl [py "1.0"; py "2.0"]) (JStr (join_nl [py "1.0000001"; py "2.0"]))
    = Ok (all2 (all2 within_tolerance) [[1.0]; [2.0]] [[1.0000001]; [2.0]], msg)%float.
Proof.
  apply (proj1 (proj2 default_checker_float_tolerance)
           Examples.float_of_decimal).
  - vm_compute. reflexivity.
  - vm_compute. reflexivity.
  - repeat constructor.
Defined.

(** The tolerance is not the stated [|a-b| <= max(1e-9, 1e-6*|b|)]: with
    expected 1.0 and actual 1.0000010000005 the difference exceeds
    [1e-6*|b|], yet the pair passes, being within [1e-6*|a|]. *)
Lemma stated_tolerance_is_not_the_test :
  stated_tolerance 1.0000010000005 1.0 = false
  /\ default_checker Examples.float_of_decimal (py "sum") (py "1 2")
       (py "1.0") (JStr (py "1.0000010000005"))
     = Ok (true, [Lit (py "OK")]).
Proof. split; vm_compute; reflexivity. Qed.

(** ** The verdict service *)

(** C2 (as amended): when the selected checker raises, [grade] answers with
    status 200, verdict "WA", [passed] false and the message
    "Checker error: " followed by the text of the exception; nothing
    propagates and the answer is never a success. *)
Theorem checker_exception_is_reported_as_WA
    (get_checker : pystr -> CheckerFunc) (fs : GradingServer.files)
    (data : json) (pid : pystr) (test_id actual_output : json)
    (input_data expected_output : pystr) (e : exn) :
  truthy data = true ->
  json_get data (py "problem_id") JNull = Ok (JStr pid) ->
  pid <> [] ->
  json_get data (py "test_id") JNull = Ok test_id ->
  truthy test_id = true ->
  json_get data (py "actual_output") (JStr []) = Ok actual_output ->
  GradingServer.input_file fs pid test_id = GradingServer.Readable input_data ->
  GradingServer.output_file fs pid test_id
    = GradingServer.Readable expected_output ->
  get_checker pid pid input_data expected_output actual_output = Raise e ->
  GradingServer.grade get_checker fs (Ok data)
  = GradingServer.mkResponse 200 (py "WA") false
      [Lit (py "Checker error: "); ExnArg e].
Proof.
  intros Hd Hp Hne Ht Htt Ha Hi Ho Hc.
  unfold GradingServer.grade. rewrite Hd, Hp, Ht, Ha. cbn [negb].
  assert (Hpt : truthy (JStr pid) = true) by (destruct pid; [congruence | reflexivity]).
  rewrite Hpt, Htt. cbn [negb].
  unfold GradingServer.grade_test. rewrite Hi, Ho. cbn.
  rewrite Hc. reflexivity.
Qed.

Lemma checker_exception_is_reported_as_WA_witness :
  GradingServer.grade (get_checker Examples.float_of_decimal)
    Examples.sum_files (Ok (Examples.sum_request (JInt 5)))
  = GradingServer.mkResponse 200 (py "WA") false
      [Lit (py "Checker error: "); ExnArg (NoAttribute (py "int") (py "strip"))].
Proof.
  apply (checker_exception_is_reported_as_WA
           (get_checker Examples.float_of_decimal) Examples.sum_files
           (Examples.sum_request (JInt 5)) (pid := py "sum")
           (test_id := JStr (py "1")) (actual_output := JInt 5)
           (input_data := py "1 2") (expected_output := py "3")).
  - reflexivity.
  - reflexivity.
  - discriminate.
  - reflexivity.
  - reflexivity.
  - reflexivity.
  - reflexivity.
  - reflexivity.
  - reflexivity.
Defined.

(** The message of a checker error is not one generic text: two requests
    whose checker raises different exceptions get different messages. *)
Lemma checker_error_message_is_not_generic :
  ~ (exists generic : message,
       forall actual_output e,
         get_checker Examples.float_of_decimal (py "sum") (py "sum")
           (py "1 2") (py "3") actual_output = Raise e ->
         GradingServer.message
           (GradingServer.grade (get_checker Examples.float_of_decimal)
              Examples.sum_files (Ok (Examples.sum_request actual_output)))
         = generic).
Proof.
  intros [generic H].
  pose proof (H (JInt 5) _ eq_refl) as H1.
  pose proof (H JNull _ eq_refl) as H2.
  vm_compute in H1, H2. congruence.
Qed.

(** ** The verdict service and the stored expected output *)

Lemma stripped_lines_head (e e' : pystr) :
  stripped_lines e = stripped_lines e' ->
  exists x xr x' xr',
    split_nl (strip e) = x :: xr /\ split_nl (strip e') = x' :: xr'
    /\ strip x = strip x'.
Proof.
  unfold stripped_lines. intros H.
  pose proof (split_nl_nonempty (strip e)) as Hne.
  pose proof (split_nl_nonempty (strip e')) as Hne'.
  destruct (split_nl (strip e)) as [|x xr]; [congruence|].
  destruct (split_nl (strip e')) as [|x' xr']; [congruence|].
  simpl in H. injection H as Hx _.
  exists x, xr, x', xr'. auto.
Qed.

Lemma checker_pastele_expected (pid inp e e' : pystr) (actual : pyval) :
  stripped_lines e = stripped_lines e' ->
  checker_pastele pid inp e actual = checker_pastele pid inp e' actual.
Proof.
  intros H. destruct (stripped_lines_head _ _ H) as (x & xr & x' & xr' & Hs & Hs' & Hx).
  unfold checker_pastele. f_equal. unfold Pastele.body. cbv zeta.
  rewrite Hs, Hs'. skip_common.
  rewrite !py_index_0. cbn [lift cbind]. rewrite Hx. reflexivity.
Qed.

Lemma checker_rez_expected (pid inp e e' : pystr) (actual : pyval) :
  stripped_lines e = stripped_lines e' ->
  checker_rez pid inp e actual = checker_rez pid inp e' actual.
Proof.
  intros H. destruct (stripped_lines_head _ _ H) as (x & xr & x' & xr' & Hs & Hs' & Hx).
  unfold checker_rez. f_equal. unfold Rez.body. cbv zeta.
  rewrite Hs, Hs'. skip_common.
  rewrite !py_index_0. cbn [lift cbind]. rewrite Hx. reflexivity.
Qed.

Lemma checker_kolekcija_expected (pid inp e e' : pystr) (actual : pyval) :
  stripped_lines e = stripped_lines e' ->
  checker_kolekcija pid inp e actual = checker_kolekcija pid inp e' actual.
Proof.
  intros H. destruct (stripped_lines_head _ _ H) as (x & xr & x' & xr' & Hs & Hs' & Hx).
  unfold checker_kolekcija. f_equal. unfold Kolekcija.body. cbv zeta.
  rewrite Hs, Hs'. skip_common.
  rewrite !py_index_0. cbn [lift cbind]. rewrite Hx. reflexivity.
Qed.

Lemma compare_lines_expected (py_float : pystr -> option float)
    (exps : list pystr) :
  forall (exps' acts : list pystr) (i : Z),
    map strip exps = map strip exps' ->
    compare_lines py_float i exps acts = compare_lines py_float i exps' acts.
Proof.
  induction exps as [|x exps IH]; intros [|x' exps'] acts i H;
    try discriminate; [reflexivity|].
  simpl in H. injection H as Hx H.
  destruct acts as [|y acts]; [reflexivity|].
  cbn [compare_lines]. unfold compare_line. rewrite Hx.
  rewrite (IH exps' acts (i + 1) H). reflexivity.
Qed.

Lemma default_checker_expected (py_float : pystr -> option float)
    (pid inp e e' : pystr) (actual : pyval) :
  stripped_lines e = stripped_lines e' ->
  default_checker py_float pid inp e actual
  = default_checker py_float pid inp e' actual.
Proof.
  unfold stripped_lines. intros H. unfold default_checker.
  assert (L : length (split_nl (strip e)) = length (split_nl (strip e'))).
  { apply (f_equal (@length _)) in H. rewrite !length_map in H. exact H. }
  destruct (attr_strip actual) as [a | ex]; [|reflexivity].
  cbn [rbind]. rewrite L.
  rewrite (compare_lines_expected py_float _ _ _ _ H). reflexivity.
Qed.

(** Every registered checker, and the default one, gives the same verdict
    and message on a stored expected output and on its normalization. *)
Lemma get_checker_normalized_expected (py_float : pystr -> option float)
    (problem_id pid inp expected : pystr) (actual : pyval) :
  get_checker py_float problem_id pid inp expected actual
  = get_checker py_float problem_id pid inp
      (GradingServer.normalize_output expected) actual.
Proof.
  pose proof (stripped_lines_normalize expected) as H. symmetry in H.
  unfold GradingServer.normalize_output.
  unfold get_checker, CHECKER_REGISTRY. cbn [dict_get].
  destruct (pystr_eqb (py "pastele") problem_id);
    [apply checker_pastele_expected; assumption|].
  destruct (pystr_eqb (py "rez") problem_id);
    [apply checker_rez_expected; assumption|].
  destruct (pystr_eqb (py "kolekcija") problem_id);
    [apply checker_kolekcija_expected; assumption|].
  apply default_checker_expected; assumption.
Qed.

(** [grade] reads the protected tree only through the two files the
    request names. *)
Lemma grade_files_ext (get_checker : pystr -> CheckerFunc)
    (fs fs' : GradingServer.files) (body : result json) :
  (forall problem_id test_id,
     GradingServer.input_file fs problem_id test_id
     = GradingServer.input_file fs' problem_id test_id) ->
  (forall problem_id test_id,
     GradingServer.output_file fs problem_id test_id
     = GradingServer.output_file fs' problem_id test_id) ->
  GradingServer.grade get_checker fs body
  = GradingServer.grade get_checker fs' body.
Proof.
  intros Hi Ho. unfold GradingServer.grade.
  destruct body as [data | e]; [|reflexivity].
  destruct (negb (truthy data)); [reflexivity|].
  destruct (json_get data (py "problem_id") JNull) as [problem_id | e];
    [|reflexivity].
  destruct (json_get data (py "test_id") JNull) as [test_id | e];
    [|reflexivity].
  destruct (json_get data (py "actual_output") (JStr [])) as [actual | e];
    [|reflexivity].
  destruct (negb (truthy problem_id)); [reflexivity|].
  destruct (negb (truthy test_id)); [reflexivity|].
  destruct problem_id as [| | | | pid | |]; try reflexivity.
  unfold GradingServer.grade_test. rewrite (Hi pid test_id), (Ho pid test_id).
  reflexivity.
Qed.

(** The reply of [grade] with the program's checkers is the reply on the
    tree whose stored expected outputs have been normalized. *)
Lemma grade_normalized_files (py_float : pystr -> option float)
    (fs : GradingServer.files) (body : result json) :
  GradingServer.grade (get_checker py_float) fs body
  = GradingServer.grade (get_checker py_float) (normalized_files fs) body.
Proof.
  unfold GradingServer.grade.
  destruct body as [data | e]; [|reflexivity].
  destruct (negb (truthy data)); [reflexivity|].
  destruct (json_get data (py "problem_id") JNull) as [problem_id | e];
    [|reflexivity].
  destruct (json_get data (py "test_id") JNull) as [test_id | e];
    [|reflexivity].
  destruct (json_get data (py "actual_output") (JStr [])) as [actual | e];
    [|reflexivity].
  destruct (negb (truthy problem_id)); [reflexivity|].
  destruct (negb (truthy test_id)); [reflexivity|].
  destruct problem_id as [| | | | pid | |]; try reflexivity.
  unfold GradingServer.grade_test, normalized_files.
  cbn [GradingServer.input_file GradingServer.output_file].
  destruct (GradingServer.input_file fs pid test_id) as [|input_data|e];
    cbn [GradingServer.exists_ negb GradingServer.read_text rbind];
    [reflexivity| |].
  - destruct (GradingServer.output_file fs pid test_id) as [|expected|e];
      cbn [GradingServer.exists_ negb GradingServer.read_text rbind];
      try reflexivity.
    rewrite <- get_checker_normalized_expected. reflexivity.
  - destruct (GradingServer.output_file fs pid test_id) as [|expected|e'];
      reflexivity.
Qed.

(** C1: for every grade request, the whole reply of the verdict service
    (status, verdict, flag and message) is the reply it gives when the
    stored expected output has been normalized (CRLF to LF, every line
    right-trimmed, trailing blank lines dropped) before the checker is
    invoked; hence two protected trees with the same inputs whose stored
    expected outputs have the same normal form are answered alike: the
    comparison does not depend on that whitespace of the stored file.
    ([grade] hands the text it read to the checker that [get_checker]
    selects; each checker of the registry and the default one strips the
    text and every line it reads.) *)
Theorem grade_independent_of_expected_whitespace
    (py_float : pystr -> option float) :
  (forall (fs : GradingServer.files) (body : result json),
     GradingServer.grade (get_checker py_float) fs body
     = GradingServer.grade (get_checker py_float) (normalized_files fs) body)
  /\ (forall (fs fs' : GradingServer.files) (body : result json),
        (forall problem_id test_id,
           GradingServer.input_file fs problem_id test_id
           = GradingServer.input_file fs' problem_id test_id) ->
        (forall problem_id test_id,
           GradingServer.output_file (normalized_files fs) problem_id test_id
           = GradingServer.output_file (normalized_files fs') problem_id
               test_id) ->
        GradingServer.grade (get_checker py_float) fs body
        = GradingServer.grade (get_checker py_float) fs' body).
Proof.
  split; [apply grade_normalized_files|].
  intros fs fs' body Hi Ho.
  rewrite (grade_normalized_files py_float fs body).
  rewrite (grade_normalized_files py_float fs' body).
  apply grade_files_ext; [|exact Ho].
  intros problem_id test_id. exact (Hi problem_id test_id).
Qed.

(** The expected output of [sum/1] stored as "3\n" and stored as "3": the
    output "3" gets the same reply, and it is accepted. *)
Lemma grade_independent_of_expected_whitespace_witness :
  GradingServer.grade (get_checker Examples.float_of_decimal)
    Examples.sum_files_with_newline
    (Ok (Examples.sum_request (JStr (py "3"))))
  = GradingServer.grade (get_checker Examples.float_of_decimal)
      Examples.sum_files (Ok (Examples.sum_request (JStr (py "3"))))
  /\ GradingServer.passed
       (GradingServer.grade (get_checker Examples.float_of_decimal)
          Examples.sum_files_with_newline
          (Ok (Examples.sum_request (JStr (py "3"))))) = true.
Proof.
  split; [|vm_compute; reflexivity].
  apply (proj2 (grade_independent_of_expected_whitespace
                  Examples.float_of_decimal)).
  - intros problem_id test_id. reflexivity.
  - intros problem_id test_id.
    unfold normalized_files, Examples.sum_files_with_newline,
      Examples.sum_files.
    cbn [GradingServer.output_file].
    destruct (pystr_eqb problem_id (py "sum")); [|reflexivity].
    destruct test_id as [| | | | t | |]; try reflexivity.
    destruct (pystr_eqb t (py "1")); [|reflexivity].
    vm_compute. reflexivity.
Defined.

(** ** The grading runner *)

(** A verdict could not be obtained: the pair returned by [_grade_via_api]
    is falsy, or the call raised. *)
Lemma _grade_via_api_failed (reply : Runner.http_reply) :
  request_failed reply ->
  match Runner._grade_via_api reply with
  | Ok (p, _) => p = JBool false
  | Raise _ => True
  end.
Proof.
  unfold Runner._grade_via_api.
  destruct reply as [e | code ct body]; simpl; intros H.
  - destruct (is_RequestException e); reflexivity || exact I.
  - apply Z.eqb_neq in H. rewrite H.
    match goal with
    | |- context [rbind ?d _] => destruct d as [data | e']
    end; simpl.
    + destruct (Runner.json_find data (py "message")) as [[v|]|e2]; simpl;
        try reflexivity.
      destruct (is_RequestException e2); reflexivity || exact I.
    + destruct (is_RequestException e'); reflexivity || exact I.
Qed.

(** C10: in every [TestResult] built by [_run_test_case] (input file
    missing, runtime error, timeout, failure to start, and both verdict
    outcomes) the [passed] flag is true exactly when the status is "AC". *)
Theorem test_result_passed_iff_status_AC
    (problem_id : pystr) (time_limit_seconds : Z) (problems_dir : pystr)
    (env : Runner.test_env) (test_id executable language : pystr) :
  let r := Runner._run_test_case problem_id time_limit_seconds problems_dir
             env test_id executable language in
  TestResult.passed r = pystr_eqb (TestResult.status r) (py "AC").
Proof.
  intros r. subst r. unfold Runner._run_test_case.
  destruct (Runner.input_exists env); simpl; [|reflexivity].
  destruct (Runner.run env _) as [rc out err ms | | e]; try reflexivity.
  destruct (rc =? 0); simpl; [|reflexivity].
  destruct (Runner._grade_via_api _) as [[p m] | e]; [|reflexivity].
  destruct (truthy p); reflexivity.
Qed.

(** C3: fail-closed.  When the grading request fails (the call raises, or
    the reply is not a 200), the test is recorded as not passed, with status
    "WA" or "RE" (or the status of an earlier failure of the run itself),
    never "AC". *)
Theorem failed_grade_request_never_passes
    (problem_id : pystr) (time_limit_seconds : Z) (problems_dir : pystr)
    (env : Runner.test_env) (test_id executable language : pystr) :
  (forall posted, request_failed (Runner.post_grade env posted)) ->
  let r := Runner._run_test_case problem_id time_limit_seconds problems_dir
             env test_id executable language in
  TestResult.passed r = false
  /\ TestResult.status r <> py "AC"
  /\ In (TestResult.status r) [py "WA"; py "RE"; py "TLE"].
Proof.
  intros Hfail r. subst r. unfold Runner._run_test_case.
  destruct (Runner.input_exists env); simpl.
  2:{ split; [reflexivity|]. split; [discriminate|]. right; left; reflexivity. }
  destruct (Runner.run env _) as [rc out err ms | | e].
  - destruct (rc =? 0); simpl.
    + pose proof (_grade_via_api_failed _
        (Hfail (Runner._normalize_output out))) as H.
      destruct (Runner._grade_via_api _) as [[p m] | e].
      * subst p. simpl. split; [reflexivity|]. split; [discriminate|].
        left; reflexivity.
      * simpl. split; [reflexivity|]. split; [discriminate|].
        right; left; reflexivity.
    + split; [reflexivity|]. split; [discriminate|]. right; left; reflexivity.
  - simpl. split; [reflexivity|]. split; [discriminate|].
    right; right; left; reflexivity.
  - simpl. split; [reflexivity|]. split; [discriminate|].
    right; left; reflexivity.
Qed.

Lemma failed_grade_request_never_passes_witness :
  (forall posted,
     request_failed (Runner.post_grade Examples.unreachable_env posted))
  /\ let r := Runner._run_test_case (py "rez") 1 (py "/problems")
                Examples.unreachable_env (py "1") (py "/workdir/rez") (py "cpp") in
     TestResult.passed r = false
     /\ TestResult.status r <> py "AC"
     /\ In (TestResult.status r) [py "WA"; py "RE"; py "TLE"].
Proof.
  split.
  - intros posted. simpl. exact I.
  - apply (failed_grade_request_never_passes (py "rez") 1 (py "/problems")
             Examples.unreachable_env (py "1") (py "/workdir/rez") (py "cpp")).
    intros posted. simpl. exact I.
Defined.

Lemma run_tests_spec (problem_id : pystr) (tl : Z) (problems_dir : pystr)
    (w : Runner.world) (executable language : pystr)
    (test_cases : list pystr) :
  forall (pos : nat) (acc : list TestResult.t) (p : Z),
  exists rs,
    Runner.run_tests problem_id tl problems_dir w executable language pos
      test_cases acc p = (acc ++ rs, p + count_passed rs)
    /\ length rs = length test_cases.
Proof.
  induction test_cases as [|t rest IH]; intros pos acc p; simpl.
  - exists []. rewrite app_nil_r. unfold count_passed. simpl.
    rewrite Z.add_0_r. split; reflexivity.
  - match goal with
    | |- context [Runner._run_test_case ?a ?b ?c ?d ?e ?f ?g] =>
        set (r := Runner._run_test_case a b c d e f g)
    end.
    destruct (IH (S pos) (acc ++ [r])
                (if TestResult.passed r then p + 1 else p)) as [rs [E L]].
    exists (r :: rs). rewrite E, <- app_assoc. simpl. split; [|congruence].
    f_equal. unfold count_passed. simpl.
    destruct (TestResult.passed r); simpl length; lia.
Qed.

(** C9 (as amended): the score is [passed / total] when there is a test and
    0 when there is none; [total] and [passed] count the results and the
    passed results.  When the pass ends on a missing solution file, a
    compile error or no test case, the result has score 0, total 0, no
    test results and a compilation_error string; that string is not empty
    for a missing solution and for no test case, and for a compile error it
    is what the compiler run gave (its standard error, the timeout text or
    the exception text). *)
Theorem grading_result_score_and_early_exit
    (problem_id : pystr) (time_limit_seconds : Z) (workdir problems_dir : pystr)
    (w : Runner.world) :
  let r := Runner.run_grading problem_id time_limit_seconds workdir
             problems_dir w in
  (0 < GradingResult.total r ->
     GradingResult.score r
     = (Z_to_float (GradingResult.passed r)
        / Z_to_float (GradingResult.total r))%float)
  /\ (GradingResult.total r = 0 -> GradingResult.score r = 0%float)
  /\ GradingResult.total r = Z.of_nat (length (GradingResult.test_results r))
  /\ GradingResult.passed r = count_passed (GradingResult.test_results r)
  /\ (ends_early w = true ->
        GradingResult.score r = 0%float
        /\ GradingResult.passed r = 0
        /\ GradingResult.total r = 0
        /\ GradingResult.test_results r = []
        /\ exists s, GradingResult.compilation_error r = Some s
             /\ (compile_failed w = false -> s <> [])
             /\ (compile_failed w = true -> s = snd (Runner._compile_cpp w))).
Proof.
  assert (Htests : forall executable language,
    let r := Runner.grade_test_cases problem_id time_limit_seconds
               problems_dir w executable language in
    (0 < GradingResult.total r ->
       GradingResult.score r
       = (Z_to_float (GradingResult.passed r)
          / Z_to_float (GradingResult.total r))%float)
    /\ (GradingResult.total r = 0 -> GradingResult.score r = 0%float)
    /\ GradingResult.total r = Z.of_nat (length (GradingResult.test_results r))
    /\ GradingResult.passed r = count_passed (GradingResult.test_results r)
    /\ (no_test_cases w = true ->
          GradingResult.score r = 0%float
          /\ GradingResult.passed r = 0
          /\ GradingResult.total r = 0
          /\ GradingResult.test_results r = []
          /\ exists s, GradingResult.compilation_error r = Some s /\ s <> [])).
  { intros executable language. unfold Runner.grade_test_cases, no_test_cases.
    destruct (Runner._get_test_cases w) as [|t rest] eqn:Et.
    - simpl. repeat split; try reflexivity; try lia.
      eexists. split; [reflexivity|]. discriminate.
    - destruct (run_tests_spec problem_id time_limit_seconds problems_dir w
                  executable language (t :: rest) 0 [] 0) as [rs [E L]].
      rewrite E. cbn [app Z.add].
      assert (Hpos : (0 <? Z.of_nat (length (t :: rest))) = true)
        by (apply Z.ltb_lt; simpl length; lia).
      rewrite Hpos. cbn [GradingResult.score GradingResult.passed
        GradingResult.total GradingResult.test_results
        GradingResult.compilation_error].
      repeat split; try reflexivity; try congruence;
        try (simpl length in *; lia); try discriminate. }
  intros r. subst r. unfold Runner.run_grading, Runner._detect_solution,
    ends_early, solution_missing, compile_failed.
  destruct (Runner.cpp_exists w) eqn:Ecpp.
  - change (pystr_eqb (py "cpp") (py "cpp")) with true. cbv iota.
    destruct (Runner._compile_cpp w) as [success error] eqn:Ec.
    destruct success; cbn [negb fst snd andb orb].
    + specialize (Htests (Runner.path_join workdir problem_id) (py "cpp")).
      cbv zeta in Htests.
      destruct Htests as (H1 & H2 & H3 & H4 & H5).
      refine (conj H1 (conj H2 (conj H3 (conj H4 _)))).
      intros Hn. destruct (H5 Hn) as (? & ? & ? & ? & s & ? & ?).
      repeat (split; [assumption|]).
      exists s. split; [assumption|]. split; [intros _; assumption|].
      discriminate.
    + simpl. repeat split; try reflexivity; try lia.
      eexists. split; [reflexivity|]. split; [discriminate | reflexivity].
  - destruct (Runner.py_exists w) eqn:Epy; cbn [negb fst snd andb orb].
    + change (pystr_eqb (py "python") (py "cpp")) with false. cbv iota.
      specialize (Htests (Runner.path_join workdir
                            (problem_id ++ py ".py")) (py "python")).
      cbv zeta in Htests.
      destruct Htests as (H1 & H2 & H3 & H4 & H5).
      refine (conj H1 (conj H2 (conj H3 (conj H4 _)))).
      intros Hn. destruct (H5 Hn) as (? & ? & ? & ? & s & ? & ?).
      repeat (split; [assumption|]).
      exists s. split; [assumption|]. split; [intros _; assumption|].
      discriminate.
    + simpl. repeat split; try reflexivity; try lia.
      eexists. split; [reflexivity|]. split; [|discriminate].
      intros _. discriminate.
Qed.

Lemma grading_result_score_and_early_exit_witness :
  let r := Runner.run_grading (py "rez") 1 (py "/workdir") (py "/problems")
             Examples.silent_compiler_world in
  GradingResult.score r = 0%float
  /\ GradingResult.passed r = 0
  /\ GradingResult.total r = 0
  /\ GradingResult.test_results r = []
  /\ exists s, GradingResult.compilation_error r = Some s
       /\ (compile_failed Examples.silent_compiler_world = false -> s <> [])
       /\ (compile_failed Examples.silent_compiler_world = true ->
           s = snd (Runner._compile_cpp Examples.silent_compiler_world)).
Proof.
  apply (proj2 (proj2 (proj2 (proj2
    (grading_result_score_and_early_exit (py "rez") 1 (py "/workdir")
       (py "/problems") Examples.silent_compiler_world))))).
  vm_compute. reflexivity.
Defined.

(** A compile error does not always carry a non-empty string: when the
    compiler exits with a non-zero status and an empty standard error, the
    pass ends early with the empty string as [compilation_error]. *)
Lemma compile_error_string_may_be_empty :
  let w := Examples.silent_compiler_world in
  let r := Runner.run_grading (py "rez") 1 (py "/workdir") (py "/problems") w in
  ends_early w = true
  /\ ~ (exists s, GradingResult.compilation_error r = Some s /\ s <> []).
Proof.
  split; [vm_compute; reflexivity|].
  intros [s [H Hne]]. vm_compute in H. injection H as <-. apply Hne. reflexivity.
Qed.

(** ** The KOLEKCIJA checker: merging the windows *)

Lemma zrange_In (a b x : Z) : In x (zrange a b) <-> a <= x <= b.
Proof.
  unfold zrange. rewrite in_map_iff. split.
  - intros (i & <- & Hi). apply in_seq in Hi. lia.
  - intros H. exists (Z.to_nat (x - a)). split; [lia|].
    apply in_seq. lia.
Qed.

Lemma NoDup_shifted_seq (a : Z) (n s : nat) :
  NoDup (map (fun i => a + Z.of_nat i) (seq s n)).
Proof.
  revert s. induction n as [|n IH]; intros s; simpl; constructor.
  - rewrite in_map_iff. intros (i & E & Hi). apply in_seq in Hi. lia.
  - apply IH.
Qed.

Lemma card_ext (l1 l2 : list Z) :
  (forall x, In x l1 <-> In x l2) -> card l1 = card l2.
Proof.
  intros H. unfold card. f_equal. apply Permutation_length.
  apply NoDup_Permutation; try apply NoDup_nodup.
  intros x. rewrite !nodup_In. apply H.
Qed.

Lemma card_app_disjoint (l1 l2 : list Z) :
  (forall x, In x l1 -> ~ In x l2) ->
  card (l1 ++ l2) = card l1 + card l2.
Proof.
  unfold card. induction l1 as [|x l1 IH]; intros Hd; [reflexivity|].
  assert (IH' : Z.of_nat (length (nodup Z.eq_dec (l1 ++ l2)))
                = Z.of_nat (length (nodup Z.eq_dec l1))
                  + Z.of_nat (length (nodup Z.eq_dec l2))).
  { apply IH. intros y Hy. apply Hd. right. assumption. }
  simpl. destruct (in_dec Z.eq_dec x (l1 ++ l2)) as [Hin | Hnin];
    destruct (in_dec Z.eq_dec x l1) as [Hin1 | Hnin1]; simpl length.
  - exact IH'.
  - exfalso. apply in_app_or in Hin. destruct Hin as [H | H];
      [contradiction | exact (Hd x (or_introl eq_refl) H)].
  - exfalso. apply Hnin. apply in_or_app. left. assumption.
  - lia.
Qed.

Lemma card_zrange (a b : Z) : a <= b -> card (zrange a b) = b - a + 1.
Proof.
  intros H. unfold card, zrange.
  rewrite nodup_fixed_point by apply NoDup_shifted_seq.
  rewrite length_map, length_seq. lia.
Qed.

Lemma cover_In (windows : list (Z * Z)) (x : Z) :
  In x (cover windows) <-> exists w, In w windows /\ fst w <= x <= snd w.
Proof.
  unfold cover. rewrite in_flat_map. split; intros (w & Hw & Hx); exists w;
    (split; [assumption|]); apply zrange_In; assumption.
Qed.

(** *** [sorted] is a sorted permutation *)

Lemma insert_sorted_perm (x : Kolekcija.interval) (l : list Kolekcija.interval) :
  Permutation (Kolekcija.insert_sorted x l) (x :: l).
Proof.
  induction l as [|y t IH]; simpl; [reflexivity|].
  destruct (Kolekcija.tuple_leb x y); [reflexivity|].
  rewrite IH. apply perm_swap.
Qed.

Lemma sorted_perm (l : list Kolekcija.interval) :
  Permutation (Kolekcija.sorted l) l.
Proof.
  induction l as [|x t IH]; simpl; [reflexivity|].
  rewrite insert_sorted_perm. constructor. assumption.
Qed.

Section SortedBy.

Variable R : Kolekcija.interval -> Kolekcija.interval -> Prop.
Hypothesis R_trans : forall x y z, R x y -> R y z -> R x z.
Hypothesis leb_R : forall x y, Kolekcija.tuple_leb x y = true -> R x y.
Hypothesis nleb_R : forall x y, Kolekcija.tuple_leb x y = false -> R y x.

Lemma insert_sorted_sorted (x : Kolekcija.interval) (l : list Kolekcija.interval) :
  StronglySorted R l -> StronglySorted R (Kolekcija.insert_sorted x l).
Proof.
  induction 1 as [|y t Ht IH Hy]; simpl.
  - repeat constructor.
  - destruct (Kolekcija.tuple_leb x y) eqn:E.
    + constructor; [constructor; assumption|].
      constructor; [apply leb_R; assumption|].
      eapply Forall_impl; [|exact Hy]. intros z Hz.
      eapply R_trans; [apply leb_R; eassumption | assumption].
    + constructor; [assumption|].
      apply Forall_forall. intros z Hz.
      apply (Permutation_in _ (insert_sorted_perm x t)) in Hz.
      destruct Hz as [<- | Hz].
      * apply nleb_R. assumption.
      * rewrite Forall_forall in Hy. apply Hy. assumption.
Qed.

Lemma sorted_sorted (l : list Kolekcija.interval) :
  StronglySorted R (Kolekcija.sorted l).
Proof.
  induction l as [|x t IH]; simpl; [constructor|].
  apply insert_sorted_sorted. assumption.
Qed.

End SortedBy.

(** The result is in ascending lexicographic order, as Python's [sorted]
    on tuples of integers gives. *)
Lemma sorted_lexicographic (l : list Kolekcija.interval) :
  StronglySorted (fun x y => Kolekcija.tuple_leb x y = true) (Kolekcija.sorted l).
Proof.
  apply sorted_sorted; unfold Kolekcija.tuple_leb.
  - intros x y z Hxy Hyz.
    apply orb_true_iff in Hxy. apply orb_true_iff in Hyz.
    apply orb_true_iff.
    rewrite !andb_true_iff, !Z.ltb_lt, !Z.eqb_eq, !Z.leb_le in *. lia.
  - auto.
  - intros x y H. apply orb_false_iff in H. destruct H as [H1 H2].
    apply orb_true_iff. apply Z.ltb_ge in H1.
    rewrite andb_true_iff, Z.ltb_lt, Z.eqb_eq, Z.leb_le.
    apply andb_false_iff in H2. rewrite Z.eqb_neq, Z.leb_gt in H2. lia.
Qed.

Lemma sorted_by_start (l : list Kolekcija.interval) :
  StronglySorted (fun x y => fst x <= fst y) (Kolekcija.sorted l).
Proof.
  apply sorted_sorted; unfold Kolekcija.tuple_leb.
  - intros; lia.
  - intros x y H. apply orb_true_iff in H.
    rewrite andb_true_iff, Z.ltb_lt, Z.eqb_eq in H. lia.
  - intros x y H. apply orb_false_iff in H. destruct H as [H _].
    apply Z.ltb_ge in H. lia.
Qed.

(** *** The merging loop counts the covered integers *)

Lemma sum_lengths_snoc (merged : list Kolekcija.interval) (w : Kolekcija.interval) :
  Kolekcija.sum_lengths (merged ++ [w])
  = Kolekcija.sum_lengths merged + (snd w - fst w + 1).
Proof. unfold Kolekcija.sum_lengths. rewrite fold_left_app. reflexivity. Qed.

Lemma merge_loop_count (rest : list Kolekcija.interval) :
  forall (merged : list Kolekcija.interval) (cs ce : Z),
    cs <= ce ->
    Forall (fun w => fst w <= snd w) rest ->
    StronglySorted (fun x y => fst x <= fst y) ((cs, ce) :: rest) ->
    let '(merged', cs', ce') :=
      fold_left Kolekcija.merge_step rest (merged, cs, ce) in
    Kolekcija.sum_lengths (merged' ++ [(cs', ce')])
    = Kolekcija.sum_lengths merged + card (cover ((cs, ce) :: rest)).
Proof.
  induction rest as [|[s e] rest IH]; intros merged cs ce Hne Hrest Hsorted.
  - simpl. rewrite sum_lengths_snoc. unfold cover. simpl.
    rewrite app_nil_r, card_zrange by assumption. reflexivity.
  - inversion Hrest as [|? ? Hse Hrest']; subst. simpl in Hse.
    inversion Hsorted as [|? ? Hs1 Hall]; subst.
    inversion Hall as [|? ? Hcs_s Hall']; subst. simpl in Hcs_s.
    inversion Hs1 as [|? ? Hs2 Hall_s]; subst.
    cbn [fold_left Kolekcija.merge_step].
    destruct (s <=? ce + 1) eqn:E.
    + apply Z.leb_le in E.
      specialize (IH merged cs (Z.max ce e)).
      assert (Hne' : cs <= Z.max ce e) by lia.
      assert (Hsorted' : StronglySorted (fun x y => fst x <= fst y)
                           ((cs, Z.max ce e) :: rest)).
      { constructor; assumption. }
      specialize (IH Hne' Hrest' Hsorted').
      destruct (fold_left Kolekcija.merge_step rest (merged, cs, Z.max ce e))
        as [[merged' cs'] ce'].
      rewrite IH. f_equal. apply card_ext. intros x.
      rewrite !cover_In. split; intros (w & Hw & Hx).
      * destruct Hw as [<- | Hw].
        -- simpl in Hx. destruct (Z_le_gt_dec x ce).
           ++ exists (cs, ce). split; [left; reflexivity | simpl; lia].
           ++ exists (s, e). split; [right; left; reflexivity | simpl; lia].
        -- exists w. split; [right; right; assumption | assumption].
      * destruct Hw as [<- | [<- | Hw]].
        -- exists (cs, Z.max ce e). split; [left; reflexivity | simpl in *; lia].
        -- exists (cs, Z.max ce e). split; [left; reflexivity | simpl in *; lia].
        -- exists w. split; [right; assumption | assumption].
    + apply Z.leb_gt in E.
      specialize (IH (merged ++ [(cs, ce)]) s e Hse Hrest' Hs1).
      destruct (fold_left Kolekcija.merge_step rest (merged ++ [(cs, ce)], s, e))
        as [[merged' cs'] ce'].
      rewrite IH, sum_lengths_snoc. simpl fst. simpl snd.
      change (cover ((cs, ce) :: (s, e) :: rest))
        with (zrange cs ce ++ cover ((s, e) :: rest)).
      rewrite card_app_disjoint, card_zrange by
        (assumption ||
         (intros x Hx Hc; apply zrange_In in Hx; apply cover_In in Hc;
          destruct Hc as (w & Hw & Hxw);
          destruct Hw as [<- | Hw];
          [simpl in Hxw; lia
          | rewrite Forall_forall in Hall_s; specialize (Hall_s w Hw);
            simpl in Hall_s; lia])).
      lia.
Qed.

(** [_count_distinct_in_intervals] counts the distinct integers covered by
    windows that are all non-empty. *)
Lemma _count_distinct_in_intervals_correct (intervals : list Kolekcija.interval) :
  Forall (fun w => fst w <= snd w) intervals ->
  Kolekcija._count_distinct_in_intervals intervals = distinct_covered intervals.
Proof.
  intros Hne. unfold Kolekcija._count_distinct_in_intervals.
  destruct intervals as [|w0 ws] eqn:Ei; [reflexivity|]. rewrite <- Ei in *.
  pose proof (sorted_perm intervals) as Hperm.
  pose proof (sorted_by_start intervals) as Hsorted.
  assert (Hne' : Forall (fun w => fst w <= snd w) (Kolekcija.sorted intervals)).
  { apply Forall_forall. intros w Hw. rewrite Forall_forall in Hne.
    apply Hne. apply (Permutation_in _ Hperm). assumption. }
  destruct (Kolekcija.sorted intervals) as [|[cs ce] rest] eqn:Es.
  - apply Permutation_nil in Hperm. congruence.
  - inversion Hne' as [|? ? Hce Hrest]; subst. simpl in Hce.
    pose proof (merge_loop_count [] Hce Hrest Hsorted) as H.
    destruct (fold_left Kolekcija.merge_step rest ([], cs, ce))
      as [[merged' cs'] ce'].
    rewrite H. unfold Kolekcija.sum_lengths at 1. simpl fold_left.
    unfold distinct_covered. fold (cover ((cs, ce) :: rest)).
    fold (cover (w0 :: ws)).
    rewrite Z.add_0_l. apply card_ext. intros x. rewrite !cover_In.
    split; intros (w & Hw & Hx); exists w; (split; [|assumption]).
    + apply (Permutation_in _ Hperm). assumption.
    + apply (Permutation_in _ (Permutation_sym Hperm)). assumption.
Qed.

(** *** Acceptance by the KOLEKCIJA checker *)

Lemma read_song_Next (lines : list pystr) (i : nat) (acc res : list Z) :
  Kolekcija.read_song lines (Z.of_nat i) acc = Next res <->
  exists line x, nth_error lines i = Some line
                 /\ int_of (strip line) = Some x /\ res = acc ++ [x].
Proof.
  unfold Kolekcija.read_song. rewrite py_index_nat.
  destruct (nth_error lines i) as [line|]; simpl.
  - destruct (py_int (strip line)) as [x | e] eqn:E; simpl.
    + split.
      * intros H. injection H as <-. exists line, x.
        unfold int_of. rewrite E. auto.
      * intros (l & y & Hl & Hy & ->). injection Hl as <-.
        unfold int_of in Hy. rewrite E in Hy. congruence.
    + split; [discriminate|]. intros (l & y & Hl & Hy & _).
      injection Hl as <-. unfold int_of in Hy. rewrite E in Hy. discriminate.
  - split; [discriminate|]. intros (l & y & Hl & _). discriminate.
Qed.

Lemma rejecting_read_song (lines : list pystr) (i : Z) (acc : list Z) :
  rejecting (Kolekcija.read_song lines i acc).
Proof.
  unfold Kolekcija.read_song. apply rejecting_cbind; [auto with ctl|].
  intros line. apply rejecting_cbind; [auto with ctl|]. intros; discriminate.
Qed.

Lemma parse_interval_Next (lines : list pystr) (i : nat)
    (acc res : list Kolekcija.interval) :
  Kolekcija.parse_interval lines (Z.of_nat i) acc = Next res <->
  exists line w, nth_error lines i = Some line
                 /\ KolekcijaSpec.parse_window line = Some w /\ res = acc ++ [w].
Proof.
  unfold Kolekcija.parse_interval. rewrite py_index_nat.
  destruct (nth_error lines i) as [line|]; simpl.
  2:{ split; [discriminate|]. intros (l & y & Hl & _). discriminate. }
  transitivity (exists w, KolekcijaSpec.parse_window line = Some w
                          /\ res = acc ++ [w]).
  2:{ split.
      - intros (w & Hw & Hr). exists line, w. auto.
      - intros (l & w & Hl & Hw & Hr). injection Hl as <-. exists w. auto. }
  remember (KolekcijaSpec.parse_window line) as pw eqn:Hpw.
  unfold KolekcijaSpec.parse_window, int_of in Hpw.
  destruct (split_ws (strip line)) as [|p0 [|p1 [|p2 ps]]]; simpl; subst pw;
    try (split; [discriminate | intros (w & Hw & _); discriminate]).
  destruct (py_int p0) as [a | e]; simpl.
  2:{ split; [destruct (Kolekcija.is_Value_or_IndexError e); discriminate|].
      intros (w & Hw & _). discriminate. }
  destruct (py_int p1) as [b | e]; simpl.
  2:{ split; [destruct (Kolekcija.is_Value_or_IndexError e); discriminate|].
      intros (w & Hw & _). discriminate. }
  split.
  - intros H. injection H as <-. exists (a, b). auto.
  - intros (w & Hw & ->). injection Hw as <-. reflexivity.
Qed.

Lemma rejecting_parse_interval (lines : list pystr) (i : Z)
    (acc : list Kolekcija.interval) :
  rejecting (Kolekcija.parse_interval lines i acc).
Proof.
  unfold Kolekcija.parse_interval. intros m.
  destruct (py_index lines i) as [line | e]; simpl.
  - destruct (split_ws (strip line)) as [|p0 [|p1 [|p2 ps]]]; simpl;
      try discriminate.
    destruct (py_int p0) as [a | e]; simpl;
      [|destruct (Kolekcija.is_Value_or_IndexError e); discriminate].
    destruct (py_int p1) as [b | e]; simpl;
      [|destruct (Kolekcija.is_Value_or_IndexError e); discriminate].
    discriminate.
  - destruct (Kolekcija.is_Value_or_IndexError e); discriminate.
Qed.

Lemma rejecting_validate (n k : Z) (songs : list Z) :
  forall (windows : list Kolekcija.interval) (i : Z),
    rejecting (Kolekcija.validate n k i songs windows).
Proof.
  induction songs as [|song songs IH]; intros [|[a b] windows] i m; simpl;
    try discriminate.
  destruct (negb (b - a + 1 =? k)); [discriminate|].
  destruct ((a <? 1) || (n <? b)); [discriminate|].
  destruct (negb ((a <=? song) && (song <=? b))); [discriminate|].
  apply IH.
Qed.

Lemma validate_Next (n k : Z) (songs : list Z) :
  forall (windows : list Kolekcija.interval) (i : Z),
    length songs = length windows ->
    (Kolekcija.validate n k i songs windows = Next tt <->
     Forall2 (KolekcijaSpec.valid_window n k) songs windows).
Proof.
  induction songs as [|song songs IH]; intros [|[a b] windows] i L;
    try discriminate; simpl.
  - split; [constructor | reflexivity].
  - simpl in L. injection L as L. specialize (IH windows (i + 1) L).
    unfold KolekcijaSpec.valid_window at 1.
    destruct (b - a + 1 =? k) eqn:E1; simpl.
    2:{ apply Z.eqb_neq in E1. split; [discriminate|].
        intros H. inversion H; subst. simpl in *. lia. }
    apply Z.eqb_eq in E1.
    destruct (a <? 1) eqn:E2; simpl.
    { apply Z.ltb_lt in E2. split; [discriminate|].
      intros H. inversion H as [|? ? ? ? Hv]; subst.
      unfold KolekcijaSpec.valid_window in Hv. simpl in Hv. lia. }
    apply Z.ltb_ge in E2.
    destruct (n <? b) eqn:E3; simpl.
    { apply Z.ltb_lt in E3. split; [discriminate|].
      intros H. inversion H as [|? ? ? ? Hv]; subst.
      unfold KolekcijaSpec.valid_window in Hv. simpl in Hv. lia. }
    apply Z.ltb_ge in E3.
    destruct ((a <=? song) && (song <=? b)) eqn:E4; simpl.
    + apply andb_true_iff in E4. rewrite !Z.leb_le in E4.
      rewrite IH. split.
      * intros H. constructor; [|assumption].
        unfold KolekcijaSpec.valid_window. simpl. lia.
      * intros H. inversion H; subst. assumption.
    + apply andb_false_iff in E4. rewrite !Z.leb_gt in E4.
      split; [discriminate|].
      intros H. inversion H as [|? ? ? ? Hv]; subst.
      unfold KolekcijaSpec.valid_window in Hv. simpl in Hv. lia.
Qed.

Lemma Forall2_valid_nonempty (n k : Z) (songs : list Z)
    (windows : list Kolekcija.interval) :
  Forall2 (KolekcijaSpec.valid_window n k) songs windows ->
  Forall (fun w => fst w <= snd w) windows.
Proof.
  induction 1 as [|song w songs windows Hv HF IH]; constructor; [|assumption].
  unfold KolekcijaSpec.valid_window in Hv. lia.
Qed.

#[export] Hint Resolve rejecting_for_range rejecting_read_song
  rejecting_parse_interval rejecting_validate : ctl.

(** C8: the KOLEKCIJA checker accepts an output exactly when the claimed
    scalar equals the expected scalar, every window has width exactly K,
    lies within [1..N] and contains its playlist entry, and the number of
    distinct integers covered by the union of the M windows equals the
    claimed scalar.  (The texts must have the format the checker reads: the
    input "N K", M and M songs; a scalar on the first line of the expected
    and of the actual output; M lines "A B" after it.) *)
Theorem kolekcija_accepts_iff (problem_id input_data expected actual : pystr) :
  accepts (checker_kolekcija problem_id input_data expected (JStr actual)) = true
  <->
  exists (n k : Z) (songs : list Z) (claimed : Z) (windows : list (Z * Z)),
    KolekcijaSpec.parse_input input_data = Some (n, k, songs)
    /\ parse_scalar expected = Some claimed
    /\ parse_scalar actual = Some claimed
    /\ KolekcijaSpec.parse_windows (length songs) actual = Some windows
    /\ Forall2 (KolekcijaSpec.valid_window n k) songs windows
    /\ distinct_covered windows = claimed.
Proof.
  unfold checker_kolekcija. rewrite accepts_guard. unfold Kolekcija.body.
  cbn [attr_strip lift cbind].
  unfold KolekcijaSpec.parse_input, parse_scalar,
    KolekcijaSpec.parse_windows.
  remember (split_nl (strip input_data)) as input_lines eqn:Hil.
  remember (split_nl (strip expected)) as expected_lines eqn:Hel.
  remember (split_nl (strip actual)) as actual_lines eqn:Hal.
  clear Hil Hel Hal.
  split.
  - intros [msg H].
    accept_step H line0 E0. apply lift_Next in E0. rewrite py_index_0 in E0.
    accept_step H t0 Et0. apply lift_Next in Et0. rewrite py_index_0 in Et0.
    accept_step H n En. apply lift_Next in En.
    accept_step H t1 Et1. apply lift_Next in Et1. rewrite py_index_1 in Et1.
    accept_step H k Ek. apply lift_Next in Ek.
    accept_step H line1 E1. apply lift_Next in E1. rewrite py_index_1 in E1.
    accept_step H m Em. apply lift_Next in Em.
    accept_step H songs Es.
    change 2 with (Z.of_nat 2) in Es.
    apply (for_range_read_block (fun l => int_of (strip l)) input_lines
             (Kolekcija.read_song input_lines)
             (read_song_Next input_lines)) in Es.
    destruct Es as (songs' & Hsongs & Es). simpl in Es. subst songs'.
    accept_step H e0 Ee0. apply lift_Next in Ee0. rewrite py_index_0 in Ee0.
    accept_step H expected_accesses Eexp. apply lift_Next in Eexp.
    accept_step H u1 Elen. clear Elen u1.
    accept_step H a0 Ea0. apply lift_Next in Ea0. rewrite py_index_0 in Ea0.
    accept_step H actual_accesses Eact. apply try_int_Next in Eact.
    accept_step H u2 Eeq. apply return_if_Next in Eeq.
    apply negb_false_iff, Z.eqb_eq in Eeq. subst actual_accesses. clear u2.
    accept_step H u3 Elen. clear Elen u3.
    accept_step H windows Ew.
    change 1 with (Z.of_nat 1) in Ew.
    apply (for_range_read_block KolekcijaSpec.parse_window actual_lines
             (Kolekcija.parse_interval actual_lines)
             (parse_interval_Next actual_lines)) in Ew.
    destruct Ew as (windows' & Hw & Ew). simpl in Ew. subst windows'.
    pose proof (read_block_length _ _ _ _ Hsongs) as Ls.
    pose proof (read_block_length _ _ _ _ Hw) as Lw.
    accept_step H u4 Ev. destruct u4.
    assert (L : length songs = length windows)
      by (transitivity (Z.to_nat m); [exact Ls | symmetry; exact Lw]).
    apply (proj1 (@validate_Next n k songs windows 0 L)) in Ev.
    accept_step H u5 Ed. apply return_if_Next in Ed.
    apply negb_false_iff, Z.eqb_eq in Ed. clear u5.
    rewrite _count_distinct_in_intervals_correct in Ed
      by (eapply Forall2_valid_nonempty; eassumption).
    exists n, k, songs, expected_accesses, windows.
    destruct input_lines as [|l0 [|l1 rest]]; try discriminate.
    injection E0 as ->. injection E1 as ->.
    destruct (split_ws line0) as [|s0 [|s1 srest]]; try discriminate.
    injection Et0 as ->. injection Et1 as ->.
    destruct expected_lines as [|x0 xrest]; try discriminate.
    injection Ee0 as ->.
    destruct actual_lines as [|y0 yrest]; try discriminate.
    injection Ea0 as ->.
    apply int_of_Some in En, Ek, Em, Eexp, Eact.
    rewrite En, Ek, Em, Hsongs, Eexp, Eact, Ls, Hw.
    repeat split; assumption.
  - intros (n & k & songs & claimed & windows & Hin & Hexp & Hact & Hw & Hv & Hd).
    exists [Lit (py "OK")].
    destruct input_lines as [|l0 [|l1 rest]]; try discriminate.
    destruct (split_ws l0) as [|s0 [|s1 srest]] eqn:Etok; try discriminate.
    destruct (int_of s0) as [n' |] eqn:En; try discriminate.
    destruct (int_of s1) as [k' |] eqn:Ek; try discriminate.
    destruct (int_of (strip l1)) as [m |] eqn:Em; try discriminate.
    destruct (read_block (fun l => int_of (strip l)) (l0 :: l1 :: rest) 2
                (Z.to_nat m)) as [songs' |] eqn:Hsongs; try discriminate.
    injection Hin as -> -> ->.
    destruct expected_lines as [|x0 xrest]; try discriminate.
    destruct (int_of (strip x0)) as [c1 |] eqn:Eexp; try discriminate.
    injection Hexp as ->.
    destruct actual_lines as [|y0 yrest]; try discriminate.
    destruct (int_of (strip y0)) as [c2 |] eqn:Eact; try discriminate.
    injection Hact as ->.
    apply int_of_Some in En, Ek, Em, Eexp, Eact.
    pose proof (read_block_length _ _ _ _ Hsongs) as Ls.
    pose proof (read_block_length _ _ _ _ Hw) as Lw.
    rewrite Ls in Hw.
    rewrite py_index_0. cbn [lift cbind]. rewrite Etok.
    rewrite py_index_0. cbn [lift cbind]. rewrite En. cbn [lift cbind].
    rewrite py_index_1. cbn [lift cbind]. rewrite Ek. cbn [lift cbind].
    rewrite py_index_1. cbn [lift cbind]. rewrite Em. cbn [lift cbind].
    assert (Es : for_range (Z.to_nat m) 2
                   (Kolekcija.read_song (l0 :: l1 :: rest)) [] = Next songs).
    { change 2 with (Z.of_nat 2).
      apply (for_range_read_block (fun l => int_of (strip l)) (l0 :: l1 :: rest)
               (Kolekcija.read_song (l0 :: l1 :: rest))
               (read_song_Next (l0 :: l1 :: rest))).
      exists songs. auto. }
    rewrite Es. cbn [cbind].
    rewrite py_index_0. cbn [lift cbind]. rewrite Eexp. cbn [lift cbind].
    assert (Elen1 : (Z.of_nat (length (y0 :: yrest)) <? 1) = false)
      by (apply Z.ltb_ge; simpl length; lia).
    rewrite Elen1. cbn [return_if cbind].
    rewrite py_index_0. cbn [lift cbind try_except]. rewrite Eact.
    cbn [lift cbind try_except]. rewrite Z.eqb_refl. cbn [negb return_if cbind].
    assert (Elen2 : (Z.of_nat (length (y0 :: yrest)) <? m + 1) = false).
    { apply Z.ltb_ge.
      destruct (read_block_bound _ _ _ _ Hw) as [H0 | Hb]; simpl length in *; lia. }
    rewrite Elen2. cbn [return_if cbind].
    assert (Ew : for_range (Z.to_nat m) 1
                   (Kolekcija.parse_interval (y0 :: yrest)) [] = Next windows).
    { change 1 with (Z.of_nat 1).
      apply (for_range_read_block KolekcijaSpec.parse_window (y0 :: yrest)
               (Kolekcija.parse_interval (y0 :: yrest))
               (parse_interval_Next (y0 :: yrest))).
      exists windows. auto. }
    rewrite Ew. cbn [cbind].
    assert (Ev : Kolekcija.validate n k 0 songs windows = Next tt)
      by (apply validate_Next; [symmetry; exact Lw | assumption]).
    rewrite Ev. cbn [cbind].
    rewrite _count_distinct_in_intervals_correct
      by (eapply Forall2_valid_nonempty; eassumption).
    rewrite Hd, Z.eqb_refl. reflexivity.
Qed.

(** The worked example: N=10, K=3, playlist 5 6 7, claimed cost 5 with
    windows (4,6) (5,7) (6,8) is accepted; a window of width 4 is rejected,
    citing the length. *)
Example kolekcija_example_accepted :
  checker_kolekcija (py "kolekcija") Examples.kolekcija_input
    Examples.kolekcija_expected (JStr Examples.kolekcija_good)
  = Ok (true, [Lit (py "OK")]).
Proof. vm_compute. reflexivity. Qed.

Example kolekcija_example_wrong_width :
  checker_kolekcija (py "kolekcija") Examples.kolekcija_input
    Examples.kolekcija_expected (JStr Examples.kolekcija_wrong_width)
  = Ok (false, [Lit (py "Interval "); IntArg 1; Lit (py " has length ");
                IntArg 4; Lit (py ", expected "); IntArg 3]).
Proof. vm_compute. reflexivity. Qed.

(** ** The REZ checker *)

Lemma on_boundary_iff (x y : Z) :
  Rez.on_boundary x y = true <-> RezSpec.on_square_boundary x y.
Proof.
  unfold Rez.on_boundary, RezSpec.on_square_boundary. rewrite Z.eqb_eq. lia.
Qed.

(** On integers the near-zero determinant test is the test for zero. *)
Lemma near_zero_iff (denom : Z) : Rez.near_zero denom = true <-> denom = 0.
Proof.
  unfold Rez.near_zero, Rez.denom_tol_num, Rez.denom_tol_log2_den.
  rewrite Z.ltb_lt.
  change (2 ^ 86) with 77371252455336267181195264. lia.
Qed.

Lemma parse_cut_Next (lines : list pystr) (i : nat) (acc res : list Rez.cut) :
  Rez.parse_cut lines (Z.of_nat i) acc = Next res <->
  exists line c, nth_error lines i = Some line
                 /\ RezSpec.parse_cut line = Some c /\ res = acc ++ [c].
Proof.
  unfold Rez.parse_cut. rewrite py_index_nat.
  destruct (nth_error lines i) as [line|]; simpl.
  2:{ split; [discriminate|]. intros (l & y & Hl & _). discriminate. }
  transitivity (exists c, RezSpec.parse_cut line = Some c /\ res = acc ++ [c]).
  2:{ split.
      - intros (c & Hc & Hr). exists line, c. auto.
      - intros (l & c & Hl & Hc & Hr). injection Hl as <-. exists c. auto. }
  remember (RezSpec.parse_cut line) as pc eqn:Hpc.
  unfold RezSpec.parse_cut, int_of in Hpc.
  destruct (split_ws (strip line)) as [|p0 [|p1 [|p2 [|p3 [|p4 ps]]]]]; simpl;
    subst pc;
    try (split; [discriminate | intros (c & Hc & _); discriminate]).
  destruct (py_int p0) as [x1 | e]; simpl.
  2:{ split; [destruct (Rez.is_Value_or_IndexError e); discriminate|].
      intros (c & Hc & _). discriminate. }
  destruct (py_int p1) as [y1 | e]; simpl.
  2:{ split; [destruct (Rez.is_Value_or_IndexError e); discriminate|].
      intros (c & Hc & _). discriminate. }
  destruct (py_int p2) as [x2 | e]; simpl.
  2:{ split; [destruct (Rez.is_Value_or_IndexError e); discriminate|].
      intros (c & Hc & _). discriminate. }
  destruct (py_int p3) as [y2 | e]; simpl.
  2:{ split; [destruct (Rez.is_Value_or_IndexError e); discriminate|].
      intros (c & Hc & _). discriminate. }
  split.
  - intros H. injection H as <-. exists (x1, y1, x2, y2). auto.
  - intros (c & Hc & ->). injection Hc as <-. reflexivity.
Qed.

Lemma rejecting_parse_cut (lines : list pystr) (i : Z) (acc : list Rez.cut) :
  rejecting (Rez.parse_cut lines i acc).
Proof.
  unfold Rez.parse_cut. intros m.
  destruct (py_index lines i) as [line | e]; simpl.
  - destruct (split_ws (strip line)) as [|p0 [|p1 [|p2 [|p3 [|p4 ps]]]]]; simpl;
      try discriminate.
    destruct (py_int p0) as [? | e]; simpl;
      [|destruct (Rez.is_Value_or_IndexError e); discriminate].
    destruct (py_int p1) as [? | e]; simpl;
      [|destruct (Rez.is_Value_or_IndexError e); discriminate].
    destruct (py_int p2) as [? | e]; simpl;
      [|destruct (Rez.is_Value_or_IndexError e); discriminate].
    destruct (py_int p3) as [? | e]; simpl;
      [|destruct (Rez.is_Value_or_IndexError e); discriminate].
    discriminate.
  - destruct (Rez.is_Value_or_IndexError e); discriminate.
Qed.

Lemma rejecting_check_boundary (cuts : list Rez.cut) :
  forall i, rejecting (Rez.check_boundary i cuts).
Proof.
  induction cuts as [|[[[x1 y1] x2] y2] cuts IH]; intros i m; simpl.
  - discriminate.
  - destruct (Rez.on_boundary x1 y1); simpl; [|discriminate].
    destruct (Rez.on_boundary x2 y2); simpl; [|discriminate].
    apply IH.
Qed.

Lemma check_boundary_Next (cuts : list Rez.cut) :
  forall i, Rez.check_boundary i cuts = Next tt
            <-> Forall RezSpec.cut_on_boundary cuts.
Proof.
  induction cuts as [|[[[x1 y1] x2] y2] cuts IH]; intros i; simpl.
  - split; [constructor | reflexivity].
  - destruct (Rez.on_boundary x1 y1) eqn:E1; simpl.
    2:{ split; [discriminate|]. intros H. inversion H as [|? ? Hc _]; subst.
        destruct Hc as [H1 _]. apply on_boundary_iff in H1. congruence. }
    destruct (Rez.on_boundary x2 y2) eqn:E2; simpl.
    2:{ split; [discriminate|]. intros H. inversion H as [|? ? Hc _]; subst.
        destruct Hc as [_ H2]. apply on_boundary_iff in H2. congruence. }
    rewrite IH. split.
    + intros H. constructor; [|assumption].
      split; apply on_boundary_iff; assumption.
    + intros H. inversion H; subst. assumption.
Qed.

#[export] Hint Resolve rejecting_parse_cut rejecting_check_boundary : ctl.


(** The worked example: K=4 and the two diagonals, or the two axes, give
    4 pieces and are accepted; an end point (4999, 0) is rejected. *)
Example rez_example_accepted :
  checker_rez (py "rez") Examples.rez_input Examples.rez_expected
    (JStr Examples.rez_good)
  = Ok (true, [Lit (py "OK")])
  /\ checker_rez (py "rez") Examples.rez_input Examples.rez_expected
       (JStr Examples.rez_expected)
     = Ok (true, [Lit (py "OK")]).
Proof. split; vm_compute; reflexivity. Qed.

Example rez_example_off_boundary :
  checker_rez (py "rez") Examples.rez_input Examples.rez_expected
    (JStr Examples.rez_off_boundary)
  = Ok (false, [Lit (py "Cut "); IntArg 1; Lit (py " endpoint ("); IntArg 4999;
                Lit (py ", "); IntArg 0; Lit (py ") not on boundary")]).
Proof. vm_compute. reflexivity. Qed.

(** ** The PASTELE checker *)

Lemma norm_index_in_range (len i : Z) :
  0 <= i < len -> norm_index len i = Ok i.
Proof.
  intros H. unfold norm_index.
  destruct (i <? 0) eqn:E; [apply Z.ltb_lt in E; lia|].
  assert (E1 : (0 <=? i) = true) by (apply Z.leb_le; lia).
  assert (E2 : (i <? len) = true) by (apply Z.ltb_lt; lia).
  rewrite E1, E2. reflexivity.
Qed.

Lemma count_get_in_range (c : Pastele.cells) (r g b : Z) :
  0 <= r < 256 -> 0 <= g < 256 -> 0 <= b < 256 ->
  Pastele.count_get c r g b = Ok (c r g b).
Proof.
  intros Hr Hg Hb. unfold Pastele.count_get.
  rewrite !norm_index_in_range by assumption. reflexivity.
Qed.

Lemma count_add_in_range (c : Pastele.cells) (r g b d : Z) :
  0 <= r < 256 -> 0 <= g < 256 -> 0 <= b < 256 ->
  Pastele.count_add c r g b d = Ok (Pastele.cells_set c r g b (c r g b + d)).
Proof.
  intros Hr Hg Hb. unfold Pastele.count_add.
  rewrite !norm_index_in_range by assumption. reflexivity.
Qed.

Lemma cells_set_same (c : Pastele.cells) (r g b v : Z) :
  Pastele.cells_set c r g b v r g b = v.
Proof. unfold Pastele.cells_set. rewrite !Z.eqb_refl. reflexivity. Qed.

Lemma cells_set_other (c : Pastele.cells) (r g b v r' g' b' : Z) :
  (r', g', b') <> (r, g, b) ->
  Pastele.cells_set c r g b v r' g' b' = c r' g' b'.
Proof.
  intros H. unfold Pastele.cells_set.
  destruct (r' =? r) eqn:Er; [|reflexivity].
  destruct (g' =? g) eqn:Eg; [|reflexivity].
  destruct (b' =? b) eqn:Eb; [|reflexivity].
  apply Z.eqb_eq in Er, Eg, Eb. subst. contradiction.
Qed.

Lemma unpack3_int_Ok (tokens : list pystr) (t : PasteleSpec.crayon) :
  unpack3_int tokens = Ok t -> PasteleSpec.parse_tokens tokens = Some t.
Proof.
  unfold PasteleSpec.parse_tokens, int_of.
  destruct tokens as [|p0 [|p1 [|p2 [|p3 ps]]]]; simpl;
    repeat match goal with
           | |- context [py_int ?p] => destruct (py_int p); simpl
           end; try discriminate.
  intros H. injection H as <-. reflexivity.
Qed.

Lemma unpack2_int_Ok (t0 t1 : pystr) (n k : Z) :
  int_of t0 = Some n -> int_of t1 = Some k ->
  unpack2_int [t0; t1] = Ok (n, k).
Proof.
  intros H0 H1. apply int_of_Some in H0, H1. simpl. rewrite H0, H1. reflexivity.
Qed.

Lemma rejecting_load_crayon (lines : list pystr) (i : Z) (c : Pastele.cells) :
  rejecting (Pastele.load_crayon lines i c).
Proof.
  unfold Pastele.load_crayon. apply rejecting_cbind; [auto with ctl|].
  intros line. apply rejecting_cbind; [auto with ctl|].
  intros [[r g] b]. auto with ctl.
Qed.

Lemma rejecting_use_crayon (lines : list pystr) (i : Z) (st : Pastele.state) :
  rejecting (Pastele.use_crayon lines i st).
Proof.
  unfold Pastele.use_crayon. apply rejecting_cbind; [auto with ctl|].
  intros line m.
  destruct (split_ws (strip line)) as [|p0 [|p1 [|p2 [|p3 ps]]]]; try discriminate.
  destruct (py_int p0) as [r|]; simpl; [|discriminate].
  destruct (py_int p1) as [g|]; simpl; [|discriminate].
  destruct (py_int p2) as [b|]; simpl; [|discriminate].
  destruct (negb _); [discriminate|].
  destruct (Pastele.count_get _ r g b) as [avail|]; simpl; [|discriminate].
  destruct (avail <=? 0); [discriminate|].
  destruct (Pastele.count_add _ r g b (-1)); simpl; discriminate.
Qed.

#[export] Hint Resolve rejecting_load_crayon rejecting_use_crayon : ctl.

(** One iteration of the loading loop. *)
Lemma load_crayon_Next (lines : list pystr) (i : nat) (c0 c1 : Pastele.cells) :
  Pastele.load_crayon lines (Z.of_nat i) c0 = Next c1 ->
  exists line r g b,
    nth_error lines i = Some line
    /\ PasteleSpec.parse_tokens (split_ws line) = Some (r, g, b)
    /\ Pastele.count_add c0 r g b 1 = Ok c1.
Proof.
  unfold Pastele.load_crayon. rewrite py_index_nat.
  destruct (nth_error lines i) as [line|]; simpl; [|discriminate].
  destruct (unpack3_int (split_ws line)) as [[[r g] b]|] eqn:E; simpl;
    [|discriminate].
  intros H. apply lift_Next in H. exists line, r, g, b.
  split; [reflexivity|]. split; [apply unpack3_int_Ok; assumption | assumption].
Qed.

(** One iteration of the loop over the claimed crayons. *)
Lemma use_crayon_Next (lines : list pystr) (i : nat) (st0 st1 : Pastele.state) :
  Pastele.use_crayon lines (Z.of_nat i) st0 = Next st1 ->
  exists line r g b,
    nth_error lines i = Some line
    /\ PasteleSpec.parse_tokens (split_ws (strip line)) = Some (r, g, b)
    /\ PasteleSpec.in_domain (r, g, b)
    /\ 0 < Pastele.count st0 r g b
    /\ st1 = Pastele.mkState
               (Pastele.cells_set (Pastele.count st0) r g b
                  (Pastele.count st0 r g b + -1))
               (Z.min (Pastele.min_r st0) r) (Z.min (Pastele.min_g st0) g)
               (Z.min (Pastele.min_b st0) b)
               (Z.max (Pastele.max_r st0) r) (Z.max (Pastele.max_g st0) g)
               (Z.max (Pastele.max_b st0) b).
Proof.
  unfold Pastele.use_crayon. rewrite py_index_nat.
  destruct (nth_error lines i) as [line|]; simpl; [|discriminate].
  destruct (split_ws (strip line)) as [|p0 [|p1 [|p2 [|p3 ps]]]] eqn:Et;
    try discriminate.
  destruct (py_int p0) as [r|] eqn:E0; simpl; [|discriminate].
  destruct (py_int p1) as [g|] eqn:E1; simpl; [|discriminate].
  destruct (py_int p2) as [b|] eqn:E2; simpl; [|discriminate].
  destruct ((0 <=? r) && (r <? 256) && (0 <=? g) && (g <? 256)
            && (0 <=? b) && (b <? 256)) eqn:Erange; simpl; [|discriminate].
  repeat (apply andb_true_iff in Erange; destruct Erange as [Erange ?]).
  repeat match goal with
         | H : (_ <=? _) = true |- _ => apply Z.leb_le in H
         | H : (_ <? _) = true |- _ => apply Z.ltb_lt in H
         end.
  rewrite count_get_in_range by lia. simpl.
  destruct (Pastele.count st0 r g b <=? 0) eqn:Eavail; [discriminate|].
  apply Z.leb_gt in Eavail.
  rewrite count_add_in_range by lia. simpl.
  intros Hst. injection Hst as <-.
  exists line, r, g, b. split; [reflexivity|]. split.
  { rewrite Et. unfold PasteleSpec.parse_tokens.
    apply int_of_Some in E0, E1, E2. rewrite E0, E1, E2. reflexivity. }
  split.
  { unfold PasteleSpec.in_domain, PasteleSpec.red, PasteleSpec.green,
      PasteleSpec.blue. simpl. lia. }
  split; [assumption | reflexivity].
Qed.

Lemma count_occ_cons_Z (t c : PasteleSpec.crayon) (cs : list PasteleSpec.crayon) :
  Z.of_nat (count_occ PasteleSpec.crayon_eq_dec (t :: cs) c)
  = (if PasteleSpec.crayon_eq_dec t c then 1 else 0)
    + Z.of_nat (count_occ PasteleSpec.crayon_eq_dec cs c).
Proof. simpl. destruct (PasteleSpec.crayon_eq_dec t c); lia. Qed.

(** The loading loop leaves in every cell the multiplicity of its triple. *)
Lemma load_loop (lines : list pystr) (n : nat) :
  forall (i : nat) (c0 c : Pastele.cells),
    for_range n (Z.of_nat i) (Pastele.load_crayon lines) c0 = Next c ->
    exists cs,
      read_block (fun l => PasteleSpec.parse_tokens (split_ws l)) lines i n
        = Some cs
      /\ (Forall PasteleSpec.in_domain cs ->
          forall r g b,
            c r g b = c0 r g b
                      + Z.of_nat (count_occ PasteleSpec.crayon_eq_dec cs (r, g, b))).
Proof.
  induction n as [|n IH]; intros i c0 c H.
  - simpl in H. injection H as <-. exists []. split; [reflexivity|].
    intros _ r g b. simpl. lia.
  - cbn [for_range] in H.
    replace (Z.of_nat i + 1) with (Z.of_nat (S i)) in H by lia.
    destruct (Pastele.load_crayon lines (Z.of_nat i) c0) as [c1| |] eqn:E;
      cbn [cbind] in H; try discriminate.
    apply load_crayon_Next in E. destruct E as (line & r & g & b & Hl & Hp & Hc).
    destruct (IH _ _ _ H) as (cs & Hcs & Hcount).
    exists ((r, g, b) :: cs). cbn [read_block]. rewrite Hl, Hp, Hcs.
    split; [reflexivity|].
    intros HF r' g' b'. inversion HF as [|? ? Hd HF']; subst.
    unfold PasteleSpec.in_domain, PasteleSpec.red, PasteleSpec.green,
      PasteleSpec.blue in Hd. simpl in Hd.
    rewrite count_add_in_range in Hc by lia. injection Hc as <-.
    rewrite (Hcount HF'), count_occ_cons_Z.
    destruct (PasteleSpec.crayon_eq_dec (r, g, b) (r', g', b')) as [Heq | Hneq].
    + injection Heq as <- <- <-. rewrite cells_set_same. lia.
    + rewrite cells_set_other by congruence. lia.
Qed.

(** The loop over the claimed crayons: what it consumed, and the extents. *)
Lemma use_loop (lines : list pystr) (n : nat) :
  forall (i : nat) (st0 st : Pastele.state),
    for_range n (Z.of_nat i) (Pastele.use_crayon lines) st0 = Next st ->
    (forall r g b, 0 <= Pastele.count st0 r g b) ->
    exists cs,
      read_block (fun l => PasteleSpec.parse_tokens (split_ws (strip l))) lines i n
        = Some cs
      /\ Forall PasteleSpec.in_domain cs
      /\ (forall r g b,
            Pastele.count st r g b
            = Pastele.count st0 r g b
              - Z.of_nat (count_occ PasteleSpec.crayon_eq_dec cs (r, g, b)))
      /\ (forall r g b, 0 <= Pastele.count st r g b)
      /\ Pastele.min_r st = fold_left Z.min (map PasteleSpec.red cs) (Pastele.min_r st0)
      /\ Pastele.min_g st = fold_left Z.min (map PasteleSpec.green cs) (Pastele.min_g st0)
      /\ Pastele.min_b st = fold_left Z.min (map PasteleSpec.blue cs) (Pastele.min_b st0)
      /\ Pastele.max_r st = fold_left Z.max (map PasteleSpec.red cs) (Pastele.max_r st0)
      /\ Pastele.max_g st = fold_left Z.max (map PasteleSpec.green cs) (Pastele.max_g st0)
      /\ Pastele.max_b st = fold_left Z.max (map PasteleSpec.blue cs) (Pastele.max_b st0).
Proof.
  induction n as [|n IH]; intros i st0 st H Hpos.
  - simpl in H. injection H as <-. exists []. simpl.
    repeat split; try reflexivity; try constructor.
    + intros. lia.
    + assumption.
  - cbn [for_range] in H.
    replace (Z.of_nat i + 1) with (Z.of_nat (S i)) in H by lia.
    destruct (Pastele.use_crayon lines (Z.of_nat i) st0) as [st1| |] eqn:E;
      cbn [cbind] in H; try discriminate.
    apply use_crayon_Next in E.
    destruct E as (line & r & g & b & Hl & Hp & Hd & Havail & ->).
    match type of H with
    | for_range _ _ _ ?s = _ => set (st1 := s) in *
    end.
    assert (Hpos1 : forall r' g' b', 0 <= Pastele.count st1 r' g' b').
    { intros r' g' b'. subst st1. cbn [Pastele.count].
      destruct (PasteleSpec.crayon_eq_dec (r', g', b') (r, g, b)) as [Heq | Hneq].
      - injection Heq as -> -> ->. rewrite cells_set_same. lia.
      - rewrite cells_set_other by assumption. apply Hpos. }
    destruct (IH _ _ _ H Hpos1)
      as (cs & Hcs & HF & Hcount & Hpos' & Hmr & Hmg & Hmb & HMr & HMg & HMb).
    exists ((r, g, b) :: cs). cbn [read_block]. rewrite Hl, Hp, Hcs.
    split; [reflexivity|]. split; [constructor; assumption|].
    split.
    { intros r' g' b'. rewrite Hcount, count_occ_cons_Z. subst st1.
      cbn [Pastele.count].
      destruct (PasteleSpec.crayon_eq_dec (r, g, b) (r', g', b')) as [Heq | Hneq].
      - injection Heq as <- <- <-. rewrite cells_set_same. lia.
      - rewrite cells_set_other by congruence. lia. }
    split; [assumption|].
    subst st1. cbn [Pastele.min_r Pastele.min_g Pastele.min_b Pastele.max_r
                    Pastele.max_g Pastele.max_b] in *.
    cbn [map fold_left PasteleSpec.red PasteleSpec.green PasteleSpec.blue fst snd].
    repeat split; assumption.
Qed.

Lemma fold_min_extent (x : Z) (t : list Z) (init : Z) :
  x <= init -> fold_left Z.min (x :: t) init = fold_right Z.min x t.
Proof.
  intros H. cbn [fold_left]. rewrite Z.min_r by assumption.
  apply fold_symmetric.
  - intros a b c. apply Z.min_assoc.
  - intros y. apply Z.min_comm.
Qed.

Lemma fold_max_extent (x : Z) (t : list Z) (init : Z) :
  init <= x -> fold_left Z.max (x :: t) init = fold_right Z.max x t.
Proof.
  intros H. cbn [fold_left]. rewrite Z.max_r by assumption.
  apply fold_symmetric.
  - intros a b c. apply Z.max_assoc.
  - intros y. apply Z.max_comm.
Qed.

(** C6: the PASTELE checker accepts only an output whose K claimed crayons
    are drawn from the input multiset (no triple absent from the input, none
    used more often than the input has it) and whose claimed colorfulness
    equals both the expected one and the maximum per-channel extent of the
    K claimed crayons; every other output is rejected.  The input is the one
    of the problem: N and K on the first line with 1 <= K, then N crayons
    with components in [0, 255]. *)
Theorem pastele_accepts_only_valid_claims
    (problem_id input_data expected actual : pystr)
    (k : Z) (crayons : list PasteleSpec.crayon) :
  PasteleSpec.parse_input input_data = Some (k, crayons) ->
  Forall PasteleSpec.in_domain crayons ->
  0 < k ->
  accepts (checker_pastele problem_id input_data expected (JStr actual)) = true ->
  exists (c : Z) (claimed : list PasteleSpec.crayon),
    parse_scalar expected = Some c
    /\ parse_scalar actual = Some c
    /\ PasteleSpec.parse_claim k actual = Some claimed
    /\ length claimed = Z.to_nat k
    /\ Forall PasteleSpec.in_domain claimed
    /\ PasteleSpec.drawn_from claimed crayons
    /\ c = PasteleSpec.colorfulness claimed.
Proof.
  intros Hin Hdom Hk Hacc.
  unfold checker_pastele in Hacc. apply accepts_guard in Hacc.
  destruct Hacc as [msg H].
  unfold Pastele.body in H. cbn [attr_strip lift cbind] in H.
  unfold PasteleSpec.parse_input in Hin.
  unfold parse_scalar, PasteleSpec.parse_claim.
  remember (split_nl (strip input_data)) as input_lines eqn:Hil.
  remember (split_nl (strip expected)) as expected_lines eqn:Hel.
  remember (split_nl (strip actual)) as actual_lines eqn:Hal.
  clear Hil Hel Hal.
  destruct input_lines as [|l0 rest]; [discriminate|].
  destruct (split_ws l0) as [|t0 [|t1 [|t2 ts]]] eqn:Etok; try discriminate.
  destruct (int_of t0) as [n|] eqn:En; try discriminate.
  destruct (int_of t1) as [k'|] eqn:Ek; try discriminate.
  destruct (read_block (fun l => PasteleSpec.parse_tokens (split_ws l))
              (l0 :: rest) 1 (Z.to_nat n)) as [crayons'|] eqn:Hcs;
    try discriminate.
  injection Hin as -> ->.
  rewrite py_index_0 in H. cbn [lift cbind] in H.
  rewrite Etok, (unpack2_int_Ok _ _ En Ek) in H. cbn [lift cbind] in H.
  (* the counting array after the input has been read *)
  accept_step H c Ec. change 1 with (Z.of_nat 1) in Ec.
  apply load_loop in Ec. destruct Ec as (cs & Hcs' & Hcount).
  rewrite Hcs in Hcs'. injection Hcs' as <-. specialize (Hcount Hdom).
  (* the scalars *)
  accept_step H e0 Ee0. apply lift_Next in Ee0. rewrite py_index_0 in Ee0.
  accept_step H expected_colorfulness Eexp. apply lift_Next in Eexp.
  accept_step H u1 Elen. clear Elen u1.
  accept_step H a0 Ea0. apply lift_Next in Ea0. rewrite py_index_0 in Ea0.
  accept_step H actual_colorfulness Eact. apply try_int_Next in Eact.
  accept_step H u2 Eeq. apply return_if_Next in Eeq.
  apply negb_false_iff, Z.eqb_eq in Eeq. subst actual_colorfulness. clear u2.
  accept_step H u3 Elen. clear Elen u3.
  (* the claimed crayons *)
  accept_step H st Est. change 1 with (Z.of_nat 1) in Est.
  apply use_loop in Est.
  2:{ intros r g b. cbn [Pastele.init_state Pastele.count].
      rewrite Hcount. unfold Pastele.cells_zero. lia. }
  destruct Est as (claimed & Hcl & HFc & Hused & Hpos
                   & Hmr & Hmg & Hmb & HMr & HMg & HMb).
  cbn [Pastele.init_state Pastele.count Pastele.min_r Pastele.min_g
       Pastele.min_b Pastele.max_r Pastele.max_g Pastele.max_b]
    in Hused, Hmr, Hmg, Hmb, HMr, HMg, HMb.
  accept_step H u4 Ecomp. apply return_if_Next in Ecomp.
  apply negb_false_iff, Z.eqb_eq in Ecomp. clear u4 H.
  pose proof (read_block_length _ _ _ _ Hcl) as Lc.
  exists expected_colorfulness, claimed.
  destruct expected_lines as [|x0 xrest]; try discriminate.
  injection Ee0 as ->.
  destruct actual_lines as [|y0 yrest]; try discriminate.
  injection Ea0 as ->.
  apply int_of_Some in Eexp, Eact.
  split; [assumption|]. split; [assumption|]. split; [assumption|].
  split; [assumption|]. split; [assumption|]. split.
  - intros [[r g] b]. specialize (Hused r g b). specialize (Hpos r g b).
    rewrite Hcount in Hused. unfold Pastele.cells_zero in Hused. lia.
  - destruct claimed as [|[[r g] b] t]; [simpl in Lc; lia|].
    pose proof (Forall_inv HFc) as Hd.
    unfold PasteleSpec.in_domain, PasteleSpec.red, PasteleSpec.green,
      PasteleSpec.blue in Hd. simpl in Hd.
    cbn [map] in Hmr, Hmg, Hmb, HMr, HMg, HMb.
    rewrite fold_min_extent in Hmr, Hmg, Hmb
      by (unfold PasteleSpec.red, PasteleSpec.green, PasteleSpec.blue; simpl; lia).
    rewrite fold_max_extent in HMr, HMg, HMb
      by (unfold PasteleSpec.red, PasteleSpec.green, PasteleSpec.blue; simpl; lia).
    rewrite <- Ecomp, Hmr, Hmg, Hmb, HMr, HMg, HMb.
    reflexivity.
Qed.

Lemma pastele_accepts_only_valid_claims_witness :
  exists (c : Z) (claimed : list PasteleSpec.crayon),
    parse_scalar Examples.pastele_expected = Some c
    /\ parse_scalar Examples.pastele_good = Some c
    /\ PasteleSpec.parse_claim 2 Examples.pastele_good = Some claimed
    /\ length claimed = Z.to_nat 2
    /\ Forall PasteleSpec.in_domain claimed
    /\ PasteleSpec.drawn_from claimed
         [(0, 0, 0); (10, 10, 10); (100, 100, 100); (200, 200, 200)]
    /\ c = PasteleSpec.colorfulness claimed.
Proof.
  apply (pastele_accepts_only_valid_claims (py "pastele")
           Examples.pastele_input Examples.pastele_expected
           Examples.pastele_good (k := 2)
           (crayons := [(0, 0, 0); (10, 10, 10); (100, 100, 100); (200, 200, 200)])).
  - vm_compute. reflexivity.
  - repeat constructor; vm_compute; discriminate.
  - lia.
  - vm_compute. reflexivity.
Defined.

(** The worked examples: a crayon absent from the input, and a crayon used
    twice although the input has it once, are rejected with the
    availability message. *)
Example pastele_example_rejected :
  checker_pastele (py "pastele") Examples.pastele_input
    Examples.pastele_expected (JStr Examples.pastele_absent)
  = Ok (false, [Lit (py "Crayon ("); IntArg 10; Lit (py ", "); IntArg 10;
                Lit (py ", "); IntArg 9;
                Lit (py ") not available (not in input or already used)")])
  /\ checker_pastele (py "pastele") Examples.pastele_input (py "0")
       (JStr Examples.pastele_reused)
     = Ok (false, [Lit (py "Crayon ("); IntArg 0; Lit (py ", "); IntArg 0;
                   Lit (py ", "); IntArg 0;
                   Lit (py ") not available (not in input or already used)")]).
Proof. split; vm_compute; reflexivity. Qed.

(** ** More on the normalizer *)

Lemma drop_end_app_all {A} (p : A -> bool) (l w : list A) :
  forallb p w = true -> drop_end p (l ++ w) = drop_end p l.
Proof.
  intros Hw. induction l as [|x t IH]; simpl.
  - apply drop_end_nil_iff. assumption.
  - rewrite IH. reflexivity.
Qed.

Lemma drop_end_fixed_last {A} (p : A -> bool) (d : A) (l : list A) :
  l <> [] -> (drop_end p l = l <-> p (last l d) = false).
Proof.
  induction l as [|x t IH]; [congruence|]. intros _.
  destruct t as [|y u].
  - simpl. destruct (p x); split; congruence.
  - change (last (x :: y :: u) d) with (last (y :: u) d).
    rewrite <- IH by discriminate.
    change (drop_end p (x :: y :: u)) with
      (match drop_end p (y :: u) with
       | [] => if p x then [] else [x]
       | r => x :: r
       end).
    destruct (drop_end p (y :: u)) as [|z r] eqn:E.
    + destruct (p x); split; discriminate.
    + split; congruence.
Qed.

Lemma trimmed_lines_rstrip (s : pystr) :
  trimmed_lines (rstrip s) = trimmed_lines s.
Proof.
  unfold trimmed_lines at 1. rewrite rstrip_lines.
  destruct (trimmed_lines s) as [|l ls] eqn:E; [reflexivity|].
  cbn [nonempty_or]. rewrite <- E. unfold trimmed_lines. apply drop_end_idem.
Qed.

Lemma normalize_output_trimmed (s : pystr) :
  GradingServer.normalize_output s = join_nl (trimmed_lines s).
Proof.
  change (GradingServer.normalize_output s) with (join_nl (kept_lines s)).
  rewrite kept_lines_trimmed. reflexivity.
Qed.

Lemma kept_lines_join_kept (s : pystr) :
  kept_lines (join_nl (kept_lines s)) = kept_lines s.
Proof.
  unfold kept_lines at 1. apply normalize_fixpoint.
  - apply kept_lines_no_nl.
  - apply kept_lines_rstripped.
  - apply drop_end_idem.
Qed.

Lemma clean_normalize (s : pystr) : clean s -> GradingServer.normalize_output s = s.
Proof.
  intros [Hr Hl].
  change (GradingServer.normalize_output s) with (join_nl (kept_lines s)).
  destruct Hl as [-> | Hl]; [reflexivity|].
  rewrite <- (join_split s) at 1. unfold kept_lines.
  rewrite normalize_fixpoint.
  - apply join_split.
  - apply split_nl_no_nl.
  - assumption.
  - apply (drop_end_fixed_last is_empty []); [apply split_nl_nonempty|].
    destruct (last (split_nl s) []); [congruence | reflexivity].
Qed.

Lemma normalize_clean (s : pystr) : clean (GradingServer.normalize_output s).
Proof.
  change (GradingServer.normalize_output s) with (join_nl (kept_lines s)).
  destruct (kept_lines s) as [|l ls] eqn:E.
  - split; [repeat constructor | left; reflexivity].
  - rewrite <- E.
    assert (Hs : split_nl (join_nl (kept_lines s)) = kept_lines s).
    { apply split_join; [congruence | apply kept_lines_no_nl]. }
    split.
    + rewrite Hs. apply kept_lines_rstripped.
    + right. rewrite Hs.
      assert (Hd : drop_end is_empty (kept_lines s) = kept_lines s)
        by apply drop_end_idem.
      apply (drop_end_fixed_last is_empty []) in Hd; [|congruence].
      intros Hnil. rewrite Hnil in Hd. discriminate.
Qed.

(** X1: Trailing whitespace of the whole output does not matter to the
    normalizer: spaces, tabs, carriage returns and line breaks appended to
    an output leave its normal form unchanged, in the verdict service and in
    the runner. *)
Theorem normalize_output_ignores_trailing_whitespace (s w : pystr) :
  blank w = true ->
  GradingServer.normalize_output (s ++ w) = GradingServer.normalize_output s
  /\ Runner._normalize_output (s ++ w) = Runner._normalize_output s.
Proof.
  intros Hw.
  assert (H : GradingServer.normalize_output (s ++ w)
              = GradingServer.normalize_output s).
  { rewrite !normalize_output_trimmed.
    rewrite <- (trimmed_lines_rstrip (s ++ w)), <- (trimmed_lines_rstrip s).
    unfold rstrip. rewrite drop_end_app_all by exact Hw. reflexivity. }
  split; exact H.
Qed.

Lemma normalize_output_ignores_trailing_whitespace_witness :
  blank (py " " ++ [CR; LF; LF]) = true
  /\ GradingServer.normalize_output (py "42" ++ (py " " ++ [CR; LF; LF]))
     = GradingServer.normalize_output (py "42").
Proof.
  split; [reflexivity|].
  apply (normalize_output_ignores_trailing_whitespace (py "42")
           (py " " ++ [CR; LF; LF])).
  reflexivity.
Defined.

(** X2: The texts the normalizer leaves unchanged are exactly the clean ones
    (every line right-trimmed, no empty last line), and every normalized
    output is clean. *)
Theorem normalize_output_fixed_points (s : pystr) :
  (GradingServer.normalize_output s = s <-> clean s)
  /\ clean (GradingServer.normalize_output s)
  /\ clean (Runner._normalize_output s).
Proof.
  split; [|split; apply normalize_clean].
  split.
  - intros H. rewrite <- H. apply normalize_clean.
  - apply clean_normalize.
Qed.

(** ** The counting functions of the REZ and KOLEKCIJA checkers *)

Lemma crosses_parallel (c1 c2 : Rez.cut) :
  determinant c1 c2 = 0 -> Rez.crosses c1 c2 = false.
Proof.
  destruct c1 as [[[x1 y1] x2] y2], c2 as [[[x3 y3] x4] y4].
  unfold determinant, Rez.crosses, Rez.line_intersection. intros H.
  rewrite H. reflexivity.
Qed.

Lemma crosses_Some_determinant (c1 c2 : Rez.cut) :
  Rez.crosses c1 c2 = true -> determinant c1 c2 <> 0.
Proof.
  intros H E. rewrite (crosses_parallel c1 c2 E) in H. discriminate.
Qed.

Lemma count_intersections_le (cuts : list Rez.cut) :
  0 <= Rez.count_intersections cuts
  /\ Rez.count_intersections cuts
     <= Z.of_nat (length cuts) * (Z.of_nat (length cuts) - 1) / 2.
Proof.
  assert (H : 0 <= Rez.count_intersections cuts
              /\ 2 * Rez.count_intersections cuts
                 <= Z.of_nat (length cuts) * (Z.of_nat (length cuts) - 1)).
  { induction cuts as [|c rest IH]; [simpl; lia|].
    cbn [Rez.count_intersections].
    pose proof (filter_length_le (Rez.crosses c) rest) as Hf.
    replace (Z.of_nat (length (c :: rest)))
      with (Z.of_nat (length rest) + 1) by (simpl length; lia).
    nia. }
  destruct H as [H0 H2]. split; [assumption|].
  apply Z.div_le_lower_bound; lia.
Qed.

Lemma count_intersections_zero (cuts : list Rez.cut) :
  ForallOrdPairs (fun c1 c2 => determinant c1 c2 = 0) cuts ->
  Rez.count_intersections cuts = 0.
Proof.
  induction 1 as [|c rest Hc Hrest IH]; [reflexivity|].
  cbn [Rez.count_intersections]. rewrite IH.
  assert (Hf : filter (Rez.crosses c) rest = []).
  { clear IH Hrest. induction Hc as [|d rest Hd Hc IH]; [reflexivity|].
    simpl. rewrite (crosses_parallel c d Hd). exact IH. }
  rewrite Hf. reflexivity.
Qed.

(** X3: Parallel cuts are never counted as crossing: when the cuts are
    pairwise parallel (in particular when one cut is repeated) the REZ
    checker counts no intersection. *)
Theorem count_intersections_parallel (cuts : list Rez.cut) :
  ForallOrdPairs (fun c1 c2 => determinant c1 c2 = 0) cuts ->
  Rez.count_intersections cuts = 0.
Proof. apply count_intersections_zero. Qed.

Lemma count_intersections_parallel_witness :
  ForallOrdPairs (fun c1 c2 => determinant c1 c2 = 0)
    [(-5000, 0, 5000, 0); (-5000, 100, 5000, 100); (-5000, 0, 5000, 0)]
  /\ Rez.count_intersections
       [(-5000, 0, 5000, 0); (-5000, 100, 5000, 100); (-5000, 0, 5000, 0)] = 0.
Proof.
  assert (H : ForallOrdPairs (fun c1 c2 => determinant c1 c2 = 0)
                [(-5000, 0, 5000, 0); (-5000, 100, 5000, 100);
                 (-5000, 0, 5000, 0)]).
  { repeat constructor. }
  split; [exact H|].
  exact (count_intersections_parallel H).
Defined.

(** *** A sorted permutation is unique *)

Lemma StronglySorted_perm_unique {A} (R : A -> A -> Prop) (l : list A) :
  forall l',
    (forall x y, In x l -> In y l -> R x y -> R y x -> x = y) ->
    StronglySorted R l -> StronglySorted R l' -> Permutation l l' -> l = l'.
Proof.
  induction l as [|a t IH]; intros l' Hanti Hs Hs' Hp.
  - apply Permutation_nil in Hp. congruence.
  - destruct l' as [|a' t'].
    { apply Permutation_sym, Permutation_nil in Hp. discriminate. }
    inversion Hs as [|? ? Hst Ha]; subst.
    inversion Hs' as [|? ? Hst' Ha']; subst.
    rewrite Forall_forall in Ha, Ha'.
    assert (Hin : In a (a' :: t'))
      by (apply (Permutation_in _ Hp); left; reflexivity).
    assert (Hin' : In a' (a :: t))
      by (apply (Permutation_in _ (Permutation_sym Hp)); left; reflexivity).
    assert (E : a = a').
    { destruct Hin as [E | Hin]; [congruence|].
      destruct Hin' as [E | Hin']; [congruence|].
      apply Hanti; [left; reflexivity | right; assumption | auto | auto]. }
    subst a'. f_equal. apply IH.
    + intros x y Hx Hy. apply Hanti; right; assumption.
    + assumption.
    + assumption.
    + eapply Permutation_cons_inv. eassumption.
Qed.

Lemma tuple_leb_antisym (x y : Kolekcija.interval) :
  Kolekcija.tuple_leb x y = true -> Kolekcija.tuple_leb y x = true -> x = y.
Proof.
  destruct x as [a b], y as [c d]. unfold Kolekcija.tuple_leb. simpl.
  rewrite !orb_true_iff, !andb_true_iff, !Z.ltb_lt, !Z.eqb_eq, !Z.leb_le.
  intros H1 H2. f_equal; lia.
Qed.

Lemma sorted_of_permutation (l1 l2 : list Kolekcija.interval) :
  Permutation l1 l2 -> Kolekcija.sorted l1 = Kolekcija.sorted l2.
Proof.
  intros Hp.
  apply (@StronglySorted_perm_unique _
           (fun x y => Kolekcija.tuple_leb x y = true)).
  - intros x y _ _. apply tuple_leb_antisym.
  - apply sorted_lexicographic.
  - apply sorted_lexicographic.
  - rewrite !sorted_perm. assumption.
Qed.

Lemma _count_distinct_via_sorted (l : list Kolekcija.interval) :
  Kolekcija._count_distinct_in_intervals l
  = match Kolekcija.sorted l with
    | [] => 0
    | (curr_start, curr_end) :: rest =>
        let '(merged, curr_start, curr_end) :=
          fold_left Kolekcija.merge_step rest ([], curr_start, curr_end) in
        Kolekcija.sum_lengths (merged ++ [(curr_start, curr_end)])
    end.
Proof. destruct l; reflexivity. Qed.

Lemma card_incl (l1 l2 : list Z) : incl l1 l2 -> card l1 <= card l2.
Proof.
  intros H. unfold card. apply inj_le. apply NoDup_incl_length.
  - apply NoDup_nodup.
  - intros x Hx. apply nodup_In. apply H. apply nodup_In in Hx. assumption.
Qed.

Lemma card_le_length (l : list Z) : card l <= Z.of_nat (length l).
Proof.
  unfold card. apply inj_le. induction l as [|x t IH]; simpl; [lia|].
  destruct (in_dec Z.eq_dec x t); simpl; lia.
Qed.

Lemma length_cover (windows : list (Z * Z)) :
  Forall (fun w => fst w <= snd w) windows ->
  Z.of_nat (length (cover windows)) = total_length windows.
Proof.
  induction 1 as [|w ws Hw _ IH]; [reflexivity|].
  unfold cover in *. cbn [flat_map total_length fold_right].
  rewrite length_app, Nat2Z.inj_add, IH.
  unfold zrange. rewrite length_map, length_seq.
  fold (total_length ws). lia.
Qed.

(** X4: [_count_distinct_in_intervals] is the number of distinct integers
    covered by the intervals when every interval has start <= end, and 0
    for no interval; an interval given with end < start breaks the count
    (a single one yields [end - start + 1], zero or negative). *)
Theorem count_distinct_in_intervals_counts_union :
  (forall intervals : list Kolekcija.interval,
     Forall (fun w => fst w <= snd w) intervals ->
     Kolekcija._count_distinct_in_intervals intervals
     = distinct_covered intervals)
  /\ Kolekcija._count_distinct_in_intervals [] = 0
  /\ (forall a b, Kolekcija._count_distinct_in_intervals [(a, b)] = b - a + 1).
Proof.
  split; [exact _count_distinct_in_intervals_correct|].
  split; [reflexivity|].
  intros a b. unfold Kolekcija._count_distinct_in_intervals. simpl.
  unfold Kolekcija.sum_lengths. simpl. lia.
Qed.

Lemma count_distinct_in_intervals_counts_union_witness :
  Kolekcija._count_distinct_in_intervals [(4, 6); (1, 2); (5, 8); (3, 3)] = 8.
Proof.
  rewrite (proj1 count_distinct_in_intervals_counts_union)
    by (repeat constructor; simpl; lia).
  reflexivity.
Defined.

(** X5: The count does not depend on the order in which the intervals are
    given. *)
Theorem count_distinct_in_intervals_order_independent
    (l1 l2 : list Kolekcija.interval) :
  Permutation l1 l2 ->
  Kolekcija._count_distinct_in_intervals l1
  = Kolekcija._count_distinct_in_intervals l2.
Proof.
  intros Hp. rewrite !_count_distinct_via_sorted.
  rewrite (sorted_of_permutation Hp). reflexivity.
Qed.

Lemma count_distinct_in_intervals_order_independent_witness :
  Kolekcija._count_distinct_in_intervals [(5, 7); (1, 3); (2, 6)]
  = Kolekcija._count_distinct_in_intervals [(1, 3); (2, 6); (5, 7)].
Proof.
  apply count_distinct_in_intervals_order_independent.
  exact (Permutation_cons_append [(1, 3); (2, 6)] (5, 7)).
Defined.

(** X6: For intervals with start <= end the count is at most the sum of the
    interval lengths and at least the length of each single interval. *)
Theorem count_distinct_in_intervals_bounds
    (intervals : list Kolekcija.interval) :
  Forall (fun w => fst w <= snd w) intervals ->
  Kolekcija._count_distinct_in_intervals intervals <= total_length intervals
  /\ forall w, In w intervals ->
       snd w - fst w + 1 <= Kolekcija._count_distinct_in_intervals intervals.
Proof.
  intros H. rewrite (_count_distinct_in_intervals_correct H).
  unfold distinct_covered. fold (cover intervals). split.
  - rewrite <- (length_cover H). apply card_le_length.
  - intros w Hw. rewrite Forall_forall in H.
    rewrite <- (card_zrange (H w Hw)). apply card_incl.
    intros x Hx. apply cover_In. exists w. split; [assumption|].
    apply zrange_In. assumption.
Qed.

Lemma count_distinct_in_intervals_bounds_witness :
  Kolekcija._count_distinct_in_intervals [(1, 3); (2, 6)] <= 8
  /\ 5 <= Kolekcija._count_distinct_in_intervals [(1, 3); (2, 6)].
Proof.
  assert (H : Forall (fun w : Z * Z => fst w <= snd w) [(1, 3); (2, 6)])
    by (repeat constructor; simpl; lia).
  destruct (count_distinct_in_intervals_bounds H) as [H1 H2].
  split; [exact H1|].
  apply (H2 (2, 6)). right. left. reflexivity.
Defined.

(** ** More on the default checker and on the registry *)

Section DefaultCheckerMore.

Variable py_float : pystr -> option float.

Lemma compare_tokens_all2 (es acts : list float) :
  forall i j, length es = length acts ->
  compare_tokens i j es acts
  = if all2 within_tolerance es acts then Next tt
    else match compare_tokens i j es acts with
         | Return (false, m) => Return (false, m)
         | _ => Next tt
         end.
Proof.
  intros i j L.
  destruct (@compare_tokens_spec es acts i j L) as [[Ha Hc] | [Ha [m Hc]]];
    rewrite Ha, Hc; reflexivity.
Qed.

(** One pair of lines: falls through exactly when the lines match, and
    returns a rejection otherwise. *)
Lemma compare_line_matches (i : Z) (exp_line act_line : pystr) :
  (line_matches py_float exp_line act_line = true
   /\ compare_line py_float i exp_line act_line = Next tt)
  \/ (line_matches py_float exp_line act_line = false
      /\ exists m, compare_line py_float i exp_line act_line = Return (false, m)).
Proof.
  unfold line_matches, compare_line. cbv zeta.
  assert (Htext :
    (pystr_eqb (strip exp_line) (strip act_line) = true
     /\ compare_text i (strip exp_line) (strip act_line) = Next tt)
    \/ (pystr_eqb (strip exp_line) (strip act_line) = false
        /\ exists m, compare_text i (strip exp_line) (strip act_line)
                     = Return (false, m))).
  { unfold compare_text.
    destruct (pystr_eqb (strip exp_line) (strip act_line)); simpl.
    - left. split; reflexivity.
    - right. split; [reflexivity|]. eexists. reflexivity. }
  destruct (_parse_floats py_float (strip exp_line)) as [es|]; [|exact Htext].
  destruct (_parse_floats py_float (strip act_line)) as [acts|]; [|exact Htext].
  destruct (length es =? length acts)%nat eqn:L; [|exact Htext].
  apply Nat.eqb_eq in L. apply compare_tokens_spec. assumption.
Qed.

Lemma compare_lines_matches (exps : list pystr) :
  forall (acts : list pystr) (i : Z),
    length exps = length acts ->
    (all2 (line_matches py_float) exps acts = true
     /\ compare_lines py_float i exps acts = Next tt)
    \/ (all2 (line_matches py_float) exps acts = false
        /\ exists m, compare_lines py_float i exps acts = Return (false, m)).
Proof.
  induction exps as [|x exps IH]; intros [|y acts] i L; try discriminate.
  - left. split; reflexivity.
  - cbn [compare_lines all2].
    destruct (compare_line_matches i x y) as [[Hm Hc] | [Hm [m Hc]]];
      rewrite Hm, Hc; cbn [cbind andb].
    + apply IH. simpl in L. congruence.
    + right. split; [reflexivity|]. exists m. reflexivity.
Qed.

Lemma all2_length {A B} (p : A -> B -> bool) (l1 : list A) :
  forall l2, all2 p l1 l2 = true -> length l1 = length l2.
Proof.
  induction l1 as [|x t IH]; intros [|y u] H; try discriminate; [reflexivity|].
  simpl in H. apply andb_true_iff in H. simpl. f_equal. apply IH. apply H.
Qed.

Lemma default_checker_verdict (pid inp expected actual : pystr) :
  let verdict := all2 (line_matches py_float) (split_nl (strip expected))
                   (split_nl (strip actual)) in
  exists msg,
    default_checker py_float pid inp expected (JStr actual) = Ok (verdict, msg)
    /\ (verdict = true -> msg = [Lit (py "OK")]).
Proof.
  cbv zeta. unfold default_checker. cbn [attr_strip rbind].
  destruct (length (split_nl (strip expected))
            =? length (split_nl (strip actual)))%nat eqn:L; cbn [negb].
  - apply Nat.eqb_eq in L.
    destruct (@compare_lines_matches (split_nl (strip expected))
                (split_nl (strip actual)) 0 L) as [[Hm Hc] | [Hm [m Hc]]];
      rewrite Hm, Hc; cbn [cbind run_body].
    + eexists. split; reflexivity.
    + eexists. split; [reflexivity | discriminate].
  - apply Nat.eqb_neq in L.
    destruct (all2 (line_matches py_float) (split_nl (strip expected))
                (split_nl (strip actual))) eqn:Hall.
    + apply all2_length in Hall. contradiction.
    + eexists. split; [reflexivity | discriminate].
Qed.

Lemma within_tolerance_refl (f : float) :
  (f =? f)%float = true -> within_tolerance f f = true.
Proof. intros H. unfold within_tolerance. rewrite H. reflexivity. Qed.

Lemma all2_within_tolerance_refl (fs : list float) :
  forallb (fun f => (f =? f)%float) fs = true ->
  all2 within_tolerance fs fs = true.
Proof.
  induction fs as [|f fs IH]; [reflexivity|]. simpl.
  intros H. apply andb_true_iff in H. destruct H as [Hf Hfs].
  rewrite within_tolerance_refl by assumption. apply IH. assumption.
Qed.

Lemma pystr_eqb_refl (s : pystr) : pystr_eqb s s = true.
Proof. unfold pystr_eqb. destruct (pystr_eq_dec s s); congruence. Qed.

(** *** Where a rejection message comes from *)

Lemma compare_tokens_message (i : Z) (es acts : list float) :
  forall (j : nat) (m : message),
    compare_tokens i (Z.of_nat j) es acts = Return (false, m) ->
    exists (k : nat) (e a : float),
      nth_error es k = Some e /\ nth_error acts k = Some a
      /\ m = [Lit (py "Line "); IntArg (i + 1); Lit (py ", token ");
              IntArg (Z.of_nat (j + k) + 1); Lit (py ": expected ");
              FloatArg e; Lit (py ", got "); FloatArg a].
Proof.
  revert acts. induction es as [|e es IH]; intros [|a acts] j m H;
    try discriminate.
  cbn [compare_tokens] in H.
  destruct (_floats_equal e a).
  - cbn [negb] in H. replace (Z.of_nat j + 1) with (Z.of_nat (S j)) in H by lia.
    destruct (IH _ _ _ H) as (k & e' & a' & He & Ha & ->).
    exists (S k), e', a'. split; [assumption|]. split; [assumption|].
    replace (S j + k)%nat with (j + S k)%nat by lia. reflexivity.
  - cbn [negb] in H. injection H as <-.
    exists 0%nat, e, a. rewrite Nat.add_0_r. auto.
Qed.

Lemma compare_line_message (i : nat) (exp_line act_line : pystr) (m : message) :
  compare_line py_float (Z.of_nat i) exp_line act_line = Return (false, m) ->
  m = text_mismatch_message i (strip exp_line) (strip act_line)
  \/ exists (es acts : list float) (j : nat) (e a : float),
       _parse_floats py_float (strip exp_line) = Some es
       /\ _parse_floats py_float (strip act_line) = Some acts
       /\ nth_error es j = Some e /\ nth_error acts j = Some a
       /\ m = token_mismatch_message i j e a.
Proof.
  unfold compare_line. cbv zeta.
  assert (Htext : compare_text (Z.of_nat i) (strip exp_line) (strip act_line)
                  = Return (false, m) ->
                  m = text_mismatch_message i (strip exp_line) (strip act_line)).
  { unfold compare_text. destruct (pystr_eqb _ _); simpl; [discriminate|].
    intros H. injection H as <-. reflexivity. }
  destruct (_parse_floats py_float (strip exp_line)) as [es|];
    [|intros H; left; auto].
  destruct (_parse_floats py_float (strip act_line)) as [acts|];
    [|intros H; left; auto].
  destruct (length es =? length acts)%nat; [|intros H; left; auto].
  intros H. right. change 0 with (Z.of_nat 0) in H.
  apply compare_tokens_message in H.
  destruct H as (k & e & a & He & Ha & ->).
  exists es, acts, k, e, a. repeat split; assumption.
Qed.

Lemma compare_lines_message (exps : list pystr) :
  forall (acts : list pystr) (i : nat) (m : message),
    compare_lines py_float (Z.of_nat i) exps acts = Return (false, m) ->
    exists (k : nat) (exp_line act_line : pystr),
      nth_error exps k = Some exp_line /\ nth_error acts k = Some act_line
      /\ compare_line py_float (Z.of_nat (i + k)) exp_line act_line
         = Return (false, m).
Proof.
  induction exps as [|x exps IH]; intros [|y acts] i m H; try discriminate.
  cbn [compare_lines] in H.
  destruct (compare_line py_float (Z.of_nat i) x y) as [[] | [b m'] | e] eqn:E;
    cbn [cbind] in H; try discriminate.
  - replace (Z.of_nat i + 1) with (Z.of_nat (S i)) in H by lia.
    destruct (IH _ _ _ H) as (k & el & al & He & Ha & Hc).
    exists (S k), el, al. split; [assumption|]. split; [assumption|].
    replace (i + S k)%nat with (S i + k)%nat by lia. assumption.
  - injection H as -> ->. exists 0%nat, x, y. rewrite Nat.add_0_r. auto.
Qed.

End DefaultCheckerMore.

(** X7: The default checker accepts exactly when the stripped texts have the
    same number of lines and every pair of corresponding lines matches:
    numerically within the tolerance when both lines parse as the same
    number of floats, and as stripped texts otherwise.  An accepted output
    gets the message "OK". *)
Theorem default_checker_verdict_by_lines (py_float : pystr -> option float)
    (pid inp expected actual : pystr) :
  let verdict := all2 (line_matches py_float) (split_nl (strip expected))
                   (split_nl (strip actual)) in
  exists msg,
    default_checker py_float pid inp expected (JStr actual) = Ok (verdict, msg)
    /\ (verdict = true -> msg = [Lit (py "OK")]).
Proof. apply default_checker_verdict. Qed.

(** X8: An output identical to the expected one is accepted by the default
    checker unless one of its tokens parses as a NaN: the tolerance test
    fails on a NaN even against itself. *)
Theorem default_checker_accepts_identical (py_float : pystr -> option float)
    (pid inp text : pystr) :
  nan_free py_float text = true ->
  default_checker py_float pid inp text (JStr text) = Ok (true, [Lit (py "OK")]).
Proof.
  intros Hnan.
  assert (Hall : all2 (line_matches py_float) (split_nl (strip text))
                   (split_nl (strip text)) = true).
  { unfold nan_free in Hnan. revert Hnan.
    induction (split_nl (strip text)) as [|l ls IH]; [reflexivity|].
    cbn [forallb all2]. intros H. apply andb_true_iff in H.
    destruct H as [Hl Hls]. rewrite (IH Hls), andb_true_r.
    unfold line_matches. cbv zeta.
    destruct (_parse_floats py_float (strip l)) as [fs|];
      [|apply pystr_eqb_refl].
    rewrite Nat.eqb_refl. apply all2_within_tolerance_refl. assumption. }
  destruct (default_checker_verdict py_float pid inp text text)
    as (msg & Hd & Hmsg).
  rewrite Hall in Hd, Hmsg. rewrite Hd, (Hmsg eq_refl). reflexivity.
Qed.

Lemma default_checker_accepts_identical_witness :
  nan_free Examples.float_of_decimal (Examples.text ["1.5 x"; "2"]%string) = true
  /\ default_checker Examples.float_of_decimal (py "sum") (py "1 2")
       (Examples.text ["1.5 x"; "2"]%string)
       (JStr (Examples.text ["1.5 x"; "2"]%string))
     = Ok (true, [Lit (py "OK")])
  /\ _floats_equal nan nan = false.
Proof.
  split; [vm_compute; reflexivity|]. split.
  - apply default_checker_accepts_identical. vm_compute. reflexivity.
  - vm_compute. reflexivity.
Defined.

(** X9: Every rejection by the default checker tells something of the
    expected output: its number of lines, one of its lines (stripped), or
    one of its numbers. *)
Theorem default_checker_rejection_quotes_expected
    (py_float : pystr -> option float)
    (pid inp expected actual : pystr) (msg : message) :
  default_checker py_float pid inp expected (JStr actual) = Ok (false, msg) ->
  msg = line_count_message (length (split_nl (strip expected)))
          (length (split_nl (strip actual)))
  \/ exists (i : nat) (exp_line act_line : pystr),
       nth_error (stripped_lines expected) i = Some exp_line
       /\ nth_error (stripped_lines actual) i = Some act_line
       /\ (msg = text_mismatch_message i exp_line act_line
           \/ exists (es acts : list float) (j : nat) (e a : float),
                _parse_floats py_float exp_line = Some es
                /\ _parse_floats py_float act_line = Some acts
                /\ nth_error es j = Some e /\ nth_error acts j = Some a
                /\ msg = token_mismatch_message i j e a).
Proof.
  unfold default_checker. cbn [attr_strip rbind].
  destruct (length (split_nl (strip expected))
            =? length (split_nl (strip actual)))%nat; cbn [negb].
  2:{ intros H. injection H as <-. left. reflexivity. }
  intros H. right.
  destruct (compare_lines py_float 0 (split_nl (strip expected))
              (split_nl (strip actual))) as [[] | [b m] | e] eqn:E;
    cbn [cbind run_body] in H; try discriminate.
  injection H as -> ->.
  change 0 with (Z.of_nat 0) in E.
  apply compare_lines_message in E.
  destruct E as (k & el & al & He & Ha & Hc). simpl in Hc.
  exists k, (strip el), (strip al). unfold stripped_lines.
  rewrite !nth_error_map, He, Ha. split; [reflexivity|].
  split; [reflexivity|].
  apply compare_line_message in Hc. exact Hc.
Qed.

Lemma default_checker_rejection_quotes_expected_witness :
  default_checker Examples.float_of_decimal (py "sum") (py "1 2")
    (Examples.text ["yes"; "7"]%string)
    (JStr (Examples.text ["yes"; "seven"]%string))
  = Ok (false, text_mismatch_message 1 (py "7") (py "seven"))
  /\ (text_mismatch_message 1 (py "7") (py "seven")
      = line_count_message
          (length (split_nl (strip (Examples.text ["yes"; "7"]%string))))
          (length (split_nl (strip (Examples.text ["yes"; "seven"]%string))))
      \/ exists (i : nat) (exp_line act_line : pystr),
           nth_error (stripped_lines (Examples.text ["yes"; "7"]%string)) i
             = Some exp_line
           /\ nth_error (stripped_lines (Examples.text ["yes"; "seven"]%string)) i
              = Some act_line
           /\ (text_mismatch_message 1 (py "7") (py "seven")
               = text_mismatch_message i exp_line act_line
               \/ exists (es acts : list float) (j : nat) (e a : float),
                    _parse_floats Examples.float_of_decimal exp_line = Some es
                    /\ _parse_floats Examples.float_of_decimal act_line
                       = Some acts
                    /\ nth_error es j = Some e /\ nth_error acts j = Some a
                    /\ text_mismatch_message 1 (py "7") (py "seven")
                       = token_mismatch_message i j e a)).
Proof.
  assert (H : default_checker Examples.float_of_decimal (py "sum") (py "1 2")
                (Examples.text ["yes"; "7"]%string)
                (JStr (Examples.text ["yes"; "seven"]%string))
              = Ok (false, text_mismatch_message 1 (py "7") (py "seven")))
    by (vm_compute; reflexivity).
  split; [exact H|].
  exact (default_checker_rejection_quotes_expected _ _ _ _ _ H).
Defined.

(** ** What the checkers read of the candidate's output *)

Lemma carries_refl {A} (c : ctl A) : carries c c.
Proof. destruct c as [a | [[] m] | e]; simpl; auto. Qed.

Lemma carries_cbind {A B} (c1 c2 : ctl A) (k1 k2 : A -> ctl B) :
  carries c1 c2 -> (forall a, carries (k1 a) (k2 a)) ->
  carries (cbind c1 k1) (cbind c2 k2).
Proof.
  intros Hc Hk. destruct c1 as [a | [[] m] | e]; simpl in *; subst; simpl; auto.
Qed.

Lemma carries_return_if (cond cond' : bool) (m m' : message) :
  (cond = false -> cond' = false) ->
  carries (return_if cond (false, m)) (return_if cond' (false, m')).
Proof.
  intros H. destruct cond; simpl; [exact I|]. rewrite H; reflexivity.
Qed.

Lemma carries_try_int {A} (r : result A) (handled : exn -> bool) (m m' : message) :
  carries (try_except handled (lift r) (fun _ => Return (false, m)))
          (try_except handled (lift r) (fun _ => Return (false, m'))).
Proof.
  destruct r as [a | e]; simpl; [reflexivity|].
  destruct (handled e); exact I.
Qed.

Lemma carries_try_except {A} (c1 c2 : ctl A) (handled : exn -> bool)
    (m m' : message) :
  carries c1 c2 ->
  carries (try_except handled c1 (fun _ => Return (false, m)))
          (try_except handled c2 (fun _ => Return (false, m'))).
Proof.
  intros H. destruct c1 as [a | [[] m1] | e]; simpl in *; subst; simpl; auto.
  destruct (handled e); exact I.
Qed.

Lemma carries_for_range {St} (b1 b2 : Z -> St -> ctl St) :
  (forall (j : nat) s, carries (b1 (Z.of_nat j) s) (b2 (Z.of_nat j) s)) ->
  forall (n i : nat) s,
    carries (for_range n (Z.of_nat i) b1 s) (for_range n (Z.of_nat i) b2 s).
Proof.
  intros Hb. induction n as [|n IH]; intros i s.
  - reflexivity.
  - cbn [for_range]. replace (Z.of_nat i + 1) with (Z.of_nat (S i)) by lia.
    apply carries_cbind; [apply Hb | intros a; apply IH].
Qed.

Lemma reads_same_length (ls ls' : list pystr) :
  reads_same ls ls' -> (length ls <= length ls')%nat.
Proof.
  intros H. destruct ls as [|x t] eqn:E; [simpl; lia|]. rewrite <- E in *.
  destruct (nth_error ls (length ls - 1)) as [y|] eqn:En.
  - destruct (H _ _ En) as (y' & Hy' & _).
    assert (length ls - 1 < length ls')%nat
      by (apply nth_error_Some; congruence).
    assert (length ls <> 0)%nat by (subst ls; discriminate). lia.
  - apply nth_error_None in En. subst ls. simpl in En. lia.
Qed.

Lemma carries_index (ls ls' : list pystr) {A} (i : nat)
    (k1 k2 : pystr -> ctl A) :
  reads_same ls ls' ->
  (forall x x', strip x = strip x' -> carries (k1 x) (k2 x')) ->
  carries (cbind (lift (py_index ls (Z.of_nat i))) k1)
          (cbind (lift (py_index ls' (Z.of_nat i))) k2).
Proof.
  intros Hr Hk. rewrite !py_index_nat.
  destruct (nth_error ls i) as [x|] eqn:E; [|exact I].
  destruct (Hr _ _ E) as (x' & E' & Hs). rewrite E'. simpl. apply Hk. assumption.
Qed.

Lemma reads_same_prefix (a a' : pystr) (rest : list pystr) :
  stripped_lines a' = stripped_lines a ++ rest ->
  reads_same (split_nl (strip a)) (split_nl (strip a')).
Proof.
  unfold stripped_lines. intros H i x Hx.
  assert (Hm : nth_error (map strip (split_nl (strip a'))) i = Some (strip x)).
  { rewrite H. rewrite nth_error_app1.
    - rewrite nth_error_map, Hx. reflexivity.
    - rewrite length_map. apply nth_error_Some. congruence. }
  rewrite nth_error_map in Hm.
  destruct (nth_error (split_nl (strip a')) i) as [x'|]; [|discriminate].
  exists x'. split; [reflexivity|]. simpl in Hm. congruence.
Qed.

(** Step over the statements two runs have in common. *)
Ltac carry_common :=
  repeat (apply carries_cbind; [apply carries_refl|]; intros ?;
          try match goal with p : (_ * _)%type |- _ => destruct p end).

Lemma length_guard (ls ls' : list pystr) (bound : Z) :
  reads_same ls ls' ->
  (Z.of_nat (length ls) <? bound) = false ->
  (Z.of_nat (length ls') <? bound) = false.
Proof.
  intros H. apply reads_same_length in H.
  rewrite !Z.ltb_ge. lia.
Qed.

Lemma use_crayon_carries (ls ls' : list pystr) (j : nat) (st : Pastele.state) :
  reads_same ls ls' ->
  carries (Pastele.use_crayon ls (Z.of_nat j) st)
          (Pastele.use_crayon ls' (Z.of_nat j) st).
Proof.
  intros H. unfold Pastele.use_crayon. apply carries_index; [assumption|].
  intros x x' E. rewrite E. apply carries_refl.
Qed.

Lemma parse_cut_carries (ls ls' : list pystr) (j : nat) (acc : list Rez.cut) :
  reads_same ls ls' ->
  carries (Rez.parse_cut ls (Z.of_nat j) acc) (Rez.parse_cut ls' (Z.of_nat j) acc).
Proof.
  intros H. unfold Rez.parse_cut. apply carries_try_except.
  apply carries_index; [assumption|].
  intros x x' E. rewrite E. apply carries_refl.
Qed.

Lemma parse_interval_carries (ls ls' : list pystr) (j : nat)
    (acc : list Kolekcija.interval) :
  reads_same ls ls' ->
  carries (Kolekcija.parse_interval ls (Z.of_nat j) acc)
          (Kolekcija.parse_interval ls' (Z.of_nat j) acc).
Proof.
  intros H. unfold Kolekcija.parse_interval. apply carries_try_except.
  apply carries_index; [assumption|].
  intros x x' E. rewrite E. apply carries_refl.
Qed.

(** The first line of the output and the claimed scalar on it. *)
Ltac carry_first_line H :=
  apply carries_cbind;
  [ apply carries_return_if; apply length_guard; exact H |];
  intros _; change 0 with (Z.of_nat 0);
  apply carries_index; [exact H|];
  let x := fresh "x" in let x' := fresh "x'" in let E := fresh "E" in
  intros x x' E; rewrite E;
  apply carries_cbind; [apply carries_try_int|]; intros ?.

Lemma pastele_body_carries (inp exp a a' : pystr) :
  reads_same (split_nl (strip a)) (split_nl (strip a')) ->
  carries (Pastele.body inp exp (JStr a)) (Pastele.body inp exp (JStr a')).
Proof.
  intros H. unfold Pastele.body. cbn [attr_strip lift cbind]. cbv zeta.
  carry_common. carry_first_line H. carry_common.
  apply carries_cbind;
    [apply carries_return_if; apply length_guard; exact H|]. intros _.
  apply carries_cbind; [|intros ?; apply carries_refl].
  change 1 with (Z.of_nat 1). apply carries_for_range.
  intros j s. apply use_crayon_carries. exact H.
Qed.

Lemma rez_body_carries (inp exp a a' : pystr) :
  reads_same (split_nl (strip a)) (split_nl (strip a')) ->
  carries (Rez.body inp exp (JStr a)) (Rez.body inp exp (JStr a')).
Proof.
  intros H. unfold Rez.body. cbn [attr_strip lift cbind]. cbv zeta.
  carry_common. carry_first_line H. carry_common.
  apply carries_cbind;
    [apply carries_return_if; apply length_guard; exact H|]. intros _.
  apply carries_cbind; [|intros ?; apply carries_refl].
  change 1 with (Z.of_nat 1). apply carries_for_range.
  intros j s. apply parse_cut_carries. exact H.
Qed.

Lemma kolekcija_body_carries (inp exp a a' : pystr) :
  reads_same (split_nl (strip a)) (split_nl (strip a')) ->
  carries (Kolekcija.body inp exp (JStr a)) (Kolekcija.body inp exp (JStr a')).
Proof.
  intros H. unfold Kolekcija.body. cbn [attr_strip lift cbind]. cbv zeta.
  carry_common. carry_first_line H. carry_common.
  apply carries_cbind;
    [apply carries_return_if; apply length_guard; exact H|]. intros _.
  apply carries_cbind; [|intros ?; apply carries_refl].
  change 1 with (Z.of_nat 1). apply carries_for_range.
  intros j s. apply parse_interval_carries. exact H.
Qed.

Lemma guard_carries (c1 c2 : ctl unit) :
  carries c1 c2 ->
  accepts (checker_error_guard c1) = true ->
  accepts (checker_error_guard c2) = true.
Proof.
  intros Hc H. apply accepts_guard in H. destruct H as [m ->].
  simpl in Hc. apply accepts_guard. exists m. assumption.
Qed.

Lemma registered_checker_carries (py_float : pystr -> option float)
    (problem_id pid inp exp a a' : pystr) :
  registered problem_id ->
  reads_same (split_nl (strip a)) (split_nl (strip a')) ->
  accepts (get_checker py_float problem_id pid inp exp (JStr a)) = true ->
  accepts (get_checker py_float problem_id pid inp exp (JStr a')) = true.
Proof.
  intros Hreg H.
  destruct Hreg as [-> | [-> | ->]];
    change (get_checker py_float _) with checker_pastele
    || change (get_checker py_float _) with checker_rez
    || change (get_checker py_float _) with checker_kolekcija;
    apply guard_carries.
  - apply pastele_body_carries; assumption.
  - apply rez_body_carries; assumption.
  - apply kolekcija_body_carries; assumption.
Qed.

Lemma reads_same_stripped (a a' : pystr) :
  stripped_lines a = stripped_lines a' ->
  reads_same (split_nl (strip a)) (split_nl (strip a'))
  /\ reads_same (split_nl (strip a')) (split_nl (strip a)).
Proof.
  intros H. split; apply reads_same_prefix with (rest := []);
    rewrite app_nil_r; congruence.
Qed.

Lemma compare_lines_actual (py_float : pystr -> option float)
    (exps : list pystr) :
  forall (acts acts' : list pystr) (i : Z),
    map strip acts = map strip acts' ->
    compare_lines py_float i exps acts = compare_lines py_float i exps acts'.
Proof.
  induction exps as [|x exps IH]; intros acts acts' i H; [reflexivity|].
  destruct acts as [|y acts], acts' as [|y' acts']; try discriminate;
    [reflexivity|].
  simpl in H. injection H as Hy H.
  cbn [compare_lines]. unfold compare_line. rewrite Hy.
  rewrite (IH acts acts' (i + 1) H). reflexivity.
Qed.

Lemma default_checker_actual (py_float : pystr -> option float)
    (pid inp exp a a' : pystr) :
  stripped_lines a = stripped_lines a' ->
  default_checker py_float pid inp exp (JStr a)
  = default_checker py_float pid inp exp (JStr a').
Proof.
  unfold stripped_lines. intros H. unfold default_checker.
  cbn [attr_strip rbind].
  assert (L : length (split_nl (strip a)) = length (split_nl (strip a'))).
  { apply (f_equal (@length _)) in H. rewrite !length_map in H. exact H. }
  rewrite L. rewrite (compare_lines_actual py_float _ _ _ _ H). reflexivity.
Qed.

Lemma registered_dec (problem_id : pystr) :
  registered problem_id
  \/ forall (py_float : pystr -> option float),
       get_checker py_float problem_id = default_checker py_float.
Proof.
  unfold registered, get_checker, CHECKER_REGISTRY. cbn [dict_get].
  unfold pystr_eqb.
  destruct (pystr_eq_dec (py "pastele") problem_id); [left; auto|].
  destruct (pystr_eq_dec (py "rez") problem_id); [left; auto|].
  destruct (pystr_eq_dec (py "kolekcija") problem_id); [left; auto|].
  right. reflexivity.
Qed.

Lemma bool_eq_true_iff (b1 b2 : bool) :
  (b1 = true -> b2 = true) -> (b2 = true -> b1 = true) -> b1 = b2.
Proof. destruct b1, b2; intuition congruence. Qed.

Lemma verdict_of_stripped_lines (py_float : pystr -> option float)
    (problem_id pid inp exp a a' : pystr) :
  stripped_lines a = stripped_lines a' ->
  accepts (get_checker py_float problem_id pid inp exp (JStr a))
  = accepts (get_checker py_float problem_id pid inp exp (JStr a')).
Proof.
  intros H. destruct (registered_dec problem_id) as [Hreg | Hdef].
  - destruct (reads_same_stripped _ _ H) as [H1 H2].
    apply bool_eq_true_iff; apply registered_checker_carries; assumption.
  - rewrite Hdef. rewrite (default_checker_actual py_float pid inp exp _ _ H).
    reflexivity.
Qed.

(** X10: The checkers of PASTELE, REZ and KOLEKCIJA read the first line of the
    output and as many lines after it as the answer needs; an accepted
    output stays accepted whatever further lines follow those. *)
Theorem registered_checkers_ignore_further_lines
    (py_float : pystr -> option float)
    (problem_id pid inp exp a a' : pystr) (rest : list pystr) :
  registered problem_id ->
  stripped_lines a' = stripped_lines a ++ rest ->
  accepts (get_checker py_float problem_id pid inp exp (JStr a)) = true ->
  accepts (get_checker py_float problem_id pid inp exp (JStr a')) = true.
Proof.
  intros Hreg H. apply registered_checker_carries; [assumption|].
  apply reads_same_prefix with (rest := rest). assumption.
Qed.

Lemma registered_checkers_ignore_further_lines_witness :
  accepts (get_checker Examples.float_of_decimal (py "kolekcija") (py "kolekcija")
             Examples.kolekcija_input Examples.kolekcija_expected
             (JStr (Examples.text ["5"; "4 6"; "5 7"; "6 8"; "see above"; ""; "!"]%string)))
  = true.
Proof.
  apply (@registered_checkers_ignore_further_lines Examples.float_of_decimal
           (py "kolekcija") (py "kolekcija") Examples.kolekcija_input
           Examples.kolekcija_expected Examples.kolekcija_good
           (Examples.text ["5"; "4 6"; "5 7"; "6 8"; "see above"; ""; "!"]%string)
           [py "see above"; []; py "!"]).
  - right. right. reflexivity.
  - vm_compute. reflexivity.
  - vm_compute. reflexivity.
Defined.

(** X11: The runner normalizes the output before it submits it; no checker's
    verdict depends on that: the verdict on the normalized output is the
    verdict on the output as the program printed it. *)
Theorem normalization_preserves_verdict (py_float : pystr -> option float)
    (problem_id pid inp exp out : pystr) :
  accepts (get_checker py_float problem_id pid inp exp
             (JStr (Runner._normalize_output out)))
  = accepts (get_checker py_float problem_id pid inp exp (JStr out)).
Proof.
  apply verdict_of_stripped_lines.
  exact (stripped_lines_normalize out).
Qed.

(** *** When a checker raises *)

Lemma compare_lines_no_throw (py_float : pystr -> option float)
    (exps : list pystr) :
  forall acts i e, compare_lines py_float i exps acts <> Throw e.
Proof.
  induction exps as [|x exps IH]; intros [|y acts] i e; try discriminate.
  cbn [compare_lines].
  destruct (compare_line_matches py_float i x y) as [[_ Hc] | [_ [m Hc]]];
    rewrite Hc; cbn [cbind]; [apply IH | discriminate].
Qed.

(** X12: A checker raises only in one case: the problem has no checker of its
    own and the submitted output is not a string; the exception is then the
    [AttributeError] of [actual.strip()].  The checkers of PASTELE, REZ and
    KOLEKCIJA return their own "Checker error" rejection instead. *)
Theorem checker_raises_iff (py_float : pystr -> option float)
    (problem_id pid inp exp : pystr) (actual : pyval) (e : exn) :
  get_checker py_float problem_id pid inp exp actual = Raise e
  <-> (~ registered problem_id) /\ is_str actual = false
      /\ e = NoAttribute (type_name actual) (py "strip").
Proof.
  destruct (registered_dec problem_id) as [Hreg | Hdef].
  - split; [|intros [Hn _]; contradiction].
    destruct Hreg as [-> | [-> | ->]];
      change (get_checker py_float _) with checker_pastele
      || change (get_checker py_float _) with checker_rez
      || change (get_checker py_float _) with checker_kolekcija;
      unfold checker_pastele, checker_rez, checker_kolekcija,
        checker_error_guard;
      match goal with |- context [run_body ?b] => destruct (run_body b) end;
      discriminate.
  - assert (Hnreg : ~ registered problem_id).
    { intros Hreg. specialize (Hdef py_float).
      assert (Hne : default_checker py_float [] (py "1") [] JNull
                    = get_checker py_float problem_id [] (py "1") [] JNull)
        by (rewrite Hdef; reflexivity).
      destruct Hreg as [-> | [-> | ->]]; vm_compute in Hne; discriminate Hne. }
    rewrite Hdef. unfold default_checker.
    destruct actual as [ | b | z | f | s | items | fields];
      cbn [attr_strip rbind is_str type_name];
      try (split; [intros H; injection H as <-; auto
                  | intros (_ & _ & ->); reflexivity]).
    split; [|intros (_ & H & _); discriminate].
    destruct (negb _); [discriminate|].
    destruct (compare_lines py_float 0 (split_nl (strip exp))
                (split_nl (strip s))) as [[] | [b m] | e'] eqn:E;
      cbn [cbind run_body]; try discriminate.
    exfalso. exact (compare_lines_no_throw _ _ _ _ E).
Qed.

Lemma get_checker_expected (py_float : pystr -> option float)
    (problem_id pid inp e e' : pystr) (actual : pyval) :
  stripped_lines e = stripped_lines e' ->
  get_checker py_float problem_id pid inp e actual
  = get_checker py_float problem_id pid inp e' actual.
Proof.
  intros H. unfold get_checker, CHECKER_REGISTRY. cbn [dict_get].
  destruct (pystr_eqb (py "pastele") problem_id);
    [apply checker_pastele_expected; assumption|].
  destruct (pystr_eqb (py "rez") problem_id);
    [apply checker_rez_expected; assumption|].
  destruct (pystr_eqb (py "kolekcija") problem_id);
    [apply checker_kolekcija_expected; assumption|].
  apply default_checker_expected; assumption.
Qed.

(** X13: No checker's verdict depends on the whitespace around the lines: two
    expected outputs with the same stripped lines, and two candidate
    outputs with the same stripped lines, get the same verdict.  Leading
    and trailing blank lines, indentation, trailing spaces and CRLF line
    ends make no difference. *)
Theorem verdict_depends_on_stripped_lines (py_float : pystr -> option float)
    (problem_id pid inp e e' a a' : pystr) :
  stripped_lines e = stripped_lines e' ->
  stripped_lines a = stripped_lines a' ->
  accepts (get_checker py_float problem_id pid inp e (JStr a))
  = accepts (get_checker py_float problem_id pid inp e' (JStr a')).
Proof.
  intros He Ha.
  rewrite (get_checker_expected py_float problem_id pid inp e e' (JStr a) He).
  apply verdict_of_stripped_lines. assumption.
Qed.

Lemma verdict_depends_on_stripped_lines_witness :
  accepts (get_checker Examples.float_of_decimal (py "kolekcija") (py "kolekcija")
             Examples.kolekcija_input (py "5" ++ [LF])
             (JStr ([LF] ++ py "  5 " ++ [CR; LF] ++ py " 4 6" ++ [CR; LF]
                    ++ py "5 7  " ++ [LF] ++ py "6 8" ++ [CR; LF; LF])))
  = accepts (get_checker Examples.float_of_decimal (py "kolekcija") (py "kolekcija")
               Examples.kolekcija_input Examples.kolekcija_expected
               (JStr Examples.kolekcija_good)).
Proof.
  apply verdict_depends_on_stripped_lines; vm_compute; reflexivity.
Defined.

(** ** More on the verdict service *)

Ltac grade_leaf :=
  cbn; repeat split; intros; try reflexivity; try discriminate; auto;
  try (vm_compute in *; congruence).

(** X14: Whatever the request, the files and the checker, the reply of [grade]
    is consistent: the verdict is "AC" exactly when [passed] is true and
    "WA" exactly when it is false; the status is 200, 400, 404 or 500; and
    a passing reply has status 200. *)
Theorem grade_reply_invariants (get_checker : pystr -> CheckerFunc)
    (fs : GradingServer.files) (body : result json) :
  let r := GradingServer.grade get_checker fs body in
  (GradingServer.passed r = true <-> GradingServer.verdict r = py "AC")
  /\ (GradingServer.passed r = false <-> GradingServer.verdict r = py "WA")
  /\ In (GradingServer.status_code r) [200; 400; 404; 500]
  /\ (GradingServer.passed r = true -> GradingServer.status_code r = 200).
Proof.
  cbv zeta. unfold GradingServer.grade, GradingServer.wa.
  destruct body as [data | e]; [|grade_leaf].
  destruct (negb (truthy data)); [grade_leaf|].
  destruct (json_get data (py "problem_id") JNull) as [problem_id | e];
    [|grade_leaf].
  destruct (json_get data (py "test_id") JNull) as [test_id | e];
    [|grade_leaf].
  destruct (json_get data (py "actual_output") (JStr [])) as [actual | e];
    [|grade_leaf].
  destruct (negb (truthy problem_id)); [grade_leaf|].
  destruct (negb (truthy test_id)); [grade_leaf|].
  destruct problem_id as [ | b | z | f | pid | items | fields];
    try solve [grade_leaf].
  unfold GradingServer.grade_test, GradingServer.wa.
  destruct (negb (GradingServer.exists_ _)); [grade_leaf|].
  destruct (negb (GradingServer.exists_ _)); [grade_leaf|].
  destruct (rbind _ _) as [[input_data expected_output] | e]; [|grade_leaf].
  destruct (get_checker pid pid input_data expected_output actual)
    as [[[] m] | e]; grade_leaf.
Qed.



(** ** Listing the test cases *)

Section SortBy.

Context {A : Type} (ltb : A -> A -> bool).

Lemma insert_by_perm (x : A) (l : list A) :
  Permutation (TestListing.insert_by ltb x l) (x :: l).
Proof.
  induction l as [|y t IH]; simpl; [reflexivity|].
  destruct (ltb y x); [|reflexivity].
  rewrite IH. apply perm_swap.
Qed.

Lemma sort_by_perm (l : list A) : Permutation (TestListing.sort_by ltb l) l.
Proof.
  induction l as [|x t IH]; simpl; [reflexivity|].
  rewrite insert_by_perm. constructor. assumption.
Qed.

Variable R : A -> A -> Prop.
Hypothesis R_trans : forall x y z, R x y -> R y z -> R x z.
Hypothesis ltb_R : forall x y, ltb y x = true -> R y x.
Hypothesis nltb_R : forall x y, ltb y x = false -> R x y.

Lemma insert_by_sorted (x : A) (l : list A) :
  StronglySorted R l -> StronglySorted R (TestListing.insert_by ltb x l).
Proof.
  induction 1 as [|y t Ht IH Hy]; simpl.
  - repeat constructor.
  - destruct (ltb y x) eqn:E.
    + constructor; [assumption|].
      apply Forall_forall. intros z Hz.
      apply (Permutation_in _ (insert_by_perm x t)) in Hz.
      destruct Hz as [<- | Hz].
      * apply ltb_R. assumption.
      * rewrite Forall_forall in Hy. apply Hy. assumption.
    + constructor; [constructor; assumption|].
      constructor; [apply nltb_R; assumption|].
      eapply Forall_impl; [|exact Hy]. intros z Hz.
      eapply R_trans; [apply nltb_R; eassumption | assumption].
Qed.

Lemma sort_by_sorted (l : list A) : StronglySorted R (TestListing.sort_by ltb l).
Proof.
  induction l as [|x t IH]; simpl; [constructor|].
  apply insert_by_sorted. assumption.
Qed.

End SortBy.

(** *** The order on strings *)

Lemma nat_of_ascii_inj (x y : ascii) : nat_of_ascii x = nat_of_ascii y -> x = y.
Proof.
  intros H. rewrite <- (ascii_nat_embedding x), <- (ascii_nat_embedding y).
  congruence.
Qed.

Lemma str_ltb_cons (x y : ascii) (a b : pystr) :
  TestListing.str_ltb (x :: a) (y :: b) = false
  <-> (nat_of_ascii y <= nat_of_ascii x)%nat
      /\ (nat_of_ascii x = nat_of_ascii y -> TestListing.str_ltb a b = false).
Proof.
  cbn [TestListing.str_ltb].
  destruct (Nat.ltb_spec (nat_of_ascii x) (nat_of_ascii y));
    destruct (Nat.eqb_spec (nat_of_ascii x) (nat_of_ascii y)); simpl;
    split; try discriminate; try lia; intuition (try lia).
Qed.

Lemma text_le_trans (a b c : pystr) : text_le a b -> text_le b c -> text_le a c.
Proof.
  unfold text_le. revert b c. induction a as [|x a IH]; intros b c Hab Hbc.
  - destruct c; reflexivity.
  - destruct b as [|y b]; [discriminate|].
    destruct c as [|z c]; [discriminate|].
    apply str_ltb_cons in Hab. apply str_ltb_cons in Hbc.
    apply str_ltb_cons. destruct Hab as [H1 H2], Hbc as [H3 H4].
    split; [lia|]. intros E. apply (IH b c).
    + apply H2. lia.
    + apply H4. lia.
Qed.

Lemma text_le_antisym (a b : pystr) : text_le a b -> text_le b a -> a = b.
Proof.
  unfold text_le. revert b. induction a as [|x a IH]; intros [|y b] Hab Hba;
    try discriminate; [reflexivity|].
  apply str_ltb_cons in Hab. apply str_ltb_cons in Hba.
  destruct Hab as [H1 H2], Hba as [H3 H4].
  assert (E : nat_of_ascii x = nat_of_ascii y) by lia.
  f_equal; [apply nat_of_ascii_inj; assumption|].
  apply IH; [apply H2 | apply H4]; congruence.
Qed.

Lemma str_ltb_text_le (a b : pystr) :
  TestListing.str_ltb a b = true -> text_le a b.
Proof.
  unfold text_le. revert b. induction a as [|x a IH]; intros [|y b] H;
    try discriminate; try reflexivity.
  apply str_ltb_cons. cbn [TestListing.str_ltb] in H.
  destruct (Nat.ltb_spec (nat_of_ascii x) (nat_of_ascii y));
    destruct (Nat.eqb_spec (nat_of_ascii x) (nat_of_ascii y)); simpl in H;
    try discriminate; split; try lia.
  intros _. apply IH. assumption.
Qed.

Lemma sort_by_str_sorted (l : list pystr) :
  StronglySorted text_le (TestListing.sort_by TestListing.str_ltb l).
Proof.
  apply sort_by_sorted.
  - apply text_le_trans.
  - intros x y. apply str_ltb_text_le.
  - intros x y H. exact H.
Qed.

(** *** The order on keys *)

Lemma key_le_trans (a b c : TestListing.sort_key) :
  key_le a b -> key_le b c -> key_le a c.
Proof.
  unfold key_le. destruct a, b, c; simpl; try discriminate; try reflexivity.
  - rewrite !Z.ltb_ge. lia.
  - apply text_le_trans.
Qed.

Lemma key_ltb_le (a b : TestListing.sort_key) :
  TestListing.key_ltb a b = true -> key_le a b.
Proof.
  unfold key_le. destruct a, b; simpl; try discriminate; try reflexivity.
  - rewrite Z.ltb_lt, Z.ltb_ge. lia.
  - apply str_ltb_text_le.
Qed.

Lemma key_le_antisym (a b : TestListing.sort_key) :
  key_le a b -> key_le b a -> a = b.
Proof.
  unfold key_le. destruct a, b; simpl; try discriminate.
  - rewrite !Z.ltb_ge. intros. f_equal. lia.
  - intros H1 H2. f_equal. apply text_le_antisym; assumption.
Qed.

Lemma sort_by_key_sorted (ks : list (TestListing.sort_key * pystr)) :
  StronglySorted keyed_le
    (TestListing.sort_by
       (fun a b => TestListing.key_ltb (fst a) (fst b)) ks).
Proof.
  apply sort_by_sorted; unfold keyed_le.
  - intros x y z. apply key_le_trans.
  - intros x y. apply key_ltb_le.
  - intros x y H. exact H.
Qed.

Lemma sort_by_key_perm (ks : list (TestListing.sort_key * pystr)) :
  Permutation
    (TestListing.sort_by (fun a b => TestListing.key_ltb (fst a) (fst b)) ks)
    ks.
Proof. apply sort_by_perm. Qed.

(** *** The keys *)

Lemma py_int_raises_ValueError (s : pystr) (e : exn) :
  py_int s = Raise e -> is_ValueError e = true.
Proof.
  assert (Hu : forall whole body e,
             int_unsigned whole body = Raise e -> is_ValueError e = true).
  { intros whole body e'. unfold int_unsigned.
    destruct (int_digits 0 0 false body) as [[z count]|].
    - destruct (int_max_str_digits <? count)%nat; [|discriminate].
      intros H. injection H as <-. reflexivity.
    - intros H. injection H as <-. reflexivity. }
  unfold py_int.
  destruct (drop_while int_space (drop_end int_space s)) as [|c body].
  - intros H. injection H as <-. reflexivity.
  - destruct (ascii_eqb c "-"%char).
    + destruct (int_unsigned s body) as [z | e'] eqn:E; simpl.
      * discriminate.
      * intros H. injection H as <-. eapply Hu. eassumption.
    + destruct (ascii_eqb c "+"%char); apply Hu.
Qed.

Lemma sort_key_of_raises (x : pystr) (e : exn) :
  TestListing.sort_key_of x = Raise e -> is_ValueError e = true.
Proof.
  unfold TestListing.sort_key_of. destruct (TestListing.isdigit x); [|discriminate].
  destruct (py_int x) as [z | e'] eqn:E; simpl; [discriminate|].
  intros H. injection H as <-. eapply py_int_raises_ValueError. eassumption.
Qed.

Lemma keyed_raises (tests : list pystr) (e : exn) :
  TestListing.keyed tests = Raise e -> is_ValueError e = true.
Proof.
  induction tests as [|x rest IH]; simpl; [discriminate|].
  destruct (TestListing.sort_key_of x) as [k | e'] eqn:E; simpl.
  - destruct (TestListing.keyed rest) as [ks | e'']; simpl; [discriminate|].
    intros H. injection H as <-. apply IH. reflexivity.
  - intros H. injection H as <-. eapply sort_key_of_raises. eassumption.
Qed.

(** The key of a readable id. *)
Lemma sort_key_of_Ok (x : pystr) (k : TestListing.sort_key) :
  TestListing.sort_key_of x = Ok k <->
  (TestListing.isdigit x = true /\ exists z, int_of x = Some z /\ k = TestListing.NumKey z)
  \/ (TestListing.isdigit x = false /\ k = TestListing.TextKey x).
Proof.
  unfold TestListing.sort_key_of, int_of.
  destruct (TestListing.isdigit x).
  - destruct (py_int x) as [z | e]; simpl; split.
    + intros H. injection H as <-. left. split; [reflexivity|]. exists z. auto.
    + intros [[_ (z' & Hz & ->)] | [H _]]; [congruence | discriminate].
    + discriminate.
    + intros [[_ (z' & Hz & _)] | [H _]]; discriminate.
  - split.
    + intros H. injection H as <-. right. auto.
    + intros [[H _] | [_ ->]]; [discriminate | reflexivity].
Qed.

Lemma keyed_Ok (tests : list pystr) :
  forall ks, TestListing.keyed tests = Ok ks ->
    map snd ks = tests
    /\ Forall (fun p => TestListing.sort_key_of (snd p) = Ok (fst p)) ks.
Proof.
  induction tests as [|x rest IH]; simpl; intros ks H.
  - injection H as <-. split; [reflexivity | constructor].
  - destruct (TestListing.sort_key_of x) as [k | e] eqn:E; simpl in H;
      [|discriminate].
    destruct (TestListing.keyed rest) as [ks' | e]; simpl in H; [|discriminate].
    injection H as <-. destruct (IH ks' eq_refl) as [Hs HF].
    split; [simpl; congruence|]. constructor; assumption.
Qed.

Lemma keyed_readable (tests : list pystr) :
  ids_readable tests = true <-> exists ks, TestListing.keyed tests = Ok ks.
Proof.
  unfold ids_readable. induction tests as [|x rest IH]; simpl.
  - split; [intros _; eexists; reflexivity | reflexivity].
  - rewrite andb_true_iff, IH. unfold TestListing.sort_key_of, int_of.
    destruct (TestListing.isdigit x); simpl.
    + destruct (py_int x) as [z | e]; simpl.
      * split.
        -- intros [_ [ks ->]]. simpl. eexists. reflexivity.
        -- intros [ks H]. split; [reflexivity|].
           destruct (TestListing.keyed rest); [eexists; reflexivity | discriminate].
      * split; [intros [H _]; discriminate | intros [ks H]; discriminate].
    + split.
      * intros [_ [ks ->]]. simpl. eexists. reflexivity.
      * intros [ks H]. split; [reflexivity|].
        destruct (TestListing.keyed rest); [eexists; reflexivity | discriminate].
Qed.

Lemma sort_tests_readable (tests : list pystr) :
  ids_readable tests = true ->
  exists ks,
    TestListing.keyed tests = Ok ks
    /\ TestListing.sort_tests tests
       = Ok (map snd (TestListing.sort_by
                        (fun a b => TestListing.key_ltb (fst a) (fst b)) ks)).
Proof.
  intros H. apply keyed_readable in H. destruct H as [ks Hk].
  exists ks. split; [assumption|].
  unfold TestListing.sort_tests. rewrite Hk. reflexivity.
Qed.

Lemma sort_tests_unreadable (tests : list pystr) :
  ids_readable tests = false ->
  TestListing.sort_tests tests
  = Ok (TestListing.sort_by TestListing.str_ltb tests).
Proof.
  intros H. unfold TestListing.sort_tests.
  destruct (TestListing.keyed tests) as [ks | e] eqn:E.
  - assert (ids_readable tests = true)
      by (apply keyed_readable; exists ks; assumption).
    congruence.
  - rewrite (keyed_raises _ E). reflexivity.
Qed.

Lemma sort_tests_perm (tests : list pystr) :
  exists sorted_tests,
    TestListing.sort_tests tests = Ok sorted_tests
    /\ Permutation sorted_tests tests.
Proof.
  destruct (ids_readable tests) eqn:H.
  - destruct (sort_tests_readable _ H) as (ks & Hk & ->).
    eexists. split; [reflexivity|].
    destruct (keyed_Ok _ Hk) as [Hs _].
    apply (Permutation_trans (l' := map snd ks));
      [apply Permutation_map, sort_by_perm | rewrite Hs; reflexivity].
  - rewrite (sort_tests_unreadable _ H). eexists. split; [reflexivity|].
    apply sort_by_perm.
Qed.

(** X16: [list_tests] answers, for a directory that exists, with status 200 and
    exactly the stems of the entries whose suffix is ".txt": none is lost,
    none is invented, [count] is their number; it never fails on an odd
    file name.  The local scan of the runner gives the same list. *)
Theorem list_tests_lists_every_test (entries : list TestListing.entry)
    (problem_id : pystr) :
  exists tests,
    TestListing.list_tests (TestListing.Directory entries) problem_id
    = Ok (200, JObj [ (py "problem_id", JStr problem_id);
                      (py "tests", JArr (map JStr tests));
                      (py "count", JInt (Z.of_nat (length tests))) ])
    /\ TestListing._get_test_cases_local (TestListing.Directory entries)
       = Ok tests
    /\ Permutation tests (TestListing.txt_stems entries)
    /\ length tests
       = length (filter (fun f => pystr_eqb (TestListing.suffix f) (py ".txt"))
                   entries).
Proof.
  destruct (sort_tests_perm (TestListing.txt_stems entries)) as (tests & Hs & Hp).
  exists tests. unfold TestListing.list_tests, TestListing._get_test_cases_local.
  rewrite Hs. cbn [rbind]. split; [reflexivity|]. split; [reflexivity|].
  split; [assumption|].
  rewrite (Permutation_length Hp). unfold TestListing.txt_stems.
  apply length_map.
Qed.

(** *** The order of the listing *)

Lemma StronglySorted_filter {A} (R : A -> A -> Prop) (p : A -> bool) (l : list A) :
  StronglySorted R l -> StronglySorted R (filter p l).
Proof.
  induction 1 as [|x t Ht IH Hx]; simpl; [constructor|].
  destruct (p x); [|assumption].
  constructor; [assumption|].
  apply Forall_forall. intros y Hy. apply filter_In in Hy.
  rewrite Forall_forall in Hx. apply Hx. apply Hy.
Qed.

Lemma StronglySorted_map {A B} (R : A -> A -> Prop) (R' : B -> B -> Prop)
    (P : A -> Prop) (f : A -> B) (l : list A) :
  (forall x y, P x -> P y -> R x y -> R' (f x) (f y)) ->
  Forall P l -> StronglySorted R l -> StronglySorted R' (map f l).
Proof.
  intros HR HP Hs. induction Hs as [|x t Ht IH Hx]; simpl; [constructor|].
  inversion HP as [|? ? Px Pt]; subst.
  constructor; [apply IH; assumption|].
  apply Forall_map. rewrite Forall_forall in Hx, Pt |- *.
  intros y Hy. apply HR; auto.
Qed.

Lemma sorted_partition {A} (R : A -> A -> Prop) (p : A -> bool) (l : list A) :
  (forall x y, R x y -> p y = true -> p x = true) ->
  StronglySorted R l ->
  l = filter p l ++ filter (fun x => negb (p x)) l.
Proof.
  intros Hp. induction 1 as [|x t Ht IH Hx]; [reflexivity|]. simpl.
  destruct (p x) eqn:E; simpl.
  - f_equal. assumption.
  - assert (Hnone : filter p t = []).
    { clear IH Ht. induction t as [|y t IH]; [reflexivity|].
      inversion Hx as [|? ? Hy Hx']; subst. simpl.
      destruct (p y) eqn:Ey.
      - rewrite (Hp x y Hy Ey) in E. discriminate.
      - apply IH. assumption. }
    rewrite Hnone in *. simpl in *. f_equal. assumption.
Qed.

(** X17: When [int] reads every id that [str.isdigit] takes for a number, the
    listing has the numeric ids first, in increasing numeric value ("2"
    before "10"), and the other ids after them in lexicographic order. *)
Theorem sort_tests_numeric_first (tests : list pystr) :
  ids_readable tests = true ->
  exists nums others,
    TestListing.sort_tests tests = Ok (nums ++ others)
    /\ Forall (fun x => TestListing.isdigit x = true) nums
    /\ Forall (fun x => TestListing.isdigit x = false) others
    /\ StronglySorted numeric_le nums
    /\ StronglySorted text_le others.
Proof.
  intros H. destruct (sort_tests_readable _ H) as (ks & Hk & ->).
  destruct (keyed_Ok _ Hk) as [_ Hspec].
  set (S := TestListing.sort_by
              (fun a b => TestListing.key_ltb (fst a) (fst b)) ks).
  assert (Hsorted : StronglySorted keyed_le S) by apply sort_by_key_sorted.
  assert (HspecS : Forall (fun p => TestListing.sort_key_of (snd p) = Ok (fst p)) S).
  { apply Forall_forall. intros p Hp. rewrite Forall_forall in Hspec.
    apply Hspec. apply (Permutation_in _ (sort_by_key_perm ks)). assumption. }
  assert (Hpart : S = filter is_num_key S ++ filter (fun x => negb (is_num_key x)) S).
  { apply (sorted_partition (R := keyed_le)); [|assumption].
    intros [k x] [k' y]. unfold keyed_le, key_le, is_num_key. simpl.
    destruct k, k'; simpl; congruence. }
  exists (map snd (filter is_num_key S)),
         (map snd (filter (fun x => negb (is_num_key x)) S)).
  split; [rewrite <- map_app, <- Hpart; reflexivity|].
  assert (Hnum : Forall (fun p => TestListing.sort_key_of (snd p) = Ok (fst p)
                                  /\ is_num_key p = true)
                   (filter is_num_key S)).
  { apply Forall_forall. intros p Hp. apply filter_In in Hp.
    rewrite Forall_forall in HspecS. split; [apply HspecS|]; apply Hp. }
  assert (Htxt : Forall (fun p => TestListing.sort_key_of (snd p) = Ok (fst p)
                                  /\ is_num_key p = false)
                   (filter (fun x => negb (is_num_key x)) S)).
  { apply Forall_forall. intros p Hp. apply filter_In in Hp.
    rewrite Forall_forall in HspecS. split; [apply HspecS; apply Hp|].
    destruct Hp as [_ Hp]. apply negb_true_iff in Hp. assumption. }
  split; [|split; [|split]].
  - apply Forall_map. eapply Forall_impl; [|exact Hnum].
    intros [k x] [Hs Hn]. simpl in *. apply sort_key_of_Ok in Hs.
    destruct Hs as [[Hd _] | [_ ->]]; [assumption | discriminate].
  - apply Forall_map. eapply Forall_impl; [|exact Htxt].
    intros [k x] [Hs Hn]. simpl in *. apply sort_key_of_Ok in Hs.
    destruct Hs as [[_ (z & _ & ->)] | [Hd _]]; [discriminate | assumption].
  - eapply StronglySorted_map with (R := keyed_le); [|exact Hnum|].
    + intros [k x] [k' y] [Hs Hn] [Hs' Hn'] Hle. simpl in *.
      apply sort_key_of_Ok in Hs, Hs'.
      destruct Hs as [[_ (z & Hz & ->)] | [_ ->]]; [|discriminate].
      destruct Hs' as [[_ (z' & Hz' & ->)] | [_ ->]]; [|discriminate].
      exists z, z'. split; [assumption|]. split; [assumption|].
      unfold keyed_le, key_le in Hle. simpl in Hle.
      apply Z.ltb_ge in Hle. assumption.
    + apply StronglySorted_filter. assumption.
  - eapply StronglySorted_map with (R := keyed_le); [|exact Htxt|].
    + intros [k x] [k' y] [Hs Hn] [Hs' Hn'] Hle. simpl in *.
      apply sort_key_of_Ok in Hs, Hs'.
      destruct Hs as [[_ (z & _ & ->)] | [_ ->]]; [discriminate|].
      destruct Hs' as [[_ (z' & _ & ->)] | [_ ->]]; [discriminate|].
      exact Hle.
    + apply StronglySorted_filter. assumption.
Qed.

Lemma sort_tests_numeric_first_witness :
  ids_readable [py "10"; py "b"; py "2"; py "a"; py "1"] = true
  /\ exists nums others,
       TestListing.sort_tests [py "10"; py "b"; py "2"; py "a"; py "1"]
       = Ok (nums ++ others)
       /\ Forall (fun x => TestListing.isdigit x = true) nums
       /\ Forall (fun x => TestListing.isdigit x = false) others
       /\ StronglySorted numeric_le nums
       /\ StronglySorted text_le others.
Proof.
  split; [reflexivity|].
  apply sort_tests_numeric_first. reflexivity.
Defined.

(** X18: When some id that [str.isdigit] takes for a number is refused by [int]
    (a superscript digit, or more than 4300 digits), the numeric sort is
    given up and the listing is in plain lexicographic order, where "10"
    comes before "2". *)
Theorem sort_tests_fallback_is_lexicographic (tests : list pystr) :
  ids_readable tests = false ->
  exists sorted_tests,
    TestListing.sort_tests tests = Ok sorted_tests
    /\ Permutation sorted_tests tests
    /\ StronglySorted text_le sorted_tests.
Proof.
  intros H. rewrite (sort_tests_unreadable _ H).
  eexists. split; [reflexivity|]. split.
  - apply sort_by_perm.
  - apply sort_by_str_sorted.
Qed.

Lemma sort_tests_fallback_is_lexicographic_witness :
  ids_readable [py "2"; [ascii_of_nat 178]; py "10"] = false
  /\ TestListing.sort_tests [py "2"; [ascii_of_nat 178]; py "10"]
     = Ok [py "10"; py "2"; [ascii_of_nat 178]]
  /\ exists sorted_tests,
       TestListing.sort_tests [py "2"; [ascii_of_nat 178]; py "10"]
       = Ok sorted_tests
       /\ Permutation sorted_tests [py "2"; [ascii_of_nat 178]; py "10"]
       /\ StronglySorted text_le sorted_tests.
Proof.
  split; [reflexivity|]. split; [vm_compute; reflexivity|].
  apply sort_tests_fallback_is_lexicographic. reflexivity.
Defined.

(** *** The listing does not depend on the order of the directory *)

Lemma ids_readable_perm (t t' : list pystr) :
  Permutation t t' -> ids_readable t = ids_readable t'.
Proof.
  intros Hp. unfold ids_readable.
  apply bool_eq_true_iff; rewrite !forallb_forall; intros H x Hx; apply H.
  - apply (Permutation_in _ (Permutation_sym Hp)). assumption.
  - apply (Permutation_in _ Hp). assumption.
Qed.

Lemma keyed_perm (t t' : list pystr) :
  Permutation t t' ->
  forall ks ks', TestListing.keyed t = Ok ks -> TestListing.keyed t' = Ok ks' ->
                 Permutation ks ks'.
Proof.
  induction 1 as [| x l l' Hp IH | x y l | l l' l'' Hp1 IH1 Hp2 IH2];
    intros ks ks' Hk Hk'.
  - simpl in *. injection Hk as <-. injection Hk' as <-. constructor.
  - simpl in *.
    destruct (TestListing.sort_key_of x) as [k|]; simpl in *; [|discriminate].
    destruct (TestListing.keyed l) as [a|]; simpl in *; [|discriminate].
    destruct (TestListing.keyed l') as [b|]; simpl in *; [|discriminate].
    injection Hk as <-. injection Hk' as <-. constructor. apply IH; reflexivity.
  - simpl in *.
    destruct (TestListing.sort_key_of y) as [ky|]; simpl in *; [|discriminate].
    destruct (TestListing.sort_key_of x) as [kx|]; simpl in *; [|discriminate].
    destruct (TestListing.keyed l) as [a|]; simpl in *; [|discriminate].
    injection Hk as <-. injection Hk' as <-. apply perm_swap.
  - assert (Hr : ids_readable l' = true).
    { rewrite <- (ids_readable_perm Hp1). apply keyed_readable.
      exists ks. assumption. }
    apply keyed_readable in Hr. destruct Hr as [ks1 Hk1].
    apply (Permutation_trans (l' := ks1)); [apply IH1 | apply IH2]; assumption.
Qed.

(** X19: The listing is the same in whatever order the directory is read,
    provided no two different ids are numbers of the same value (as "1"
    and "01" are; those keep the order of the directory). *)
Theorem sort_tests_order_independent (tests tests' : list pystr) :
  Permutation tests tests' ->
  numbers_distinct tests ->
  TestListing.sort_tests tests = TestListing.sort_tests tests'.
Proof.
  intros Hp Hd. destruct (ids_readable tests) eqn:Hr.
  - assert (Hr' : ids_readable tests' = true)
      by (rewrite <- (ids_readable_perm Hp); assumption).
    destruct (sort_tests_readable _ Hr) as (ks & Hk & ->).
    destruct (sort_tests_readable _ Hr') as (ks' & Hk' & ->).
    do 2 f_equal.
    apply (@StronglySorted_perm_unique _ keyed_le).
    + intros [k x] [k' y] Hx Hy Hxy Hyx.
      unfold keyed_le in Hxy, Hyx. simpl in Hxy, Hyx.
      assert (k' = k) by (apply key_le_antisym; assumption). subst k'.
      f_equal.
      destruct (keyed_Ok _ Hk) as [Hs Hspec]. rewrite Forall_forall in Hspec.
      apply (Permutation_in _ (sort_by_key_perm ks)) in Hx, Hy.
      pose proof (Hspec _ Hx) as Sx. pose proof (Hspec _ Hy) as Sy.
      simpl in Sx, Sy. apply sort_key_of_Ok in Sx, Sy.
      assert (Ix : In x tests)
        by (rewrite <- Hs; apply (in_map snd _ _ Hx)).
      assert (Iy : In y tests)
        by (rewrite <- Hs; apply (in_map snd _ _ Hy)).
      destruct Sx as [[Dx (z & Zx & ->)] | [_ ->]];
        destruct Sy as [[Dy (z' & Zy & E)] | [_ E]]; try discriminate.
      * injection E as <-. apply (Hd x y z); assumption.
      * injection E as <-. reflexivity.
    + apply sort_by_key_sorted.
    + apply sort_by_key_sorted.
    + rewrite !sort_by_key_perm. eapply keyed_perm; eassumption.
  - assert (Hr' : ids_readable tests' = false)
      by (rewrite <- (ids_readable_perm Hp); assumption).
    rewrite (sort_tests_unreadable _ Hr), (sort_tests_unreadable _ Hr').
    f_equal. apply (@StronglySorted_perm_unique _ text_le).
    + intros x y _ _. apply text_le_antisym.
    + apply sort_by_str_sorted.
    + apply sort_by_str_sorted.
    + rewrite !sort_by_perm. assumption.
Qed.

Lemma sort_tests_order_independent_witness :
  TestListing.sort_tests [py "b"; py "2"; py "10"]
  = TestListing.sort_tests [py "10"; py "b"; py "2"]
  /\ TestListing.sort_tests [py "1"; py "01"]
     <> TestListing.sort_tests [py "01"; py "1"].
Proof.
  split.
  - apply sort_tests_order_independent.
    + exact (Permutation_sym (Permutation_cons_append [py "b"; py "2"] (py "10"))).
    + intros x y z [<- | [<- | [<- | []]]] [<- | [<- | [<- | []]]];
        vm_compute; intros; congruence.
  - vm_compute. discriminate.
Defined.

(** ** More on the grading runner *)

Lemma json_get_Ok_find (data : json) (key : pystr) (default v : json) :
  json_get data key default = Ok v -> exists fields, data = JObj fields.
Proof. destruct data; simpl; try discriminate. intros _. eexists. reflexivity. Qed.

(** A truthy verdict comes from a 200 reply whose body is an object with a
    truthy ["passed"] entry, and from nothing else. *)
Lemma _grade_via_api_truthy (reply : Runner.http_reply) :
  (exists p m, Runner._grade_via_api reply = Ok (p, m) /\ truthy p = true)
  <-> exists ct data p,
        reply = Runner.Reply 200 ct (Ok data)
        /\ json_get data (py "passed") (JBool false) = Ok p
        /\ truthy p = true.
Proof.
  unfold Runner._grade_via_api. split.
  - intros (p & m & H & Hp).
    destruct reply as [e | code ct body].
    + destruct (is_RequestException e); [|discriminate].
      injection H as <- _. discriminate.
    + destruct (code =? 200) eqn:Ecode.
      * apply Z.eqb_eq in Ecode. subst code.
        destruct body as [data | e]; cbn [rbind] in H.
        -- destruct (json_get data (py "passed") (JBool false)) as [p' | e] eqn:Eg;
             cbn [rbind] in H.
           ++ destruct (json_get data (py "message") (JStr [])) as [m' | e];
                cbn [rbind] in H.
              ** injection H as <- _. exists ct, data, p'. auto.
              ** destruct (is_RequestException e); [|discriminate].
                 injection H as <- _. discriminate.
           ++ destruct (is_RequestException e); [|discriminate].
              injection H as <- _. discriminate.
        -- destruct (is_RequestException e); [|discriminate].
           injection H as <- _. discriminate.
      * exfalso.
        match type of H with
        | context [rbind ?d _] => destruct d as [data | e]
        end; cbn [rbind] in H.
        -- destruct (Runner.json_find data (py "message")) as [[v|]|e];
             cbn [rbind] in H.
           ++ injection H as <- _. discriminate.
           ++ injection H as <- _. discriminate.
           ++ destruct (is_RequestException e); [|discriminate].
              injection H as <- _. discriminate.
        -- destruct (is_RequestException e); [|discriminate].
           injection H as <- _. discriminate.
  - intros (ct & data & p & -> & Hg & Hp).
    destruct (json_get_Ok_find _ _ _ Hg) as [fields ->].
    exists p. eexists. split; [|exact Hp].
    rewrite Z.eqb_refl. cbn [rbind]. rewrite Hg. cbn [rbind json_get].
    reflexivity.
Qed.

Lemma _run_test_case_command (problem_id : pystr) (tl : Z) (problems_dir : pystr)
    (env : Runner.test_env) (test_id executable language : pystr) :
  Runner.input_exists env = true ->
  Runner._run_test_case problem_id tl problems_dir env test_id executable language
  = match Runner.run env (command executable language) with
    | Runner.TimeoutExpired =>
        TestResult.mk test_id false (py "TLE") (Z_to_float (tl * 1000)) []
          [Lit (py "Time limit exceeded ("); IntArg tl; Lit (py "s)")]
          [Lit (py "Time limit exceeded")]
    | Runner.SpawnFailed e =>
        TestResult.mk test_id false (py "RE") 0 [] [ExnArg e] [ExnArg e]
    | Runner.Completed returncode out err time_ms =>
        if negb (returncode =? 0)
        then TestResult.mk test_id false (py "RE") time_ms out [StrArg err]
               [Lit (py "Runtime error (exit code "); IntArg returncode;
                Lit (py ")")]
        else
          match Runner._grade_via_api
                  (Runner.post_grade env (Runner._normalize_output out)) with
          | Raise e =>
              TestResult.mk test_id false (py "RE") 0 [] [ExnArg e] [ExnArg e]
          | Ok (passed, message) =>
              if truthy passed
              then TestResult.mk test_id true (py "AC") time_ms out
                     [StrArg err] message
              else TestResult.mk test_id false (py "WA") time_ms out
                     [StrArg err] message
          end
    end.
Proof.
  intros H. unfold Runner._run_test_case, command. rewrite H. reflexivity.
Qed.

(** X20: A test case passes exactly when its input file exists, the program
    ran to completion with exit code 0, and the verdict service answered
    the normalized output with status 200 and a true ["passed"]. *)
Theorem test_case_passes_iff (problem_id : pystr) (time_limit_seconds : Z)
    (problems_dir : pystr) (env : Runner.test_env)
    (test_id executable language : pystr) :
  TestResult.passed
    (Runner._run_test_case problem_id time_limit_seconds problems_dir env
       test_id executable language) = true
  <->
  Runner.input_exists env = true
  /\ exists out err elapsed ct data p,
       Runner.run env (command executable language)
       = Runner.Completed 0 out err elapsed
       /\ Runner.post_grade env (Runner._normalize_output out)
          = Runner.Reply 200 ct (Ok data)
       /\ json_get data (py "passed") (JBool false) = Ok p
       /\ truthy p = true.
Proof.
  split.
  - destruct (Runner.input_exists env) eqn:Hin.
    2:{ unfold Runner._run_test_case. rewrite Hin. discriminate. }
    rewrite (_run_test_case_command _ _ _ _ _ _ _ Hin).
    destruct (Runner.run env (command executable language))
      as [rc out err ms | | e]; try discriminate.
    destruct (rc =? 0) eqn:Erc; cbn [negb]; [|discriminate].
    apply Z.eqb_eq in Erc. subst rc.
    destruct (Runner._grade_via_api _) as [[p m] | e] eqn:Eg; [|discriminate].
    destruct (truthy p) eqn:Hp; [|discriminate].
    intros _. split; [reflexivity|].
    assert (Ht : exists p m,
               Runner._grade_via_api
                 (Runner.post_grade env (Runner._normalize_output out))
               = Ok (p, m) /\ truthy p = true)
      by (exists p, m; auto).
    apply _grade_via_api_truthy in Ht.
    destruct Ht as (ct & data & p' & Hr & Hg & Hp').
    exists out, err, ms, ct, data, p'. auto.
  - intros (Hin & out & err & ms & ct & data & p & Hrun & Hpost & Hg & Hp).
    rewrite (_run_test_case_command _ _ _ _ _ _ _ Hin), Hrun.
    cbn [Z.eqb negb].
    assert (Ht : exists p m,
               Runner._grade_via_api
                 (Runner.post_grade env (Runner._normalize_output out))
               = Ok (p, m) /\ truthy p = true).
    { apply _grade_via_api_truthy. exists ct, data, p. auto. }
    destruct Ht as (p' & m & -> & ->). reflexivity.
Qed.

(** X21: The status of a test result is "AC", "WA", "TLE" or "RE", never "CE",
    and the result carries the id of its test.  It is "TLE" exactly when
    the run timed out; "WA" only after a run that exited with code 0; and a
    run that exits with another code gives "RE" whatever it printed, with
    no request to the verdict service. *)
Theorem test_case_status (problem_id : pystr) (time_limit_seconds : Z)
    (problems_dir : pystr) (env : Runner.test_env)
    (test_id executable language : pystr) :
  let r := Runner._run_test_case problem_id time_limit_seconds problems_dir
             env test_id executable language in
  In (TestResult.status r) [py "AC"; py "WA"; py "TLE"; py "RE"]
  /\ TestResult.test_id r = test_id
  /\ (TestResult.status r = py "TLE"
      <-> Runner.input_exists env = true
          /\ Runner.run env (command executable language)
             = Runner.TimeoutExpired)
  /\ (TestResult.status r = py "WA" ->
      exists out err elapsed,
        Runner.run env (command executable language)
        = Runner.Completed 0 out err elapsed)
  /\ (forall rc out err elapsed,
        Runner.input_exists env = true ->
        Runner.run env (command executable language)
        = Runner.Completed rc out err elapsed ->
        rc <> 0 ->
        r = TestResult.mk test_id false (py "RE") elapsed out [StrArg err]
              [Lit (py "Runtime error (exit code "); IntArg rc; Lit (py ")")]).
Proof.
  cbv zeta. destruct (Runner.input_exists env) eqn:Hin.
  2:{ unfold Runner._run_test_case. rewrite Hin. cbn.
      split; [auto 6|]. split; [reflexivity|].
      split; [split; [discriminate | intros [H _]; discriminate]|].
      split; [discriminate|]. intros; discriminate. }
  rewrite (_run_test_case_command _ _ _ _ _ _ _ Hin).
  destruct (Runner.run env (command executable language))
    as [rc out err ms | | e].
  - destruct (rc =? 0) eqn:Erc; cbn [negb].
    + apply Z.eqb_eq in Erc. subst rc.
      destruct (Runner._grade_via_api _) as [[p m] | e];
        [destruct (truthy p)|]; cbn;
        (split; [auto 6|]); (split; [reflexivity|]);
        (split; [split; [discriminate | intros [_ H]; discriminate]|]);
        (split; [try discriminate; intros _; eauto|]);
        intros rc' out' err' ms' _ H Hne; injection H as <- _ _ _;
        contradiction.
    + apply Z.eqb_neq in Erc. cbn.
      split; [auto 6|]. split; [reflexivity|].
      split; [split; [discriminate | intros [_ H]; discriminate]|].
      split; [discriminate|].
      intros rc' out' err' ms' _ H _. injection H as <- <- <- <-. reflexivity.
  - cbn. split; [auto 6|]. split; [reflexivity|].
    split; [split; auto|]. split; [discriminate|]. intros; discriminate.
  - cbn. split; [auto 6|]. split; [reflexivity|].
    split; [split; [discriminate | intros [_ H]; discriminate]|].
    split; [discriminate|]. intros; discriminate.
Qed.

Lemma run_tests_results (problem_id : pystr) (tl : Z) (problems_dir : pystr)
    (w : Runner.world) (executable language : pystr)
    (test_cases : list pystr) :
  forall (pos : nat) (acc : list TestResult.t) (p : Z),
    Runner.run_tests problem_id tl problems_dir w executable language pos
      test_cases acc p
    = (acc ++ results_from problem_id tl problems_dir w executable language
                pos test_cases,
       p + count_passed (results_from problem_id tl problems_dir w executable
                           language pos test_cases)).
Proof.
  induction test_cases as [|t rest IH]; intros pos acc p; simpl.
  - rewrite app_nil_r. unfold count_passed. simpl. rewrite Z.add_0_r.
    reflexivity.
  - rewrite IH, <- app_assoc. simpl. f_equal. unfold count_passed. simpl.
    destruct (TestResult.passed _); simpl length; lia.
Qed.

Lemma _run_test_case_test_id (problem_id : pystr) (tl : Z) (problems_dir : pystr)
    (env : Runner.test_env) (test_id executable language : pystr) :
  TestResult.test_id
    (Runner._run_test_case problem_id tl problems_dir env test_id executable
       language) = test_id.
Proof.
  unfold Runner._run_test_case.
  destruct (Runner.input_exists env); simpl; [|reflexivity].
  destruct (Runner.run env _) as [rc out err ms | | e]; try reflexivity.
  destruct (rc =? 0); simpl; [|reflexivity].
  destruct (Runner._grade_via_api _) as [[p m] | e]; [|reflexivity].
  destruct (truthy p); reflexivity.
Qed.

Lemma results_from_ids (problem_id : pystr) (tl : Z) (problems_dir : pystr)
    (w : Runner.world) (executable language : pystr)
    (test_cases : list pystr) :
  forall pos,
    map TestResult.test_id
      (results_from problem_id tl problems_dir w executable language pos
         test_cases)
    = test_cases.
Proof.
  induction test_cases as [|t rest IH]; intros pos; simpl; [reflexivity|].
  rewrite IH. f_equal. apply _run_test_case_test_id.
Qed.

Lemma count_passed_bounds (rs : list TestResult.t) :
  0 <= count_passed rs <= Z.of_nat (length rs).
Proof.
  unfold count_passed. pose proof (filter_length_le TestResult.passed rs). lia.
Qed.

Lemma grade_test_cases_results (problem_id : pystr) (tl : Z)
    (problems_dir : pystr) (w : Runner.world) (executable language : pystr) :
  no_test_cases w = false ->
  Runner.grade_test_cases problem_id tl problems_dir w executable language
  = let rs := results_from problem_id tl problems_dir w executable language 0
                (Runner._get_test_cases w) in
    GradingResult.mk
      (Z_to_float (count_passed rs)
       / Z_to_float (Z.of_nat (length (Runner._get_test_cases w))))%float
      (count_passed rs) (Z.of_nat (length (Runner._get_test_cases w)))
      language rs None.
Proof.
  unfold no_test_cases, Runner.grade_test_cases.
  destruct (Runner._get_test_cases w) as [|t rest] eqn:E; [discriminate|].
  intros _. rewrite run_tests_results. cbn [app Z.add].
  assert (Hpos : (0 <? Z.of_nat (length (t :: rest))) = true)
    by (apply Z.ltb_lt; simpl length; lia).
  rewrite Hpos. reflexivity.
Qed.

(** X22: When the pass gets as far as running the tests, the results are one
    per test case, in the order of the test list and each carrying its
    test id; every test is run on its own surroundings, nothing is carried
    from one test to the next; [passed] counts the passing results and lies
    between 0 and [total], the number of test cases; and no
    compilation_error is set. *)
Theorem grading_results_follow_test_cases (problem_id : pystr)
    (time_limit_seconds : Z) (workdir problems_dir : pystr) (w : Runner.world) :
  ends_early w = false ->
  let r := Runner.run_grading problem_id time_limit_seconds workdir
             problems_dir w in
  GradingResult.test_results r
  = results_from problem_id time_limit_seconds problems_dir w
      (executable_of problem_id workdir w) (language_of w) 0
      (Runner._get_test_cases w)
  /\ map TestResult.test_id (GradingResult.test_results r)
     = Runner._get_test_cases w
  /\ GradingResult.total r = Z.of_nat (length (Runner._get_test_cases w))
  /\ 0 <= GradingResult.passed r <= GradingResult.total r
  /\ GradingResult.language r = language_of w
  /\ GradingResult.compilation_error r = None.
Proof.
  unfold ends_early, solution_missing, compile_failed. intros He.
  apply orb_false_iff in He. destruct He as [He Hn].
  apply orb_false_iff in He. destruct He as [Hs Hc].
  cbv zeta. unfold Runner.run_grading, Runner._detect_solution,
    executable_of, language_of.
  assert (Hres : forall executable language,
    let r := Runner.grade_test_cases problem_id time_limit_seconds
               problems_dir w executable language in
    GradingResult.test_results r
    = results_from problem_id time_limit_seconds problems_dir w executable
        language 0 (Runner._get_test_cases w)
    /\ map TestResult.test_id (GradingResult.test_results r)
       = Runner._get_test_cases w
    /\ GradingResult.total r = Z.of_nat (length (Runner._get_test_cases w))
    /\ 0 <= GradingResult.passed r <= GradingResult.total r
    /\ GradingResult.language r = language
    /\ GradingResult.compilation_error r = None).
  { intros executable language. cbv zeta.
    rewrite (grade_test_cases_results _ _ _ _ _ _ Hn). cbv zeta.
    cbn [GradingResult.test_results GradingResult.total GradingResult.passed
         GradingResult.language GradingResult.compilation_error].
    split; [reflexivity|]. split; [apply results_from_ids|].
    split; [reflexivity|]. split; [|split; reflexivity].
    pose proof (count_passed_bounds
                  (results_from problem_id time_limit_seconds problems_dir w
                     executable language 0 (Runner._get_test_cases w))) as Hb.
    rewrite <- (results_from_ids problem_id time_limit_seconds problems_dir w
                  executable language (Runner._get_test_cases w) 0) at 3.
    rewrite length_map. exact Hb. }
  destruct (Runner.cpp_exists w) eqn:Ecpp.
  - change (pystr_eqb (py "cpp") (py "cpp")) with true. cbv iota.
    cbn [andb negb] in Hc. apply negb_false_iff in Hc.
    destruct (Runner._compile_cpp w) as [success error]. simpl in Hc.
    subst success. cbn [negb]. apply Hres.
  - destruct (Runner.py_exists w) eqn:Epy; [|discriminate].
    change (pystr_eqb (py "python") (py "cpp")) with false. cbv iota.
    apply Hres.
Qed.

Lemma grading_results_follow_test_cases_witness :
  ends_early Examples.two_tests_world = false
  /\ map TestResult.test_id
       (GradingResult.test_results
          (Runner.run_grading (py "rez") 1 (py "/workdir") (py "/problems")
             Examples.two_tests_world))
     = [py "1"; py "2"].
Proof.
  split; [reflexivity|].
  apply (grading_results_follow_test_cases (py "rez") 1 (py "/workdir")
           (py "/problems") Examples.two_tests_world).
  reflexivity.
Defined.

Lemma results_from_ext (problem_id : pystr) (tl : Z) (problems_dir : pystr)
    (w w' : Runner.world) (executable language : pystr)
    (test_cases : list pystr) :
  (forall pos id, Runner.tests w' pos id = Runner.tests w pos id) ->
  forall pos,
    results_from problem_id tl problems_dir w' executable language pos test_cases
    = results_from problem_id tl problems_dir w executable language pos
        test_cases.
Proof.
  intros H. induction test_cases as [|t rest IH]; intros pos; simpl;
    [reflexivity|].
  rewrite H, IH. reflexivity.
Qed.

Lemma grade_test_cases_ext (problem_id : pystr) (tl : Z) (problems_dir : pystr)
    (w w' : Runner.world) (executable language : pystr) :
  Runner._get_test_cases w' = Runner._get_test_cases w ->
  (forall pos id, Runner.tests w' pos id = Runner.tests w pos id) ->
  Runner.grade_test_cases problem_id tl problems_dir w' executable language
  = Runner.grade_test_cases problem_id tl problems_dir w executable language.
Proof.
  intros Hc Ht. unfold Runner.grade_test_cases. rewrite Hc.
  destruct (Runner._get_test_cases w) as [|t rest]; [reflexivity|].
  rewrite !run_tests_results.
  rewrite (@results_from_ext problem_id tl problems_dir w w' executable
             language (t :: rest) Ht). reflexivity.
Qed.

(** X23: A C++ solution takes precedence: when [<problem>.cpp] exists the result
    does not depend on whether a Python solution exists too (so a failed
    compilation ends the pass even though a Python solution is there); and
    when it does not exist nothing is compiled, the compiler plays no
    part. *)
Theorem cpp_solution_takes_precedence (problem_id : pystr)
    (time_limit_seconds : Z) (workdir problems_dir : pystr) (w : Runner.world) :
  (Runner.cpp_exists w = true ->
   forall b,
     Runner.run_grading problem_id time_limit_seconds workdir problems_dir
       (with_py_exists w b)
     = Runner.run_grading problem_id time_limit_seconds workdir problems_dir w)
  /\ (Runner.cpp_exists w = false ->
      forall c,
        Runner.run_grading problem_id time_limit_seconds workdir problems_dir
          (with_compiler w c)
        = Runner.run_grading problem_id time_limit_seconds workdir
            problems_dir w).
Proof.
  split; intros H x; unfold Runner.run_grading, Runner._detect_solution;
    cbn [with_py_exists with_compiler Runner.cpp_exists Runner.py_exists];
    rewrite H.
  - change (pystr_eqb (py "cpp") (py "cpp")) with true. cbv iota.
    change (Runner._compile_cpp (with_py_exists w x))
      with (Runner._compile_cpp w).
    destruct (Runner._compile_cpp w) as [success error].
    destruct success; cbn [negb]; [|reflexivity].
    apply grade_test_cases_ext; reflexivity.
  - destruct (Runner.py_exists w); [|reflexivity].
    change (pystr_eqb (py "python") (py "cpp")) with false. cbv iota.
    apply grade_test_cases_ext; reflexivity.
Qed.

Lemma cpp_solution_takes_precedence_witness :
  GradingResult.compilation_error
    (Runner.run_grading (py "rez") 1 (py "/workdir") (py "/problems")
       (with_py_exists Examples.silent_compiler_world true))
  = Some [].
Proof.
  rewrite (proj1 (cpp_solution_takes_precedence (py "rez") 1 (py "/workdir")
                    (py "/problems") Examples.silent_compiler_world)
             eq_refl true).
  reflexivity.
Defined.

Lemma _run_test_case_failed_request (problem_id : pystr) (tl : Z)
    (problems_dir : pystr) (env : Runner.test_env)
    (test_id executable language : pystr) :
  (forall posted, request_failed (Runner.post_grade env posted)) ->
  TestResult.passed
    (Runner._run_test_case problem_id tl problems_dir env test_id executable
       language) = false.
Proof.
  intros Hfail. unfold Runner._run_test_case.
  destruct (Runner.input_exists env); simpl; [|reflexivity].
  destruct (Runner.run env _) as [rc out err ms | | e]; try reflexivity.
  destruct (rc =? 0); simpl; [|reflexivity].
  pose proof (_grade_via_api_failed _
                (Hfail (Runner._normalize_output out))) as H.
  destruct (Runner._grade_via_api _) as [[p m] | e]; [|reflexivity].
  subst p. reflexivity.
Qed.

Lemma count_passed_none (rs : list TestResult.t) :
  Forall (fun t => TestResult.passed t = false) rs -> count_passed rs = 0.
Proof.
  unfold count_passed. induction 1 as [|t rs Ht _ IH]; [reflexivity|].
  simpl. rewrite Ht. exact IH.
Qed.

Lemma run_grading_results (problem_id : pystr) (tl : Z)
    (workdir problems_dir : pystr) (w : Runner.world) :
  let r := Runner.run_grading problem_id tl workdir problems_dir w in
  (GradingResult.test_results r = [] /\ GradingResult.passed r = 0
   /\ GradingResult.total r = 0)
  \/ (exists executable language,
        GradingResult.test_results r
        = results_from problem_id tl problems_dir w executable language 0
            (Runner._get_test_cases w)
        /\ GradingResult.passed r
           = count_passed (GradingResult.test_results r)
        /\ GradingResult.total r
           = Z.of_nat (length (Runner._get_test_cases w))).
Proof.
  cbv zeta.
  assert (Hg : forall executable language,
    let r := Runner.grade_test_cases problem_id tl problems_dir w executable
               language in
    (GradingResult.test_results r = [] /\ GradingResult.passed r = 0
     /\ GradingResult.total r = 0)
    \/ (exists executable language,
          GradingResult.test_results r
          = results_from problem_id tl problems_dir w executable language 0
              (Runner._get_test_cases w)
          /\ GradingResult.passed r
             = count_passed (GradingResult.test_results r)
          /\ GradingResult.total r
             = Z.of_nat (length (Runner._get_test_cases w)))).
  { intros executable language. cbv zeta.
    destruct (no_test_cases w) eqn:Hn.
    - left. unfold no_test_cases in Hn. unfold Runner.grade_test_cases.
      destruct (Runner._get_test_cases w); [|discriminate].
      repeat split; reflexivity.
    - right. exists executable, language.
      rewrite (grade_test_cases_results _ _ _ _ _ _ Hn). cbv zeta.
      repeat split; reflexivity. }
  unfold Runner.run_grading, Runner._detect_solution.
  destruct (Runner.cpp_exists w).
  - change (pystr_eqb (py "cpp") (py "cpp")) with true. cbv iota.
    destruct (Runner._compile_cpp w) as [success error].
    destruct success; cbn [negb]; [apply Hg|].
    left. repeat split; reflexivity.
  - destruct (Runner.py_exists w).
    + change (pystr_eqb (py "python") (py "cpp")) with false. cbv iota.
      apply Hg.
    + left. repeat split; reflexivity.
Qed.

Lemma results_from_failed_requests (problem_id : pystr) (tl : Z)
    (problems_dir : pystr) (w : Runner.world) (executable language : pystr)
    (test_cases : list pystr) :
  (forall pos id posted,
     request_failed (Runner.post_grade (Runner.tests w pos id) posted)) ->
  forall pos,
    Forall (fun t => TestResult.passed t = false)
      (results_from problem_id tl problems_dir w executable language pos
         test_cases).
Proof.
  intros Hfail. induction test_cases as [|t rest IH]; intros pos; simpl;
    [constructor|].
  constructor; [|apply IH].
  apply _run_test_case_failed_request. intros posted. apply Hfail.
Qed.

(** X24: Fail-closed for the whole pass: when no grade request can get a
    verdict (the verdict service is unreachable, or answers with a status
    other than 200), no test of the pass is passed and the number of passed
    tests is 0, whatever the programs print. *)
Theorem unreachable_service_passes_nothing (problem_id : pystr)
    (time_limit_seconds : Z) (workdir problems_dir : pystr) (w : Runner.world) :
  (forall pos id posted,
     request_failed (Runner.post_grade (Runner.tests w pos id) posted)) ->
  let r := Runner.run_grading problem_id time_limit_seconds workdir
             problems_dir w in
  GradingResult.passed r = 0
  /\ Forall (fun t => TestResult.passed t = false)
       (GradingResult.test_results r).
Proof.
  intros Hfail. cbv zeta.
  destruct (run_grading_results problem_id time_limit_seconds workdir
              problems_dir w)
    as [(Hr & Hp & _) | (executable & language & Hr & Hp & _)].
  - rewrite Hr, Hp. split; [reflexivity | constructor].
  - assert (HF : Forall (fun t => TestResult.passed t = false)
                   (GradingResult.test_results
                      (Runner.run_grading problem_id time_limit_seconds
                         workdir problems_dir w))).
    { rewrite Hr. apply results_from_failed_requests. exact Hfail. }
    split; [|exact HF]. rewrite Hp. apply count_passed_none. exact HF.
Qed.

Lemma unreachable_service_passes_nothing_witness :
  GradingResult.passed
    (Runner.run_grading (py "rez") 1 (py "/workdir") (py "/problems")
       Examples.two_tests_world) = 0
  /\ GradingResult.total
       (Runner.run_grading (py "rez") 1 (py "/workdir") (py "/problems")
          Examples.two_tests_world) = 2.
Proof.
  split; [|reflexivity].
  apply (@unreachable_service_passes_nothing (py "rez") 1 (py "/workdir")
           (py "/problems") Examples.two_tests_world).
  intros pos id posted. simpl. exact I.
Defined.

(** ** The runner and the verdict service together *)

Lemma grade_of_request (get_checker : pystr -> CheckerFunc)
    (fs : GradingServer.files) (problem_id test_id out : pystr) :
  problem_id <> [] -> test_id <> [] ->
  GradingServer.grade get_checker fs
    (Ok (grade_request problem_id test_id out))
  = GradingServer.grade_test get_checker fs problem_id (JStr test_id) (JStr out).
Proof.
  intros Hp Ht. unfold GradingServer.grade, grade_request.
  cbn [truthy negb].
  change (json_get _ (py "problem_id") JNull) with (Ok (JStr problem_id)).
  change (json_get _ (py "test_id") JNull) with (Ok (JStr test_id)).
  change (json_get _ (py "actual_output") (JStr [])) with (Ok (JStr out)).
  cbv iota. cbn [truthy].
  destruct problem_id; [congruence|]. destruct test_id; [congruence|].
  reflexivity.
Qed.

Lemma grade_test_readable (get_checker : pystr -> CheckerFunc)
    (fs : GradingServer.files) (problem_id : pystr) (test_id actual : json)
    (input_data expected_output : pystr) :
  GradingServer.input_file fs problem_id test_id
    = GradingServer.Readable input_data ->
  GradingServer.output_file fs problem_id test_id
    = GradingServer.Readable expected_output ->
  GradingServer.grade_test get_checker fs problem_id test_id actual
  = checker_reply (get_checker problem_id problem_id input_data
                     expected_output actual).
Proof.
  intros Hi Ho. unfold GradingServer.grade_test. rewrite Hi, Ho.
  cbn [GradingServer.exists_ negb GradingServer.read_text rbind].
  unfold checker_reply.
  destruct (get_checker problem_id problem_id input_data expected_output actual)
    as [[p m] | e]; reflexivity.
Qed.

Lemma checker_reply_passed (r : result (bool * message)) :
  GradingServer.passed (checker_reply r) = accepts r
  /\ GradingServer.status_code (checker_reply r) = 200.
Proof. destruct r as [[p m] | e]; split; reflexivity. Qed.

Lemma _grade_via_api_reply_of (render : message -> pystr)
    (r : GradingServer.response) :
  GradingServer.status_code r = 200 ->
  Runner._grade_via_api (reply_of render r)
  = Ok (JBool (GradingServer.passed r),
        [ValArg (JStr (render (GradingServer.message r)))]).
Proof.
  intros H. unfold Runner._grade_via_api, reply_of. rewrite H.
  reflexivity.
Qed.

(** X25: The runner and the verdict service together: when the program runs to
    completion with exit code 0 on a test whose files the service can read,
    the test passes exactly when the checker of the problem accepts what
    the program printed, as it printed it, against the stored expected
    output; the status is then "AC", and "WA" otherwise. *)
Theorem passed_iff_checker_accepts_output (render : message -> pystr)
    (py_float : pystr -> option float) (fs : GradingServer.files)
    (problem_id : pystr) (time_limit_seconds : Z) (problems_dir : pystr)
    (env : Runner.test_env) (test_id executable language : pystr)
    (out err : pystr) (elapsed : float) (input_data expected_output : pystr) :
  served_by render (get_checker py_float) fs problem_id test_id env ->
  Runner.input_exists env = true ->
  Runner.run env (command executable language)
    = Runner.Completed 0 out err elapsed ->
  problem_id <> [] -> test_id <> [] ->
  GradingServer.input_file fs problem_id (JStr test_id)
    = GradingServer.Readable input_data ->
  GradingServer.output_file fs problem_id (JStr test_id)
    = GradingServer.Readable expected_output ->
  let r := Runner._run_test_case problem_id time_limit_seconds problems_dir
             env test_id executable language in
  let accepted := accepts (get_checker py_float problem_id problem_id
                             input_data expected_output (JStr out)) in
  TestResult.passed r = accepted
  /\ TestResult.status r = (if accepted then py "AC" else py "WA")
  /\ TestResult.stdout r = out.
Proof.
  intros Hserved Hin Hrun Hp Ht Hi Ho. cbv zeta.
  rewrite (_run_test_case_command _ _ _ _ _ _ _ Hin), Hrun.
  cbn [Z.eqb negb]. rewrite Hserved.
  rewrite (grade_of_request _ _ _ Hp Ht).
  rewrite (grade_test_readable _ _ _ _ _ Hi Ho).
  destruct (checker_reply_passed
              (get_checker py_float problem_id problem_id input_data
                 expected_output (JStr (Runner._normalize_output out))))
    as [Hpassed Hstatus].
  rewrite (_grade_via_api_reply_of render _ Hstatus). rewrite Hpassed.
  cbn [truthy].
  change (Runner._normalize_output out)
    with (GradingServer.normalize_output out).
  rewrite (@verdict_of_stripped_lines py_float problem_id problem_id
             input_data expected_output (GradingServer.normalize_output out)
             out (stripped_lines_normalize out)).
  clear Hpassed Hstatus.
  destruct (accepts (get_checker py_float problem_id problem_id input_data
                       expected_output (JStr out)));
    repeat split; reflexivity.
Qed.

Lemma passed_iff_checker_accepts_output_witness :
  TestResult.passed
    (Runner._run_test_case (py "sum") 2 (py "/problems")
       (MoreExamples.served_sum_env (py "3.0000001" ++ [CR; LF; LF]))
       (py "1") (py "/workdir/sum.py") (py "python"))
  = accepts (get_checker Examples.float_of_decimal (py "sum") (py "sum")
               (py "1 2") (py "3" ++ [LF])
               (JStr (py "3.0000001" ++ [CR; LF; LF])))
  /\ accepts (get_checker Examples.float_of_decimal (py "sum") (py "sum")
                (py "1 2") (py "3" ++ [LF])
                (JStr (py "3.0000001" ++ [CR; LF; LF]))) = true.
Proof.
  split; [|vm_compute; reflexivity].
  apply (@passed_iff_checker_accepts_output MoreExamples.literal_text
           Examples.float_of_decimal Examples.sum_files_with_newline
           (py "sum") 2 (py "/problems")
           (MoreExamples.served_sum_env (py "3.0000001" ++ [CR; LF; LF]))
           (py "1") (py "/workdir/sum.py") (py "python")
           (py "3.0000001" ++ [CR; LF; LF]) [] 1.5%float
           (py "1 2") (py "3" ++ [LF])).
  - intros out. reflexivity.
  - reflexivity.
  - reflexivity.
  - discriminate.
  - discriminate.
  - reflexivity.
  - reflexivity.
Defined.

(** ** The PASTELE checker accepts every valid claim *)

Lemma parse_tokens_unpack3 (tokens : list pystr) (t : PasteleSpec.crayon) :
  PasteleSpec.parse_tokens tokens = Some t -> unpack3_int tokens = Ok t.
Proof.
  unfold PasteleSpec.parse_tokens, int_of.
  destruct tokens as [|p0 [|p1 [|p2 [|p3 ps]]]]; try discriminate.
  simpl.
  destruct (py_int p0); simpl; [|discriminate].
  destruct (py_int p1); simpl; [|discriminate].
  destruct (py_int p2); simpl; [|discriminate].
  intros H. injection H as <-. reflexivity.
Qed.

Lemma load_crayon_total (lines : list pystr) (i : nat) (c0 : Pastele.cells)
    (line : pystr) (t : PasteleSpec.crayon) :
  nth_error lines i = Some line ->
  PasteleSpec.parse_tokens (split_ws line) = Some t ->
  PasteleSpec.in_domain t ->
  exists c1, Pastele.load_crayon lines (Z.of_nat i) c0 = Next c1.
Proof.
  intros Hl Hp Hd. unfold Pastele.load_crayon. rewrite py_index_nat, Hl.
  cbn [lift cbind]. rewrite (parse_tokens_unpack3 _ Hp). cbn [lift cbind].
  destruct t as [[r g] b].
  unfold PasteleSpec.in_domain, PasteleSpec.red, PasteleSpec.green,
    PasteleSpec.blue in Hd. simpl in Hd.
  rewrite count_add_in_range by lia. eexists. reflexivity.
Qed.

Lemma load_loop_total (lines : list pystr) (n : nat) :
  forall (i : nat) (c0 : Pastele.cells) (cs : list PasteleSpec.crayon),
    read_block (fun l => PasteleSpec.parse_tokens (split_ws l)) lines i n
      = Some cs ->
    Forall PasteleSpec.in_domain cs ->
    exists c, for_range n (Z.of_nat i) (Pastele.load_crayon lines) c0 = Next c.
Proof.
  induction n as [|n IH]; intros i c0 cs Hr Hd.
  - eexists. reflexivity.
  - cbn [read_block] in Hr.
    destruct (nth_error lines i) as [line|] eqn:Hl; [|discriminate].
    destruct (PasteleSpec.parse_tokens (split_ws line)) as [t|] eqn:Hp;
      [|discriminate].
    destruct (read_block _ lines (S i) n) as [cs'|] eqn:Hr'; [|discriminate].
    injection Hr as <-. inversion Hd as [|? ? Ht Hd']; subst.
    destruct (load_crayon_total lines i c0 Hl Hp Ht) as [c1 E].
    destruct (IH (S i) c1 cs' Hr' Hd') as [c E'].
    exists c. cbn [for_range]. rewrite E. cbn [cbind].
    replace (Z.of_nat i + 1) with (Z.of_nat (S i)) by lia. assumption.
Qed.

Lemma use_crayon_total (lines : list pystr) (i : nat) (st0 : Pastele.state)
    (line : pystr) (r g b : Z) :
  nth_error lines i = Some line ->
  PasteleSpec.parse_tokens (split_ws (strip line)) = Some (r, g, b) ->
  PasteleSpec.in_domain (r, g, b) ->
  0 < Pastele.count st0 r g b ->
  Pastele.use_crayon lines (Z.of_nat i) st0
  = Next (Pastele.mkState
            (Pastele.cells_set (Pastele.count st0) r g b
               (Pastele.count st0 r g b + -1))
            (Z.min (Pastele.min_r st0) r) (Z.min (Pastele.min_g st0) g)
            (Z.min (Pastele.min_b st0) b)
            (Z.max (Pastele.max_r st0) r) (Z.max (Pastele.max_g st0) g)
            (Z.max (Pastele.max_b st0) b)).
Proof.
  intros Hl Hp Hd Hav. unfold Pastele.use_crayon. rewrite py_index_nat, Hl.
  cbn [lift cbind].
  unfold PasteleSpec.parse_tokens, int_of in Hp.
  destruct (split_ws (strip line)) as [|p0 [|p1 [|p2 [|p3 ps]]]];
    try discriminate.
  destruct (py_int p0) as [r'|]; [|discriminate].
  destruct (py_int p1) as [g'|]; [|discriminate].
  destruct (py_int p2) as [b'|]; [|discriminate].
  injection Hp as -> -> ->. cbn [lift cbind].
  unfold PasteleSpec.in_domain, PasteleSpec.red, PasteleSpec.green,
    PasteleSpec.blue in Hd. simpl in Hd.
  assert (Hrange : (0 <=? r) && (r <? 256) && (0 <=? g) && (g <? 256)
                   && (0 <=? b) && (b <? 256) = true).
  { rewrite !andb_true_iff, !Z.leb_le, !Z.ltb_lt. lia. }
  rewrite Hrange. cbn [negb].
  rewrite count_get_in_range by lia. cbn [lift cbind].
  assert (Hpos : (Pastele.count st0 r g b <=? 0) = false)
    by (apply Z.leb_gt; assumption).
  rewrite Hpos. rewrite count_add_in_range by lia. reflexivity.
Qed.

Lemma use_loop_total (lines : list pystr) (n : nat) :
  forall (i : nat) (st0 : Pastele.state) (cs : list PasteleSpec.crayon),
    read_block (fun l => PasteleSpec.parse_tokens (split_ws (strip l))) lines i n
      = Some cs ->
    Forall PasteleSpec.in_domain cs ->
    (forall r g b,
       Z.of_nat (count_occ PasteleSpec.crayon_eq_dec cs (r, g, b))
       <= Pastele.count st0 r g b) ->
    exists st, for_range n (Z.of_nat i) (Pastele.use_crayon lines) st0 = Next st.
Proof.
  induction n as [|n IH]; intros i st0 cs Hr Hd Hav.
  - eexists. reflexivity.
  - cbn [read_block] in Hr.
    destruct (nth_error lines i) as [line|] eqn:Hl; [|discriminate].
    destruct (PasteleSpec.parse_tokens (split_ws (strip line)))
      as [[[r g] b]|] eqn:Hp; [|discriminate].
    destruct (read_block _ lines (S i) n) as [cs'|] eqn:Hr'; [|discriminate].
    injection Hr as <-. inversion Hd as [|? ? Ht Hd']; subst.
    assert (Hpos : 0 < Pastele.count st0 r g b).
    { specialize (Hav r g b). rewrite count_occ_cons_Z in Hav.
      destruct (PasteleSpec.crayon_eq_dec (r, g, b) (r, g, b)); [lia | congruence]. }
    cbn [for_range]. rewrite (use_crayon_total lines i st0 Hl Hp Ht Hpos).
    cbn [cbind]. replace (Z.of_nat i + 1) with (Z.of_nat (S i)) by lia.
    apply (IH (S i) _ cs' Hr' Hd').
    intros r' g' b'. cbn [Pastele.count].
    specialize (Hav r' g' b'). rewrite count_occ_cons_Z in Hav.
    destruct (PasteleSpec.crayon_eq_dec (r, g, b) (r', g', b')) as [Heq | Hneq].
    + injection Heq as <- <- <-. rewrite cells_set_same. lia.
    + rewrite cells_set_other by congruence. lia.
Qed.

(** X26: The converse of C6: on an input of the problem, the PASTELE checker
    accepts every output whose first line is the expected colorfulness,
    followed by K crayons with components in [0, 255] that are drawn from
    the input multiset and whose maximum per-channel extent is that
    colorfulness; the message is "OK". *)
Theorem pastele_accepts_valid_claims
    (problem_id input_data expected actual : pystr)
    (k c : Z) (crayons claimed : list PasteleSpec.crayon) :
  PasteleSpec.parse_input input_data = Some (k, crayons) ->
  Forall PasteleSpec.in_domain crayons ->
  0 < k ->
  parse_scalar expected = Some c ->
  parse_scalar actual = Some c ->
  PasteleSpec.parse_claim k actual = Some claimed ->
  Forall PasteleSpec.in_domain claimed ->
  PasteleSpec.drawn_from claimed crayons ->
  c = PasteleSpec.colorfulness claimed ->
  checker_pastele problem_id input_data expected (JStr actual)
  = Ok (true, [Lit (py "OK")]).
Proof.
  intros Hin Hdom Hk Hexp Hact Hcl HFc Hdrawn Hc.
  unfold checker_pastele, Pastele.body. cbn [attr_strip lift cbind].
  unfold PasteleSpec.parse_input in Hin.
  unfold parse_scalar in Hexp, Hact. unfold PasteleSpec.parse_claim in Hcl.
  remember (split_nl (strip input_data)) as input_lines eqn:Hil.
  remember (split_nl (strip expected)) as expected_lines eqn:Hel.
  remember (split_nl (strip actual)) as actual_lines eqn:Hal.
  clear Hil Hel Hal.
  destruct input_lines as [|l0 rest]; [discriminate|].
  destruct (split_ws l0) as [|t0 [|t1 [|t2 ts]]] eqn:Etok; try discriminate.
  destruct (int_of t0) as [n|] eqn:En; try discriminate.
  destruct (int_of t1) as [k'|] eqn:Ek; try discriminate.
  destruct (read_block (fun l => PasteleSpec.parse_tokens (split_ws l))
              (l0 :: rest) 1 (Z.to_nat n)) as [crayons'|] eqn:Hcs;
    try discriminate.
  injection Hin as -> ->.
  rewrite py_index_0. cbn [lift cbind].
  rewrite Etok, (unpack2_int_Ok _ _ En Ek). cbn [lift cbind].
  (* the counting array *)
  destruct (load_loop_total (l0 :: rest) (Z.to_nat n) 1 Pastele.cells_zero
              Hcs Hdom) as [cells Ecells].
  change (Z.of_nat 1) with 1 in Ecells. rewrite Ecells. cbn [cbind].
  change 1 with (Z.of_nat 1) in Ecells.
  apply load_loop in Ecells. destruct Ecells as (cs & Hcs' & Hcount).
  rewrite Hcs in Hcs'. injection Hcs' as <-. specialize (Hcount Hdom).
  (* the scalars *)
  destruct expected_lines as [|x0 xrest]; [discriminate|].
  destruct actual_lines as [|y0 yrest]; [discriminate|].
  apply int_of_Some in Hexp, Hact.
  rewrite py_index_0. cbn [lift cbind]. rewrite Hexp. cbn [lift cbind].
  assert (Elen1 : (Z.of_nat (length (y0 :: yrest)) <? 1) = false)
    by (apply Z.ltb_ge; simpl length; lia).
  rewrite Elen1. cbn [return_if cbind].
  rewrite py_index_0. cbn [lift cbind try_except]. rewrite Hact.
  cbn [lift cbind try_except]. rewrite Z.eqb_refl. cbn [negb return_if cbind].
  assert (Elen2 : (Z.of_nat (length (y0 :: yrest)) <? k + 1) = false).
  { apply Z.ltb_ge.
    destruct (read_block_bound _ _ _ _ Hcl) as [H0 | Hbd]; simpl length in *; lia. }
  rewrite Elen2. cbn [return_if cbind].
  (* the claimed crayons *)
  assert (Hav : forall r g b,
             Z.of_nat (count_occ PasteleSpec.crayon_eq_dec claimed (r, g, b))
             <= Pastele.count (Pastele.init_state cells) r g b).
  { intros r g b. cbn [Pastele.init_state Pastele.count]. rewrite Hcount.
    unfold Pastele.cells_zero. specialize (Hdrawn (r, g, b)). lia. }
  destruct (use_loop_total (y0 :: yrest) (Z.to_nat k) 1
              (Pastele.init_state cells) Hcl HFc Hav) as [st Est].
  change (Z.of_nat 1) with 1 in Est. rewrite Est. cbn [cbind].
  change 1 with (Z.of_nat 1) in Est.
  apply use_loop in Est.
  2:{ intros r g b. cbn [Pastele.init_state Pastele.count].
      rewrite Hcount. unfold Pastele.cells_zero. lia. }
  destruct Est as (claimed' & Hcl' & _ & _ & _
                   & Hmr & Hmg & Hmb & HMr & HMg & HMb).
  rewrite Hcl in Hcl'. injection Hcl' as <-.
  cbn [Pastele.init_state Pastele.min_r Pastele.min_g
       Pastele.min_b Pastele.max_r Pastele.max_g Pastele.max_b]
    in Hmr, Hmg, Hmb, HMr, HMg, HMb.
  pose proof (read_block_length _ _ _ _ Hcl) as Lc.
  assert (Ecomp : Z.max (Z.max (Pastele.max_r st - Pastele.min_r st)
                           (Pastele.max_g st - Pastele.min_g st))
                    (Pastele.max_b st - Pastele.min_b st) = c).
  { destruct claimed as [|[[r g] b] t]; [simpl in Lc; lia|].
    pose proof (Forall_inv HFc) as Hd.
    unfold PasteleSpec.in_domain, PasteleSpec.red, PasteleSpec.green,
      PasteleSpec.blue in Hd. simpl in Hd.
    cbn [map] in Hmr, Hmg, Hmb, HMr, HMg, HMb.
    rewrite fold_min_extent in Hmr, Hmg, Hmb
      by (unfold PasteleSpec.red, PasteleSpec.green, PasteleSpec.blue; simpl; lia).
    rewrite fold_max_extent in HMr, HMg, HMb
      by (unfold PasteleSpec.red, PasteleSpec.green, PasteleSpec.blue; simpl; lia).
    rewrite Hc, Hmr, Hmg, Hmb, HMr, HMg, HMb. reflexivity. }
  rewrite Ecomp, Z.eqb_refl. reflexivity.
Qed.

Lemma pastele_accepts_valid_claims_witness :
  checker_pastele (py "pastele") Examples.pastele_input
    Examples.pastele_expected (JStr Examples.pastele_good)
  = Ok (true, [Lit (py "OK")]).
Proof.
  apply (pastele_accepts_valid_claims (py "pastele")
           Examples.pastele_input Examples.pastele_expected
           Examples.pastele_good (k := 2) (c := 10)
           (crayons := [(0, 0, 0); (10, 10, 10); (100, 100, 100); (200, 200, 200)])
           (claimed := [(10, 10, 10); (0, 0, 0)])).
  - vm_compute. reflexivity.
  - repeat constructor; vm_compute; discriminate.
  - lia.
  - vm_compute. reflexivity.
  - vm_compute. reflexivity.
  - vm_compute. reflexivity.
  - repeat constructor; vm_compute; discriminate.
  - intros [[r g] b]. cbn [count_occ].
    repeat match goal with
           | |- context [PasteleSpec.crayon_eq_dec ?a ?b] =>
               destruct (PasteleSpec.crayon_eq_dec a b)
           end; try lia; congruence.
  - vm_compute. reflexivity.
Defined.

(** ** Consequences of the acceptance condition of the REZ checker *)

Lemma rez_accepts_spec (problem_id input_data expected actual : pystr) :
  accepts (checker_rez problem_id input_data expected (JStr actual)) = true
  <->
  exists (k n : Z) (cuts : list Rez.cut),
    int_of (strip input_data) = Some k
    /\ parse_scalar expected = Some n
    /\ parse_scalar actual = Some n
    /\ RezSpec.parse_cuts (Z.to_nat n) actual = Some cuts
    /\ Forall RezSpec.cut_on_boundary cuts
    /\ k <= 1 + n + Rez.count_intersections cuts.
Proof.
  unfold checker_rez. rewrite accepts_guard. unfold Rez.body.
  cbn [attr_strip lift cbind].
  unfold parse_scalar, RezSpec.parse_cuts.
  remember (split_nl (strip expected)) as expected_lines eqn:Hel.
  remember (split_nl (strip actual)) as actual_lines eqn:Hal.
  clear Hel Hal.
  split.
  - intros [msg H].
    destruct (py_int (strip input_data)) as [k | e] eqn:Ek;
      cbn [lift cbind] in H; [|discriminate].
    accept_step H e0 Ee0. apply lift_Next in Ee0. rewrite py_index_0 in Ee0.
    accept_step H expected_n Eexp. apply lift_Next in Eexp.
    accept_step H u1 Elen. clear Elen u1.
    accept_step H a0 Ea0. apply lift_Next in Ea0. rewrite py_index_0 in Ea0.
    accept_step H actual_n Eact. apply try_int_Next in Eact.
    accept_step H u2 Eeq. apply return_if_Next in Eeq.
    apply negb_false_iff, Z.eqb_eq in Eeq. subst actual_n. clear u2.
    accept_step H u3 Elen. clear Elen u3.
    accept_step H cuts Ec.
    change 1 with (Z.of_nat 1) in Ec.
    apply (for_range_read_block RezSpec.parse_cut actual_lines
             (Rez.parse_cut actual_lines)
             (parse_cut_Next actual_lines)) in Ec.
    destruct Ec as (cuts' & Hc & Ec). simpl in Ec. subst cuts'.
    accept_step H u4 Eb. destruct u4. apply check_boundary_Next in Eb.
    accept_step H u5 Ep. apply return_if_Next in Ep. apply Z.ltb_ge in Ep.
    exists k, expected_n, cuts.
    destruct expected_lines as [|x0 xrest]; try discriminate.
    injection Ee0 as ->.
    destruct actual_lines as [|y0 yrest]; try discriminate.
    injection Ea0 as ->.
    apply int_of_Some in Ek, Eexp, Eact.
    rewrite Ek, Eexp, Eact, Hc. repeat split; assumption.
  - intros (k & n & cuts & Hk & Hexp & Hact & Hc & Hb & Hp).
    exists [Lit (py "OK")].
    destruct expected_lines as [|x0 xrest]; try discriminate.
    destruct actual_lines as [|y0 yrest]; try discriminate.
    apply int_of_Some in Hk, Hexp, Hact.
    rewrite Hk. cbn [lift cbind].
    rewrite py_index_0. cbn [lift cbind]. rewrite Hexp. cbn [lift cbind].
    assert (Elen1 : (Z.of_nat (length (y0 :: yrest)) <? 1) = false)
      by (apply Z.ltb_ge; simpl length; lia).
    rewrite Elen1. cbn [return_if cbind].
    rewrite py_index_0. cbn [lift cbind try_except]. rewrite Hact.
    cbn [lift cbind try_except]. rewrite Z.eqb_refl. cbn [negb return_if cbind].
    assert (Elen2 : (Z.of_nat (length (y0 :: yrest)) <? n + 1) = false).
    { apply Z.ltb_ge.
      destruct (read_block_bound _ _ _ _ Hc) as [H0 | Hbd]; simpl length in *; lia. }
    rewrite Elen2. cbn [return_if cbind].
    assert (Ec : for_range (Z.to_nat n) 1 (Rez.parse_cut (y0 :: yrest)) []
                 = Next cuts).
    { change 1 with (Z.of_nat 1).
      apply (for_range_read_block RezSpec.parse_cut (y0 :: yrest)
               (Rez.parse_cut (y0 :: yrest)) (parse_cut_Next (y0 :: yrest))).
      exists cuts. auto. }
    rewrite Ec. cbn [cbind].
    assert (Eb : Rez.check_boundary 0 cuts = Next tt)
      by (apply check_boundary_Next; assumption).
    rewrite Eb. cbn [cbind].
    assert (Ep : (1 + n + Rez.count_intersections cuts <? k) = false)
      by (apply Z.ltb_ge; assumption).
    rewrite Ep. reflexivity.
Qed.

Lemma determinant_self (c : Rez.cut) : determinant c c = 0.
Proof. destruct c as [[[x1 y1] x2] y2]. unfold determinant. ring. Qed.

Lemma repeat_parallel (c : Rez.cut) (n : nat) :
  ForallOrdPairs (fun c1 c2 => determinant c1 c2 = 0) (repeat c n).
Proof.
  induction n as [|n IH]; simpl; constructor; [|assumption].
  apply Forall_forall. intros d Hd. apply repeat_spec in Hd. subst d.
  apply determinant_self.
Qed.

(** X27: The REZ checker counts the pieces as 1 + N + intersections without
    asking that the cuts differ: an output that gives the same cut N times
    (with N the expected number) is accepted exactly when K <= N + 1,
    although the cake is then cut along one line only. *)
Theorem rez_accepts_repeated_cut
    (problem_id input_data expected actual : pystr) (k n : Z) (c : Rez.cut) :
  int_of (strip input_data) = Some k ->
  parse_scalar expected = Some n ->
  parse_scalar actual = Some n ->
  RezSpec.parse_cuts (Z.to_nat n) actual = Some (repeat c (Z.to_nat n)) ->
  RezSpec.cut_on_boundary c ->
  accepts (checker_rez problem_id input_data expected (JStr actual)) = true
  <-> k <= n + 1.
Proof.
  intros Hk Hexp Hact Hcuts Hb. rewrite rez_accepts_spec.
  pose proof (count_intersections_zero (repeat_parallel c (Z.to_nat n))) as Hz.
  split.
  - intros (k' & n' & cuts & Hk' & Hexp' & Hact' & Hcuts' & _ & Hp).
    rewrite Hk in Hk'. injection Hk' as <-.
    rewrite Hexp in Hexp'. injection Hexp' as <-.
    rewrite Hcuts in Hcuts'. injection Hcuts' as <-. lia.
  - intros Hle. exists k, n, (repeat c (Z.to_nat n)).
    repeat (split; [assumption|]). split.
    + apply Forall_forall. intros d Hd. apply repeat_spec in Hd. subst d.
      assumption.
    + lia.
Qed.

Lemma rez_accepts_repeated_cut_witness :
  accepts (checker_rez (py "rez") (py "3") (py "2")
             (JStr (Examples.text ["2"; "-5000 0 5000 0"; "-5000 0 5000 0"]%string)))
  = true.
Proof.
  apply (@rez_accepts_repeated_cut (py "rez") (py "3") (py "2")
           (Examples.text ["2"; "-5000 0 5000 0"; "-5000 0 5000 0"]%string)
           3 2 (-5000, 0, 5000, 0)).
  - vm_compute. reflexivity.
  - vm_compute. reflexivity.
  - vm_compute. reflexivity.
  - vm_compute. reflexivity.
  - unfold RezSpec.cut_on_boundary, RezSpec.on_square_boundary. lia.
  - lia.
Defined.

(** X28: The number of intersections counted for N cuts lies between 0 and
    N(N-1)/2, so the REZ checker computes at most 1 + N + N(N-1)/2 pieces:
    whatever the cuts, no output is accepted when K exceeds that bound for
    the expected N. *)
Theorem count_intersections_bounds :
  (forall cuts : list Rez.cut,
     let n := Z.of_nat (length cuts) in
     0 <= Rez.count_intersections cuts <= n * (n - 1) / 2)
  /\ (forall (problem_id input_data expected actual : pystr) (k n : Z),
        int_of (strip input_data) = Some k ->
        parse_scalar expected = Some n ->
        1 + n + n * (n - 1) / 2 < k ->
        accepts (checker_rez problem_id input_data expected (JStr actual))
        = false).
Proof.
  split; [intros cuts; apply count_intersections_le|].
  intros problem_id input_data expected actual k n Hk Hn Hlt.
  destruct (accepts _) eqn:Hacc; [|reflexivity]. exfalso.
  apply rez_accepts_spec in Hacc.
  destruct Hacc as (k' & n' & cuts & Hk' & Hn' & _ & Hcuts & _ & Hp).
  rewrite Hk in Hk'. injection Hk' as <-.
  rewrite Hn in Hn'. injection Hn' as <-.
  unfold RezSpec.parse_cuts in Hcuts. apply read_block_length in Hcuts.
  destruct (count_intersections_le cuts) as [_ Hle]. rewrite Hcuts in Hle.
  assert (Hbound : Z.of_nat (Z.to_nat n) * (Z.of_nat (Z.to_nat n) - 1) / 2
                   <= n * (n - 1) / 2).
  { apply Z.div_le_mono; [lia|].
    destruct (Z_le_gt_dec 0 n); [rewrite Z2Nat.id by lia; lia|].
    replace (Z.to_nat n) with 0%nat by lia. simpl. nia. }
  lia.
Qed.

Lemma count_intersections_bounds_witness :
  accepts (checker_rez (py "rez") (py "8") (py "3")
             (JStr (Examples.text ["3"; "-5000 -5000 5000 5000";
                                   "-5000 5000 5000 -5000";
                                   "-5000 0 5000 1"]%string)))
  = false.
Proof.
  apply (proj2 count_intersections_bounds (py "rez") (py "8") (py "3")
           (Examples.text ["3"; "-5000 -5000 5000 5000";
                           "-5000 5000 5000 -5000"; "-5000 0 5000 1"]%string)
           8 3).
  - vm_compute. reflexivity.
  - vm_compute. reflexivity.
  - vm_compute. reflexivity.
Defined.

(** ** Consequences of the acceptance condition of the KOLEKCIJA checker *)

Lemma kolekcija_accepts_spec (problem_id input_data expected actual : pystr) :
  accepts (checker_kolekcija problem_id input_data expected (JStr actual)) = true
  <->
  exists (n k : Z) (songs : list Z) (claimed : Z) (windows : list (Z * Z)),
    KolekcijaSpec.parse_input input_data = Some (n, k, songs)
    /\ parse_scalar expected = Some claimed
    /\ parse_scalar actual = Some claimed
    /\ KolekcijaSpec.parse_windows (length songs) actual = Some windows
    /\ Forall2 (KolekcijaSpec.valid_window n k) songs windows
    /\ distinct_covered windows = claimed.
Proof.
  unfold checker_kolekcija. rewrite accepts_guard. unfold Kolekcija.body.
  cbn [attr_strip lift cbind].
  unfold KolekcijaSpec.parse_input, parse_scalar,
    KolekcijaSpec.parse_windows.
  remember (split_nl (strip input_data)) as input_lines eqn:Hil.
  remember (split_nl (strip expected)) as expected_lines eqn:Hel.
  remember (split_nl (strip actual)) as actual_lines eqn:Hal.
  clear Hil Hel Hal.
  split.
  - intros [msg H].
    accept_step H line0 E0. apply lift_Next in E0. rewrite py_index_0 in E0.
    accept_step H t0 Et0. apply lift_Next in Et0. rewrite py_index_0 in Et0.
    accept_step H n En. apply lift_Next in En.
    accept_step H t1 Et1. apply lift_Next in Et1. rewrite py_index_1 in Et1.
    accept_step H k Ek. apply lift_Next in Ek.
    accept_step H line1 E1. apply lift_Next in E1. rewrite py_index_1 in E1.
    accept_step H m Em. apply lift_Next in Em.
    accept_step H songs Es.
    change 2 with (Z.of_nat 2) in Es.
    apply (for_range_read_block (fun l => int_of (strip l)) input_lines
             (Kolekcija.read_song input_lines)
             (read_song_Next input_lines)) in Es.
    destruct Es as (songs' & Hsongs & Es). simpl in Es. subst songs'.
    accept_step H e0 Ee0. apply lift_Next in Ee0. rewrite py_index_0 in Ee0.
    accept_step H expected_accesses Eexp. apply lift_Next in Eexp.
    accept_step H u1 Elen. clear Elen u1.
    accept_step H a0 Ea0. apply lift_Next in Ea0. rewrite py_index_0 in Ea0.
    accept_step H actual_accesses Eact. apply try_int_Next in Eact.
    accept_step H u2 Eeq. apply return_if_Next in Eeq.
    apply negb_false_iff, Z.eqb_eq in Eeq. subst actual_accesses. clear u2.
    accept_step H u3 Elen. clear Elen u3.
    accept_step H windows Ew.
    change 1 with (Z.of_nat 1) in Ew.
    apply (for_range_read_block KolekcijaSpec.parse_window actual_lines
             (Kolekcija.parse_interval actual_lines)
             (parse_interval_Next actual_lines)) in Ew.
    destruct Ew as (windows' & Hw & Ew). simpl in Ew. subst windows'.
    pose proof (read_block_length _ _ _ _ Hsongs) as Ls.
    pose proof (read_block_length _ _ _ _ Hw) as Lw.
    accept_step H u4 Ev. destruct u4.
    assert (L : length songs = length windows)
      by (transitivity (Z.to_nat m); [exact Ls | symmetry; exact Lw]).
    apply (proj1 (@validate_Next n k songs windows 0 L)) in Ev.
    accept_step H u5 Ed. apply return_if_Next in Ed.
    apply negb_false_iff, Z.eqb_eq in Ed. clear u5.
    rewrite _count_distinct_in_intervals_correct in Ed
      by (eapply Forall2_valid_nonempty; eassumption).
    exists n, k, songs, expected_accesses, windows.
    destruct input_lines as [|l0 [|l1 rest]]; try discriminate.
    injection E0 as ->. injection E1 as ->.
    destruct (split_ws line0) as [|s0 [|s1 srest]]; try discriminate.
    injection Et0 as ->. injection Et1 as ->.
    destruct expected_lines as [|x0 xrest]; try discriminate.
    injection Ee0 as ->.
    destruct actual_lines as [|y0 yrest]; try discriminate.
    injection Ea0 as ->.
    apply int_of_Some in En, Ek, Em, Eexp, Eact.
    rewrite En, Ek, Em, Hsongs, Eexp, Eact, Ls, Hw.
    repeat split; assumption.
  - intros (n & k & songs & claimed & windows & Hin & Hexp & Hact & Hw & Hv & Hd).
    exists [Lit (py "OK")].
    destruct input_lines as [|l0 [|l1 rest]]; try discriminate.
    destruct (split_ws l0) as [|s0 [|s1 srest]] eqn:Etok; try discriminate.
    destruct (int_of s0) as [n' |] eqn:En; try discriminate.
    destruct (int_of s1) as [k' |] eqn:Ek; try discriminate.
    destruct (int_of (strip l1)) as [m |] eqn:Em; try discriminate.
    destruct (read_block (fun l => int_of (strip l)) (l0 :: l1 :: rest) 2
                (Z.to_nat m)) as [songs' |] eqn:Hsongs; try discriminate.
    injection Hin as -> -> ->.
    destruct expected_lines as [|x0 xrest]; try discriminate.
    destruct (int_of (strip x0)) as [c1 |] eqn:Eexp; try discriminate.
    injection Hexp as ->.
    destruct actual_lines as [|y0 yrest]; try discriminate.
    destruct (int_of (strip y0)) as [c2 |] eqn:Eact; try discriminate.
    injection Hact as ->.
    apply int_of_Some in En, Ek, Em, Eexp, Eact.
    pose proof (read_block_length _ _ _ _ Hsongs) as Ls.
    pose proof (read_block_length _ _ _ _ Hw) as Lw.
    rewrite Ls in Hw.
    rewrite py_index_0. cbn [lift cbind]. rewrite Etok.
    rewrite py_index_0. cbn [lift cbind]. rewrite En. cbn [lift cbind].
    rewrite py_index_1. cbn [lift cbind]. rewrite Ek. cbn [lift cbind].
    rewrite py_index_1. cbn [lift cbind]. rewrite Em. cbn [lift cbind].
    assert (Es : for_range (Z.to_nat m) 2
                   (Kolekcija.read_song (l0 :: l1 :: rest)) [] = Next songs).
    { change 2 with (Z.of_nat 2).
      apply (for_range_read_block (fun l => int_of (strip l)) (l0 :: l1 :: rest)
               (Kolekcija.read_song (l0 :: l1 :: rest))
               (read_song_Next (l0 :: l1 :: rest))).
      exists songs. auto. }
    rewrite Es. cbn [cbind].
    rewrite py_index_0. cbn [lift cbind]. rewrite Eexp. cbn [lift cbind].
    assert (Elen1 : (Z.of_nat (length (y0 :: yrest)) <? 1) = false)
      by (apply Z.ltb_ge; simpl length; lia).
    rewrite Elen1. cbn [return_if cbind].
    rewrite py_index_0. cbn [lift cbind try_except]. rewrite Eact.
    cbn [lift cbind try_except]. rewrite Z.eqb_refl. cbn [negb return_if cbind].
    assert (Elen2 : (Z.of_nat (length (y0 :: yrest)) <? m + 1) = false).
    { apply Z.ltb_ge.
      destruct (read_block_bound _ _ _ _ Hw) as [H0 | Hb]; simpl length in *; lia. }
    rewrite Elen2. cbn [return_if cbind].
    assert (Ew : for_range (Z.to_nat m) 1
                   (Kolekcija.parse_interval (y0 :: yrest)) [] = Next windows).
    { change 1 with (Z.of_nat 1).
      apply (for_range_read_block KolekcijaSpec.parse_window (y0 :: yrest)
               (Kolekcija.parse_interval (y0 :: yrest))
               (parse_interval_Next (y0 :: yrest))).
      exists windows. auto. }
    rewrite Ew. cbn [cbind].
    assert (Ev : Kolekcija.validate n k 0 songs windows = Next tt)
      by (apply validate_Next; [symmetry; exact Lw | assumption]).
    rewrite Ev. cbn [cbind].
    rewrite _count_distinct_in_intervals_correct
      by (eapply Forall2_valid_nonempty; eassumption).
    rewrite Hd, Z.eqb_refl. reflexivity.
Qed.

Lemma total_length_fixed_width (k : Z) (windows : list (Z * Z)) :
  Forall (fun w => snd w - fst w + 1 = k) windows ->
  total_length windows = Z.of_nat (length windows) * k.
Proof.
  induction 1 as [|w ws Hw _ IH]; [reflexivity|].
  cbn [total_length fold_right]. fold (total_length ws).
  rewrite IH, Hw. simpl length. lia.
Qed.

(** X29: An answer the KOLEKCIJA checker accepts lies between K and the
    smaller of N and M*K (M the number of songs of the playlist, at least
    one): the expected count is the number of distinct integers covered by
    M windows of width K inside [1..N].  When the stored expected count is
    outside that range no output is accepted. *)
Theorem kolekcija_accepted_count_bounds
    (problem_id input_data expected actual : pystr)
    (n k : Z) (songs : list Z) :
  KolekcijaSpec.parse_input input_data = Some (n, k, songs) ->
  songs <> [] ->
  accepts (checker_kolekcija problem_id input_data expected (JStr actual)) = true ->
  exists claimed,
    parse_scalar expected = Some claimed
    /\ k <= claimed <= Z.of_nat (length songs) * k
    /\ claimed <= n.
Proof.
  intros Hin Hne Hacc. apply kolekcija_accepts_spec in Hacc.
  destruct Hacc as (n' & k' & songs' & claimed & windows & Hin' & Hexp & _
                    & _ & Hvalid & Hd).
  rewrite Hin in Hin'. injection Hin' as <- <- <-.
  exists claimed. split; [assumption|].
  pose proof (Forall2_valid_nonempty Hvalid) as Hnonempty.
  assert (Hwidth : Forall (fun w => snd w - fst w + 1 = k) windows).
  { clear -Hvalid. induction Hvalid as [|s w ss ws Hv _ IH]; constructor;
      [apply Hv | assumption]. }
  assert (Hinside : Forall (fun w => 1 <= fst w /\ snd w <= n) windows).
  { clear -Hvalid. induction Hvalid as [|s w ss ws Hv _ IH]; constructor;
      [unfold KolekcijaSpec.valid_window in Hv; lia | assumption]. }
  assert (Hlen : length windows = length songs).
  { clear -Hvalid. induction Hvalid; simpl; congruence. }
  subst claimed. unfold distinct_covered. fold (cover windows).
  destruct windows as [|w0 ws] eqn:Ew.
  { destruct songs; [congruence | discriminate]. }
  rewrite <- Ew in *.
  assert (Hw0 : In w0 windows) by (rewrite Ew; left; reflexivity).
  rewrite Forall_forall in Hnonempty, Hwidth, Hinside.
  pose proof (Hnonempty _ Hw0) as H0. pose proof (Hwidth _ Hw0) as H1.
  pose proof (Hinside _ Hw0) as H2.
  split; [split|].
  - rewrite <- H1, <- (card_zrange H0). apply card_incl.
    intros x Hx. apply cover_In. exists w0. split; [assumption|].
    apply zrange_In. assumption.
  - rewrite <- Hlen, <- total_length_fixed_width
      by (apply Forall_forall; assumption).
    rewrite <- length_cover by (apply Forall_forall; assumption).
    apply card_le_length.
  - assert (Hn : 1 <= n) by lia.
    apply Z.le_trans with (m := card (zrange 1 n));
      [|rewrite (card_zrange Hn); lia].
    apply card_incl.
    intros x Hx. apply cover_In in Hx. destruct Hx as (w & Hw & Hxw).
    apply zrange_In. specialize (Hinside _ Hw). lia.
Qed.

Lemma kolekcija_accepted_count_bounds_witness :
  exists claimed,
    parse_scalar Examples.kolekcija_expected = Some claimed
    /\ 3 <= claimed <= Z.of_nat (length [5; 6; 7]) * 3
    /\ claimed <= 10.
Proof.
  apply (@kolekcija_accepted_count_bounds (py "kolekcija")
           Examples.kolekcija_input Examples.kolekcija_expected
           Examples.kolekcija_good 10 3 [5; 6; 7]).
  - vm_compute. reflexivity.
  - discriminate.
  - vm_compute. reflexivity.
Defined.
